(** * Apollo-Linux virtual display layer (src/platform/linux/virtual_display.cpp)

    A shallow embedding of the EVDI-backed virtual display driver: the EDID
    synthesizer, the registry of virtual displays, the driver life cycle and
    the watchdog thread, followed by the properties of the specification
    that were checked against them.

    Conventions.
    - C++ integers are [Z]; every narrowing store or unsigned operation has
      its wrap-around written out ([u8], [u16], [u32]).
    - [unsigned char edid[256]] is a [list Z] written by index ([store]).
    - [std::map<std::string, VirtualDisplayInfo>] is an association list kept
      in ascending key order, the order in which the C++ code iterates.
    - The two [double] computations of the timing code are a parameter of
      the synthesizer ([FloatCasts]); [Binary64] gives them in IEEE 754
      binary64 arithmetic for the sample hosts.
    - Calls that leave the process (dlopen, the EVDI function table, open(2),
      close(2), the failure callback) are recorded, newest first, in the
      [trace] of the state; what the outside world answers is read from a
      [Platform], a family of oracles that may depend on the whole trace. *)

From Stdlib Require Import ZArith List String Ascii Bool Lia DecimalString.
From Stdlib Require Import RelationClasses OrdersEx.
From Stdlib Require SpecFloat.
Import ListNotations.
Local Open Scope Z_scope.

(** ** Fixed-width integers *)

Definition u8 (x : Z) : Z := x mod 256.
Definition u16 (x : Z) : Z := x mod 65536.
Definition u32 (x : Z) : Z := x mod 4294967296.

(** Conversion to [int] of a value already known modulo 2^32. *)
Definition s32 (x : Z) : Z :=
  let y := u32 x in if y <? 2147483648 then y else y - 4294967296.

(** ** The EDID buffer *)

Module Edid.

(** [edid[i] = v] on an [unsigned char] array: the value is truncated to
    eight bits.  Every index the source uses is a constant below 256. *)
Fixpoint store (i : nat) (v : Z) (buf : list Z) : list Z :=
  match buf, i with
  | [], _ => []
  | _ :: tl, O => u8 v :: tl
  | b :: tl, S j => b :: store j v tl
  end.

Definition load (i : nat) (buf : list Z) : Z := nth i buf 0.

(** [memset(edid, 0, sizeof(edid))] for [static unsigned char edid[256]]. *)
Definition zeroed : list Z := repeat 0 256.

(** The 128 bytes of the block that starts at [off]. *)
Definition block (off : nat) (buf : list Z) : list Z :=
  firstn 128 (skipn off buf).

Definition sum_bytes (l : list Z) : Z := fold_right Z.add 0 l.

(** [calculate_edid_checksum(edid + off, block_size)]: a [uint8_t]
    accumulator over the first [block_size - 1] bytes, then
    [edid[block_size - 1] = 256 - checksum]. *)
Definition calculate_edid_checksum (off : nat) (block_size : nat)
    (edid : list Z) : list Z :=
  let checksum :=
    fold_left (fun c i => u8 (c + load (off + i) edid))
              (seq 0 (block_size - 1)) 0 in
  store (off + (block_size - 1)) (256 - checksum) edid.

(** The generic branch of [create_detailed_timing_descriptor] computes two
    values in [double] arithmetic and casts them to [uint32_t].  The
    synthesizer reads the two casts from this record and reduces them
    modulo 2^32 where they are used, so that what is proved of it holds
    for every outcome of the casts; [Binary64.casts] below gives them in
    IEEE 754 arithmetic. *)
Record FloatCasts : Type := {
  (** [static_cast<uint32_t>((h_total / h_period) * 1000)] *)
  cast_pixel_clock_khz : Z -> Z -> Z -> Z;
  (** [static_cast<uint32_t>(width * 0.15)] *)
  cast_h_blank : Z -> Z
}.

(** The seven timing parameters chosen by the resolution test. *)
Record timing : Type := {
  h_blank : Z; v_blank : Z; h_front : Z; h_sync : Z;
  v_front : Z; v_sync : Z; pixel_clock_khz : Z
}.

Definition timing_for (fc : FloatCasts) (width height refresh_rate : Z)
    : timing :=
  if (width =? 3840) && (height =? 2160) then
    {| h_blank := 560; v_blank := 90; h_front := 176; h_sync := 88;
       v_front := 8; v_sync := 10; pixel_clock_khz := 533250 |}
  else if (width =? 2560) && (height =? 1440) then
    {| h_blank := 160; v_blank := 44; h_front := 48; h_sync := 32;
       v_front := 3; v_sync := 5; pixel_clock_khz := 241500 |}
  else if (width =? 1920) && (height =? 1080) then
    {| h_blank := 280; v_blank := 45; h_front := 88; h_sync := 44;
       v_front := 4; v_sync := 5; pixel_clock_khz := 148500 |}
  else if (width =? 1280) && (height =? 720) then
    {| h_blank := 370; v_blank := 30; h_front := 110; h_sync := 40;
       v_front := 5; v_sync := 5; pixel_clock_khz := 74250 |}
  else
    let hb := u32 (cast_h_blank fc width) in
    {| h_blank := hb; v_blank := 45; h_front := hb / 4; h_sync := hb / 4;
       v_front := 3; v_sync := 5;
       pixel_clock_khz := u32 (cast_pixel_clock_khz fc width height refresh_rate) |}.

(** [create_detailed_timing_descriptor(&edid[off], width, height, refresh_rate)]:
    the eighteen bytes [dtd[0] .. dtd[17]]. *)
Definition create_detailed_timing_descriptor (fc : FloatCasts) (off : nat)
    (width height refresh_rate : Z) (edid : list Z) : list Z :=
  let t := timing_for fc width height refresh_rate in
  let h_active := width in
  let v_active := height in
  let pixel_clock := u16 (pixel_clock_khz t / 10) in
  let edid := store (off + 0) (Z.land pixel_clock 255) edid in
  let edid := store (off + 1) (Z.land (Z.shiftr pixel_clock 8) 255) edid in
  let edid := store (off + 2) (Z.land h_active 255) edid in
  let edid := store (off + 3) (Z.land (h_blank t) 255) edid in
  let edid := store (off + 4)
    (Z.lor (Z.shiftl (Z.land (Z.shiftr h_active 8) 15) 4)
           (Z.land (Z.shiftr (h_blank t) 8) 15)) edid in
  let edid := store (off + 5) (Z.land v_active 255) edid in
  let edid := store (off + 6) (Z.land (v_blank t) 255) edid in
  let edid := store (off + 7)
    (Z.lor (Z.shiftl (Z.land (Z.shiftr v_active 8) 15) 4)
           (Z.land (Z.shiftr (v_blank t) 8) 15)) edid in
  let edid := store (off + 8) (Z.land (h_front t) 255) edid in
  let edid := store (off + 9) (Z.land (h_sync t) 255) edid in
  let edid := store (off + 10)
    (Z.lor (Z.shiftl (Z.land (v_front t) 15) 4) (Z.land (v_sync t) 15)) edid in
  let edid := store (off + 11)
    (Z.lor (Z.lor (Z.lor
       (Z.shiftl (Z.land (Z.shiftr (h_front t) 8) 3) 6)
       (Z.shiftl (Z.land (Z.shiftr (h_sync t) 8) 3) 4))
       (Z.shiftl (Z.land (Z.shiftr (v_front t) 4) 3) 2))
       (Z.land (Z.shiftr (v_sync t) 4) 3)) edid in
  let h_size_mm := u32 (width * 600) / 3840 in
  let v_size_mm := u32 (height * 340) / 2160 in
  let edid := store (off + 12) (Z.land h_size_mm 255) edid in
  let edid := store (off + 13) (Z.land v_size_mm 255) edid in
  let edid := store (off + 14)
    (Z.lor (Z.shiftl (Z.land (Z.shiftr h_size_mm 8) 15) 4)
           (Z.land (Z.shiftr v_size_mm 8) 15)) edid in
  let edid := store (off + 15) 0 edid in
  let edid := store (off + 16) 0 edid in
  store (off + 17) 30 edid.

(** Stores of consecutive bytes starting at [off]; used for the blocks of
    assignments that the source writes one index after the other. *)
Fixpoint store_bytes (off : nat) (vs : list Z) (edid : list Z) : list Z :=
  match vs with
  | [] => edid
  | v :: vs' => store_bytes (S off) vs' (store off v edid)
  end.

(** The bytes of a C string literal, as the loop
    [for (i = 0; i < 13 && name[i]; i++) edid[77 + i] = name[i]] reads them. *)
Definition c_chars (s : string) : list Z :=
  map (fun c => Z.of_N (N_of_ascii c)) (list_ascii_of_string s).

Definition needs_extension (width height : Z) : bool :=
  (1920 <? width) || (1080 <? height).

(** [generate_edid_for_resolution(width, height, refresh_rate)].  The
    arguments are [uint32_t]; the result is the whole static buffer of 256
    bytes, of which the second half stays zero when no extension block is
    written. *)
Definition generate_edid_for_resolution (fc : FloatCasts)
    (width height refresh_rate : Z) : list Z :=
  let edid := zeroed in
  (* Header *)
  let edid := store_bytes 0 [0; 255; 255; 255; 255; 255; 255; 0] edid in
  (* Manufacturer ID, product code, serial number *)
  let edid := store_bytes 8 [6; 76] edid in
  let edid := store_bytes 10 [1; 0] edid in
  let edid := store_bytes 12 [1; 0; 0; 0] edid in
  (* Week and year of manufacture, EDID version 1.4 *)
  let edid := store_bytes 16 [1; 34] edid in
  let edid := store_bytes 18 [1; 4] edid in
  (* Video input, screen size, gamma, features *)
  let edid := store 20 181 edid in
  let edid := store 21 60 edid in
  let edid := store 22 34 edid in
  let edid := store 23 120 edid in
  let edid := store 24 58 edid in
  (* Chromaticity coordinates *)
  let edid := store_bytes 25 [252; 129; 164; 85; 77; 157; 37; 18; 80; 84] edid in
  (* Established timings *)
  let edid := store_bytes 35 [33; 8; 0] edid in
  (* Standard timings *)
  let edid := store_bytes 38
    [209; 192; 179; 0; 169; 192; 129; 128; 129; 192; 1; 1; 1; 1; 1; 1] edid in
  (* Detailed Timing Descriptor 1 *)
  let edid := create_detailed_timing_descriptor fc 54 width height refresh_rate edid in
  (* Descriptor 2: display name *)
  let edid := store_bytes 72 [0; 0; 0; 252; 0] edid in
  let edid := store_bytes 77 (firstn 13 (c_chars "APOLLO VDISP")) edid in
  let edid := store 89 10 edid in
  (* Descriptor 3: display range limits *)
  let edid := store_bytes 90 [0; 0; 0; 253; 0] edid in
  let edid := store_bytes 95 [24; 120; 15; 160; 120; 0; 10] edid in
  let edid := store_bytes 102 (repeat 32 6) edid in
  (* Descriptor 4: dummy *)
  let edid := store_bytes 108 [0; 0; 0; 16; 0] edid in
  let edid := store_bytes 113 (repeat 32 13) edid in
  (* Extension flag *)
  let edid := store 126 (if needs_extension width height then 1 else 0) edid in
  let edid := calculate_edid_checksum 0 128 edid in
  if needs_extension width height then
    (* Block 1: CEA-861 extension *)
    let edid := store_bytes 128 [2; 3; 24; 114] edid in
    let edid := store_bytes 132 [71; 144; 4; 3; 95; 96; 97; 101] edid in
    let edid := store_bytes 140 [103; 3; 12; 0; 16; 0; 0; 120] edid in
    let edid :=
      if 3840 <=? width
      then create_detailed_timing_descriptor fc 152 3840 2160 60 edid
      else edid in
    calculate_edid_checksum 128 128 edid
  else edid.

(** A block whose last byte is the two's complement of the sum of the
    other 127, so that the 128 bytes add up to 0 modulo 256. *)
Definition checksummed (blk : list Z) : Prop :=
  List.length blk = 128%nat /\
  nth 127 blk 0 = u8 (256 - u8 (sum_bytes (firstn 127 blk))) /\
  sum_bytes blk mod 256 = 0.

(** The length of the descriptor a buffer holds: the base block and as many
    extension blocks as its extension flag, byte 126, announces. *)
Definition descriptor_length (edid : list Z) : Z := 128 * (1 + load 126 edid).

End Edid.

(** ** IEEE 754 binary64

    The [double] arithmetic of the generic timing branch, on the
    specification of floating-point numbers of the standard library
    (53 bits of precision, round to nearest even). *)

Module Binary64.

Definition prec : Z := 53.
Definition emax : Z := 1024.

(** An integer converted to [double]; every [uint32_t] converts exactly. *)
Definition of_Z (z : Z) : SpecFloat.spec_float :=
  SpecFloat.binary_normalize prec emax z 0 false.

Definition add := SpecFloat.SFadd prec emax.
Definition sub := SpecFloat.SFsub prec emax.
Definition mul := SpecFloat.SFmul prec emax.
Definition div := SpecFloat.SFdiv prec emax.

(** The literal [0.15]: the [double] nearest to 15/100,
    [0x1.3333333333333p-3]. *)
Definition c_0_15 : SpecFloat.spec_float :=
  SpecFloat.S754_finite false 5404319552844595 (-55).

(** The value rounded toward zero; [None] for an infinity or a NaN. *)
Definition truncate (x : SpecFloat.spec_float) : option Z :=
  match x with
  | SpecFloat.S754_zero _ => Some 0
  | SpecFloat.S754_finite s m e =>
      let v := if 0 <=? e then Z.pos m * 2 ^ e
               else Z.quot (Z.pos m) (2 ^ (- e)) in
      Some (if s then - v else v)
  | _ => None
  end.

(** [static_cast<uint32_t>(x)].  For a value that truncates into
    [0 .. 2^32 - 1] this is the truncation.  For any other value the
    conversion is undefined in C++; the answer given here is that of the
    x86-64 conversion through a 64-bit register: the low 32 bits of the
    truncation when it fits 64 bits, and 0 otherwise. *)
Definition to_uint32 (x : SpecFloat.spec_float) : Z :=
  match truncate x with
  | Some v =>
      if (- 2 ^ 63 <? v) && (v <? 2 ^ 63) then u32 v else 0
  | None => 0
  end.

(** [h_period], [h_total] and the pixel clock of the generic branch;
    [height + 3] is computed in [uint32_t] before it is converted. *)
Definition pixel_clock_khz (width height refresh_rate : Z) : Z :=
  let h_period :=
    div (sub (div (of_Z 1000000) (of_Z refresh_rate)) (of_Z 550))
        (of_Z (u32 (height + 3))) in
  let h_total := add (of_Z width) (mul (of_Z width) c_0_15) in
  to_uint32 (mul (div h_total h_period) (of_Z 1000)).

(** [static_cast<uint32_t>(width * 0.15)] *)
Definition h_blank (width : Z) : Z := to_uint32 (mul (of_Z width) c_0_15).

Definition casts : Edid.FloatCasts :=
  {| Edid.cast_pixel_clock_khz := pixel_clock_khz;
     Edid.cast_h_blank := h_blank |}.

End Binary64.

(** ** [std::map<std::string, V>] *)

Module StdMap.
Section WithValue.
Variable V : Type.

(** The entries in iteration order.  [std::less<std::string>] compares
    byte-wise, which is [String.compare]. *)
Definition t : Type := list (string * V).

Definition empty : t := [].

(** [m.find(k)] *)
Fixpoint find (k : string) (m : t) : option V :=
  match m with
  | [] => None
  | (k', v) :: rest => if String.eqb k k' then Some v else find k rest
  end.

(** [m[k] = v]: the entry for [k] is overwritten when the key is there,
    and created at its place in the order otherwise. *)
Fixpoint assign (k : string) (v : V) (m : t) : t :=
  match m with
  | [] => [(k, v)]
  | (k', v') :: rest =>
      match String.compare k k' with
      | Lt => (k, v) :: (k', v') :: rest
      | Eq => (k, v) :: rest
      | Gt => (k', v') :: assign k v rest
      end
  end.

(** [m.erase(m.find(k))] for a key that was found. *)
Fixpoint erase (k : string) (m : t) : t :=
  match m with
  | [] => []
  | (k', v) :: rest => if String.eqb k k' then rest else (k', v) :: erase k rest
  end.

(** [m.size()] *)
Definition size (m : t) : nat := List.length m.

(** How many entries carry the key [k]. *)
Definition count (k : string) (m : t) : nat :=
  List.length (filter (fun e => String.eqb k (fst e)) m).

(** The representation invariant of the container: keys strictly ascend. *)
Fixpoint ascending (m : t) : bool :=
  match m with
  | [] => true
  | (k, _) :: rest =>
      match rest with
      | [] => true
      | (k', _) :: _ => String.ltb k k' && ascending rest
      end
  end.
End WithValue.
Arguments empty {V}.
Arguments find {V} k m.
Arguments assign {V} k v m.
Arguments erase {V} k m.
Arguments size {V} m.
Arguments count {V} k m.
Arguments ascending {V} m.
End StdMap.

(** ** [src/uuid.h] *)

Module uuid_util.
(** [uuid_t] is declared in src/uuid.h, which is not among the source
    files.  The driver only ever calls [guid.string()], so a UUID is
    represented here by the string that call returns; nothing is assumed
    about its format. *)
Record uuid_t : Type := { string : String.string }.
End uuid_util.

(** ** namespace VDISPLAY *)

Module VDISPLAY.

Inductive DRIVER_STATUS : Type :=
| UNKNOWN | OK | FAILED | VERSION_INCOMPATIBLE | WATCHDOG_FAILED | NOT_SUPPORTED.

Inductive evdi_device_status : Type :=
| EVDI_AVAILABLE | EVDI_UNRECOGNIZED | EVDI_NOT_PRESENT.

(** [struct VirtualDisplayInfo].  [handle] is a pointer: 0 is [nullptr]. *)
Record VirtualDisplayInfo : Type := {
  name : string;
  guid_str : string;
  width : Z;
  height : Z;
  fps : Z;
  device_index : Z;
  handle : Z;
  drm_fd : Z;
  active : bool;
  using_evdi : bool
}.

(** Calls that leave the translation unit, with what they returned. *)
Inductive event : Type :=
| Dlopen (lib_name : string) (lib : Z)
| Dlerror
| Dlsym (lib : Z) (symbol : string) (fn : Z)
| Dlclose (lib : Z)
| ReadProcModules
| ExistsSysModuleEvdi (found : option bool)
| EvdiGetLibVersion
| EvdiCheckDevice (device : Z) (status : evdi_device_status)
| EvdiAddDevice (result : Z)
| EvdiOpen (device : Z) (h : Z)
| EvdiClose (h : Z)
| EvdiConnect (h : Z) (edid : list Z) (edid_length : Z) (sku_area_limit : Z)
| EvdiDisconnect (h : Z)
| EvdiGetEventReady (h : Z) (ready : Z)
| SysOpen (path : string) (fd : Z)
| SysClose (fd : Z)
| DrmFirstConnected (connector : option Z)
| ThreadSpawn
| ThreadJoin
| FailCb (cb : nat).

(** What the outside world answers.  Every oracle sees the trace so far, so
    an answer may change from one call to the next. *)
Record Platform : Type := {
  dlopen : list event -> string -> Z;
  dlsym : list event -> Z -> string -> Z;
  proc_modules : list event -> list string;
  (** [fs::exists("/sys/module/evdi")], the overload that throws: [None]
      is a [std::filesystem::filesystem_error], raised when the status of
      the path cannot be determined. *)
  sys_module_evdi : list event -> option bool;
  evdi_check_device : list event -> Z -> evdi_device_status;
  evdi_add_device : list event -> Z;
  evdi_open : list event -> Z -> Z;
  evdi_get_event_ready : list event -> Z -> Z;
  sys_open : list event -> string -> Z;
  (** [getPrimaryDisplay]: the [connector_type_id] of the first connected
      connector found while walking [/dev/dri], if any. *)
  drm_first_connected : list event -> option Z;
  float_casts : Edid.FloatCasts
}.

(** Where the watchdog thread stands in
    [while (watchdog_running) { sleep; if (!watchdog_running) break; lock; scan }]. *)
Inductive watchdog_pc : Type :=
| LoopHead    (* about to test the loop condition *)
| Sleeping    (* inside [sleep_for(5s)] *)
| AwaitLock   (* passed the second test, about to take [vdisplay_mutex] *)
| Returned.   (* the thread function has returned *)

(** The thread object: its position and the captured [failCb]
    ([None] is an empty [std::function]). *)
Record thread : Type := {
  pc : watchdog_pc;
  failCb : option nat
}.

(** The globals of the translation unit.  Of the [evdi] table only
    [lib_handle] and [loaded] are kept: the thirteen function pointers are
    used through the oracles of the [Platform].  [watchdog_thread] is
    [None] when the [std::thread] is not joinable. *)
Record state : Type := {
  driver_status : DRIVER_STATUS;
  watchdog_running : bool;
  watchdog_thread : option thread;
  evdi_available : bool;
  evdi_lib_handle : Z;
  evdi_loaded : bool;
  virtual_displays : StdMap.t VirtualDisplayInfo;
  trace : list event
}.

Definition initial_state : state :=
  {| driver_status := UNKNOWN;
     watchdog_running := false;
     watchdog_thread := None;
     evdi_available := false;
     evdi_lib_handle := 0;
     evdi_loaded := false;
     virtual_displays := StdMap.empty;
     trace := [] |}.

Definition set_driver_status (v : DRIVER_STATUS) (s : state) : state :=
  {| driver_status := v; watchdog_running := watchdog_running s;
     watchdog_thread := watchdog_thread s; evdi_available := evdi_available s;
     evdi_lib_handle := evdi_lib_handle s; evdi_loaded := evdi_loaded s;
     virtual_displays := virtual_displays s; trace := trace s |}.

Definition set_watchdog_running (v : bool) (s : state) : state :=
  {| driver_status := driver_status s; watchdog_running := v;
     watchdog_thread := watchdog_thread s; evdi_available := evdi_available s;
     evdi_lib_handle := evdi_lib_handle s; evdi_loaded := evdi_loaded s;
     virtual_displays := virtual_displays s; trace := trace s |}.

Definition set_watchdog_thread (v : option thread) (s : state) : state :=
  {| driver_status := driver_status s; watchdog_running := watchdog_running s;
     watchdog_thread := v; evdi_available := evdi_available s;
     evdi_lib_handle := evdi_lib_handle s; evdi_loaded := evdi_loaded s;
     virtual_displays := virtual_displays s; trace := trace s |}.

Definition set_evdi_available (v : bool) (s : state) : state :=
  {| driver_status := driver_status s; watchdog_running := watchdog_running s;
     watchdog_thread := watchdog_thread s; evdi_available := v;
     evdi_lib_handle := evdi_lib_handle s; evdi_loaded := evdi_loaded s;
     virtual_displays := virtual_displays s; trace := trace s |}.

Definition set_evdi_lib_handle (v : Z) (s : state) : state :=
  {| driver_status := driver_status s; watchdog_running := watchdog_running s;
     watchdog_thread := watchdog_thread s; evdi_available := evdi_available s;
     evdi_lib_handle := v; evdi_loaded := evdi_loaded s;
     virtual_displays := virtual_displays s; trace := trace s |}.

Definition set_evdi_loaded (v : bool) (s : state) : state :=
  {| driver_status := driver_status s; watchdog_running := watchdog_running s;
     watchdog_thread := watchdog_thread s; evdi_available := evdi_available s;
     evdi_lib_handle := evdi_lib_handle s; evdi_loaded := v;
     virtual_displays := virtual_displays s; trace := trace s |}.

Definition set_virtual_displays (v : StdMap.t VirtualDisplayInfo) (s : state)
    : state :=
  {| driver_status := driver_status s; watchdog_running := watchdog_running s;
     watchdog_thread := watchdog_thread s; evdi_available := evdi_available s;
     evdi_lib_handle := evdi_lib_handle s; evdi_loaded := evdi_loaded s;
     virtual_displays := v; trace := trace s |}.

(** Record one call to the outside. *)
Definition emit (e : event) (s : state) : state :=
  {| driver_status := driver_status s; watchdog_running := watchdog_running s;
     watchdog_thread := watchdog_thread s; evdi_available := evdi_available s;
     evdi_lib_handle := evdi_lib_handle s; evdi_loaded := evdi_loaded s;
     virtual_displays := virtual_displays s; trace := e :: trace s |}.

(** How a call that may not come back ends. *)
Inductive result (A : Type) : Type :=
| Returns (a : A) (s : state)
| Deadlock      (* waits for ever on the mutex or on the join *)
| Terminate.    (* [std::terminate] *)
Arguments Returns {A} a s.
Arguments Deadlock {A}.
Arguments Terminate {A}.

(** [std::to_string(int)] *)
Definition to_string (n : Z) : string := NilZero.string_of_int (Z.to_int n).

(** [haystack.find(needle) != std::string::npos] *)
Definition contains (needle haystack : string) : bool :=
  match String.index 0 needle haystack with
  | Some _ => true
  | None => false
  end.

Definition lib_names : list string :=
  [ "libevdi.so.1"; "libevdi.so"; "/usr/lib/libevdi.so.1"; "/usr/lib/libevdi.so";
    "/usr/local/lib/libevdi.so.1"; "/usr/local/lib/libevdi.so" ]%string.

(** The arguments of the thirteen [LOAD_EVDI_FUNC] lines, in order. *)
Definition evdi_funcs : list string :=
  [ "check_device"; "open"; "add_device"; "close"; "connect"; "disconnect";
    "grab_pixels"; "register_buffer"; "unregister_buffer"; "request_update";
    "handle_events"; "get_event_ready"; "get_lib_version" ]%string.

Section WithPlatform.
Variable P : Platform.

(** *** EVDI library loading *)

(** The [for] loop over [lib_names], left at the first handle that is
    not null. *)
Fixpoint dlopen_first (names : list string) (s : state) : state :=
  match names with
  | [] => s
  | lib_name :: rest =>
      let lib := dlopen P (trace s) lib_name in
      let s := set_evdi_lib_handle lib (emit (Dlopen lib_name lib) s) in
      if lib =? 0 then dlopen_first rest s else s
  end.

(** The [LOAD_EVDI_FUNC] lines: the first symbol that does not resolve
    closes the library and makes the loader return false. *)
Fixpoint load_evdi_funcs (names : list string) (s : state) : bool * state :=
  match names with
  | [] => (true, s)
  | fname :: rest =>
      let symbol := ("evdi_" ++ fname)%string in
      let fn := dlsym P (trace s) (evdi_lib_handle s) symbol in
      let s := emit (Dlsym (evdi_lib_handle s) symbol fn) s in
      if fn =? 0
      then (false, set_evdi_lib_handle 0 (emit (Dlclose (evdi_lib_handle s)) s))
      else load_evdi_funcs rest s
  end.

Definition load_evdi_library (s : state) : bool * state :=
  if evdi_loaded s then (true, s)
  else
    let s := dlopen_first lib_names s in
    if evdi_lib_handle s =? 0 then (false, emit Dlerror s)
    else
      let '(ok, s) := load_evdi_funcs evdi_funcs s in
      if ok
      then (true, set_evdi_loaded true (emit EvdiGetLibVersion s))
      else (false, s).

Definition unload_evdi_library (s : state) : state :=
  let s :=
    if evdi_lib_handle s =? 0 then s
    else set_evdi_lib_handle 0 (emit (Dlclose (evdi_lib_handle s)) s) in
  set_evdi_loaded false s.

(** *** EVDI module check *)

(** The result is [None] when [fs::exists] throws: the function has no
    handler, so the exception leaves it. *)
Definition check_evdi_module_loaded (s : state) : option bool * state :=
  let lines := proc_modules P (trace s) in
  let s := emit ReadProcModules s in
  if existsb (contains "evdi") lines then (Some true, s)
  else
    let found := sys_module_evdi P (trace s) in
    let s := emit (ExistsSysModuleEvdi found) s in
    match found with
    | Some true => (Some true, s)
    | Some false => (Some false, s)
    | None => (None, s)
    end.

(** *** Utility functions *)

Definition generate_display_name (guid : uuid_util.uuid_t) : string :=
  ("VIRTUAL-" ++ String.substring 0 8 (uuid_util.string guid))%string.

(** The body of [for (int i = 0; i < 16; i++)] over the remaining values
    of [i]; falling out of the loop returns -1. *)
Fixpoint find_available_evdi_device_from (slots : list Z) (s : state)
    : Z * state :=
  match slots with
  | [] => (-1, s)
  | i :: rest =>
      let status := evdi_check_device P (trace s) i in
      let s := emit (EvdiCheckDevice i status) s in
      match status with
      | EVDI_AVAILABLE => (i, s)
      | EVDI_NOT_PRESENT =>
          let result := evdi_add_device P (trace s) in
          let s := emit (EvdiAddDevice result) s in
          if 0 <=? result then (result, s)
          else find_available_evdi_device_from rest s
      | EVDI_UNRECOGNIZED => find_available_evdi_device_from rest s
      end
  end.

Definition find_available_evdi_device (s : state) : Z * state :=
  find_available_evdi_device_from (map Z.of_nat (seq 0 16)) s.

(** *** Public API

    Every public function holds [vdisplay_mutex] from its first to its
    last statement, and so does the scan of the watchdog: each is one
    atomic transition of the state. *)

(** [openVDisplayDevice] has no handler either: when the module check
    throws, the exception leaves it (result [None]) with the globals as
    they are at that point, [evdi_available] set and [driver_status] not
    yet written; the [lock_guard] gives the mutex back. *)
Definition openVDisplayDevice (s : state) : option DRIVER_STATUS * state :=
  match driver_status s with
  | OK => (Some (driver_status s), s)
  | _ =>
      let '(loaded, s) := load_evdi_library s in
      let s := set_evdi_available loaded s in
      let rest (s : state) :=
        let s := set_driver_status OK s in
        (Some (driver_status s), s) in
      if evdi_available s then
        let '(present, s) := check_evdi_module_loaded s in
        match present with
        | Some true => rest s
        | Some false => rest (set_evdi_available false s)
        | None => (None, s)
        end
      else rest s
  end.

(** What the clean-up loops do for one record that is being dropped. *)
Definition release_record (check_active : bool) (vdinfo : VirtualDisplayInfo)
    (s : state) : state :=
  if check_active && negb (active vdinfo) then s
  else
    let s :=
      if using_evdi vdinfo && negb (handle vdinfo =? 0)
      then emit (EvdiClose (handle vdinfo))
             (emit (EvdiDisconnect (handle vdinfo)) s)
      else s in
    if 0 <=? drm_fd vdinfo then emit (SysClose (drm_fd vdinfo)) s else s.

(** [for (auto &[guid, vdinfo] : virtual_displays) if (vdinfo.active) ...] *)
Fixpoint release_all (records : StdMap.t VirtualDisplayInfo) (s : state)
    : state :=
  match records with
  | [] => s
  | (_, vdinfo) :: rest => release_all rest (release_record true vdinfo s)
  end.

(** [closeVDisplayDevice] clears the flag and joins the watchdog while it
    holds the mutex.  A thread at [LoopHead] or [Sleeping] sees the flag
    and returns; a thread that already passed the second test waits for
    the mutex the caller holds, and the join never ends. *)
Definition closeVDisplayDevice (s : state) : result unit :=
  let s := set_watchdog_running false s in
  let joined :=
    match watchdog_thread s with
    | None => Some s
    | Some t =>
        match pc t with
        | AwaitLock => None
        | _ => Some (emit ThreadJoin (set_watchdog_thread None s))
        end
    end in
  match joined with
  | None => Deadlock
  | Some s =>
      let s := release_all (virtual_displays s) s in
      let s := set_virtual_displays StdMap.empty s in
      let s := unload_evdi_library s in
      Returns tt (set_driver_status UNKNOWN s)
  end.

(** [startPingThread(failCb)].  Assigning to a [std::thread] that is still
    joinable calls [std::terminate]. *)
Definition startPingThread (cb : option nat) (s : state) : result bool :=
  if watchdog_running s then Returns true s
  else
    let s := set_watchdog_running true s in
    match watchdog_thread s with
    | Some _ => Terminate
    | None =>
        Returns true
          (emit ThreadSpawn
             (set_watchdog_thread (Some {| pc := LoopHead; failCb := cb |}) s))
    end.

(** The [for] loop of the watchdog over the registry: [true] when a
    liveness query answered below zero, which ends the scan. *)
Fixpoint watchdog_scan (records : StdMap.t VirtualDisplayInfo) (s : state)
    : bool * state :=
  match records with
  | [] => (false, s)
  | (_, vdinfo) :: rest =>
      if active vdinfo && using_evdi vdinfo && negb (handle vdinfo =? 0) then
        let ready := evdi_get_event_ready P (trace s) (handle vdinfo) in
        let s := emit (EvdiGetEventReady (handle vdinfo) ready) s in
        if ready <? 0 then (true, s) else watchdog_scan rest s
      else watchdog_scan rest s
  end.

Definition set_pc (t : thread) (p : watchdog_pc) (s : state) : state :=
  set_watchdog_thread (Some {| pc := p; failCb := failCb t |}) s.

(** One move of the watchdog thread, from one of its positions to the
    next.  A thread that returned, or that does not exist, does not move.
    The callback belongs to the caller: its invocation is recorded as
    [FailCb], and it is taken to return without entering the driver (it runs
    while the thread holds [vdisplay_mutex]). *)
Definition watchdog_step (s : state) : state :=
  match watchdog_thread s with
  | None => s
  | Some t =>
      match pc t with
      | LoopHead =>
          if watchdog_running s then set_pc t Sleeping s
          else set_pc t Returned s
      | Sleeping =>
          if negb (watchdog_running s) then set_pc t Returned s
          else set_pc t AwaitLock s
      | AwaitLock =>
          let '(lost, s) := watchdog_scan (virtual_displays s) s in
          if lost then
            let s :=
              match failCb t with
              | Some cb => emit (FailCb cb) s
              | None => s
              end in
            set_pc t Returned s
          else set_pc t LoopHead s
      | Returned => s
      end
  end.

Definition setRenderAdapterByName (adapterName : string) (s : state)
    : bool * state :=
  (true, s).

Definition createVirtualDisplay (s_client_uid s_client_name : string)
    (width height fps : Z) (guid : uuid_util.uuid_t) (s : state)
    : string * state :=
  match driver_status s with
  | OK =>
      let guid_str := uuid_util.string guid in
      let display_name := generate_display_name guid in
      let fps_hz := fps / 1000 in
      let vdinfo :=
        {| name := display_name; guid_str := guid_str;
           width := width; height := height; fps := fps;
           device_index := -1; handle := 0; drm_fd := -1;
           active := true; using_evdi := false |} in
      let '(vdinfo, s) :=
        if evdi_available s then
          let '(device, s) := find_available_evdi_device s in
          if 0 <=? device then
            let h := evdi_open P (trace s) device in
            let s := emit (EvdiOpen device h) s in
            if negb (h =? 0) then
              let edid :=
                Edid.generate_edid_for_resolution (float_casts P)
                  width height fps_hz in
              let edid_size :=
                if (1920 <? width) || (1080 <? height) then 256 else 128 in
              let s := emit (EvdiConnect h edid edid_size 0) s in
              let card_path := ("/dev/dri/card" ++ to_string device)%string in
              let fd := sys_open P (trace s) card_path in
              let s := emit (SysOpen card_path fd) s in
              ({| name := display_name; guid_str := guid_str;
                  width := width; height := height; fps := fps;
                  device_index := device; handle := h; drm_fd := fd;
                  active := true; using_evdi := true |}, s)
            else (vdinfo, s)
          else (vdinfo, s)
        else (vdinfo, s) in
      let s := set_virtual_displays
                 (StdMap.assign guid_str vdinfo (virtual_displays s)) s in
      (display_name, s)
  | _ => (EmptyString, s)
  end.

Definition removeVirtualDisplay (guid : uuid_util.uuid_t) (s : state)
    : bool * state :=
  let guid_str := uuid_util.string guid in
  match StdMap.find guid_str (virtual_displays s) with
  | None => (false, s)
  | Some vdinfo =>
      let s := release_record false vdinfo s in
      (true, set_virtual_displays
               (StdMap.erase guid_str (virtual_displays s)) s)
  end.

(** The loop of [changeDisplaySettings] over the records, in key order:
    the first record whose name is [deviceName] is rewritten in place,
    and reconnected when it is hardware-backed.  The flag tells whether
    a record was found.  [width], [height] and [refresh_rate] are [int];
    the stores into the [uint32_t] fields and the call of the synthesizer
    convert them, the test that picks the payload length does not. *)
Fixpoint change_first (deviceName : string) (width height refresh_rate : Z)
    (records : StdMap.t VirtualDisplayInfo) (s : state)
    : bool * StdMap.t VirtualDisplayInfo * state :=
  match records with
  | [] => (false, [], s)
  | (guid, vdinfo) :: rest =>
      if String.eqb (name vdinfo) deviceName then
        let refresh_hz := Z.quot refresh_rate 1000 in
        let vdinfo' :=
          {| name := name vdinfo; guid_str := guid_str vdinfo;
             width := u32 width; height := u32 height; fps := u32 refresh_rate;
             device_index := device_index vdinfo; handle := handle vdinfo;
             drm_fd := drm_fd vdinfo; active := active vdinfo;
             using_evdi := using_evdi vdinfo |} in
        let s :=
          if using_evdi vdinfo && negb (handle vdinfo =? 0) then
            let s := emit (EvdiDisconnect (handle vdinfo)) s in
            let edid :=
              Edid.generate_edid_for_resolution (float_casts P)
                (u32 width) (u32 height) (u32 refresh_hz) in
            let edid_size :=
              if (1920 <? width) || (1080 <? height) then 256 else 128 in
            emit (EvdiConnect (handle vdinfo) edid edid_size 0) s
          else s in
        (true, (guid, vdinfo') :: rest, s)
      else
        let '(found, rest', s) :=
          change_first deviceName width height refresh_rate rest s in
        (found, (guid, vdinfo) :: rest', s)
  end.

Definition changeDisplaySettings (deviceName : string)
    (width height refresh_rate : Z) (s : state) : Z * state :=
  let '(_, records, s) :=
    change_first deviceName width height refresh_rate (virtual_displays s) s in
  (0, set_virtual_displays records s).

Definition changeDisplaySettings2 (deviceName : string)
    (width height refresh_rate : Z) (bApplyIsolated : bool) (s : state)
    : Z * state :=
  changeDisplaySettings deviceName width height refresh_rate s.

Definition getPrimaryDisplay (s : state) : string * state :=
  let connector := drm_first_connected P (trace s) in
  let s := emit (DrmFirstConnected connector) s in
  match connector with
  | Some id => (("HDMI-A-" ++ to_string id)%string, s)
  | None => (EmptyString, s)
  end.

Definition setPrimaryDisplay (primaryDeviceName : string) (s : state)
    : bool * state := (true, s).

Definition getDisplayHDRByName (displayName : string) (s : state)
    : bool * state := (false, s).

Definition setDisplayHDRByName (displayName : string)
    (enableAdvancedColor : bool) (s : state) : bool * state := (false, s).

Definition matchDisplay (sMatch : string) (s : state) : list string * state :=
  (map (fun e => name (snd e))
     (filter (fun e => active (snd e) && contains sMatch (name (snd e)))
             (virtual_displays s)), s).

Definition isEvdiDisplay (displayName : string) (s : state) : bool * state :=
  if negb (evdi_available s) then (false, s)
  else
    (existsb (fun e => String.eqb (name (snd e)) displayName
                       && using_evdi (snd e)) (virtual_displays s), s).

Definition getEvdiCardIndex (displayName : string) (s : state) : Z * state :=
  match List.find (fun e => String.eqb (name (snd e)) displayName
                            && using_evdi (snd e)) (virtual_displays s) with
  | Some e => (device_index (snd e), s)
  | None => (-1, s)
  end.

(** *** The driver as a transition system *)

(** What can happen next: a caller enters one of the public functions, or
    the watchdog thread moves. *)
Inductive action : Type :=
| CallOpen
| CallClose
| CallStartPing (cb : option nat)
| CallSetRenderAdapter (adapterName : string)
| CallCreate (s_client_uid s_client_name : string) (width height fps : Z)
             (guid : uuid_util.uuid_t)
| CallRemove (guid : uuid_util.uuid_t)
| CallChange (deviceName : string) (width height refresh_rate : Z)
| CallChange2 (deviceName : string) (width height refresh_rate : Z)
              (bApplyIsolated : bool)
| CallGetPrimary
| CallSetPrimary (primaryDeviceName : string)
| CallGetHDR (displayName : string)
| CallSetHDR (displayName : string) (enableAdvancedColor : bool)
| CallMatch (sMatch : string)
| CallIsEvdi (displayName : string)
| CallCardIndex (displayName : string)
| WatchdogMoves.

Definition state_of {A : Type} (r : result A) : option state :=
  match r with
  | Returns _ s => Some s
  | _ => None
  end.

(** The state after an action; [None] when the call never returns.  A call
    of [openVDisplayDevice] that is left by an exception leaves the state
    it had reached, and whoever catches the exception goes on from there. *)
Definition step (a : action) (s : state) : option state :=
  match a with
  | CallOpen => Some (snd (openVDisplayDevice s))
  | CallClose => state_of (closeVDisplayDevice s)
  | CallStartPing cb => state_of (startPingThread cb s)
  | CallSetRenderAdapter n => Some (snd (setRenderAdapterByName n s))
  | CallCreate uid cname w h f g =>
      Some (snd (createVirtualDisplay uid cname w h f g s))
  | CallRemove g => Some (snd (removeVirtualDisplay g s))
  | CallChange n w h r => Some (snd (changeDisplaySettings n w h r s))
  | CallChange2 n w h r b => Some (snd (changeDisplaySettings2 n w h r b s))
  | CallGetPrimary => Some (snd (getPrimaryDisplay s))
  | CallSetPrimary n => Some (snd (setPrimaryDisplay n s))
  | CallGetHDR n => Some (snd (getDisplayHDRByName n s))
  | CallSetHDR n b => Some (snd (setDisplayHDRByName n b s))
  | CallMatch m => Some (snd (matchDisplay m s))
  | CallIsEvdi n => Some (snd (isEvdiDisplay n s))
  | CallCardIndex n => Some (snd (getEvdiCardIndex n s))
  | WatchdogMoves => Some (watchdog_step s)
  end.

(** Run a schedule of actions from left to right. *)
Fixpoint run (schedule : list action) (s : state) : option state :=
  match schedule with
  | [] => Some s
  | a :: rest =>
      match step a s with
      | Some s' => run rest s'
      | None => None
      end
  end.

End WithPlatform.

(** *** Properties of states used by the statements *)

Definition set_trace (tr : list event) (s : state) : state :=
  {| driver_status := driver_status s; watchdog_running := watchdog_running s;
     watchdog_thread := watchdog_thread s; evdi_available := evdi_available s;
     evdi_lib_handle := evdi_lib_handle s; evdi_loaded := evdi_loaded s;
     virtual_displays := virtual_displays s; trace := tr |}.

(** The buffer and the declared length of every [evdi.connect] call. *)
Fixpoint connects (tr : list event) : list (list Z * Z) :=
  match tr with
  | [] => []
  | EvdiConnect _ edid edid_length _ :: rest => (edid, edid_length) :: connects rest
  | _ :: rest => connects rest
  end.

(** The calls made since [before], newest first. *)
Definition new_events (before after : state) : list event :=
  firstn (List.length (trace after) - List.length (trace before)) (trace after).

Definition is_FailCb (e : event) : bool :=
  match e with FailCb _ => true | _ => false end.

Definition is_ThreadSpawn (e : event) : bool :=
  match e with ThreadSpawn => true | _ => false end.

(** A call that gives up a hardware handle or a descriptor. *)
Definition is_release (e : event) : bool :=
  match e with
  | EvdiDisconnect _ | EvdiClose _ | SysClose _ => true
  | _ => false
  end.

Definition is_acquire (e : event) : bool :=
  match e with
  | Dlopen _ _ | Dlsym _ _ _ | EvdiOpen _ _ | SysOpen _ _ => true
  | _ => false
  end.

(** The events of the current watchdog session: everything after the most
    recent [ThreadSpawn]. *)
Fixpoint session_events (tr : list event) : list event :=
  match tr with
  | [] => []
  | ThreadSpawn :: _ => []
  | e :: rest => e :: session_events rest
  end.

Definition count_FailCb (tr : list event) : nat :=
  List.length (filter is_FailCb tr).

(** The two calls of the slot search. *)
Definition is_probe (e : event) : bool :=
  match e with
  | EvdiCheckDevice _ _ | EvdiAddDevice _ => true
  | _ => false
  end.

(** A call that neither starts a watchdog session nor reports a failure. *)
Definition quiet (e : event) : bool :=
  negb (is_FailCb e) && negb (is_ThreadSpawn e).

(** [s'] is [s] after the calls [new], newest first, and nothing else. *)
Definition after_calls (new : list event) (s s' : state) : Prop :=
  s' = set_trace (new ++ trace s) s.

(** The registry holds an active, hardware-backed record with handle [h]. *)
Definition hardware_record (h : Z) (m : StdMap.t VirtualDisplayInfo) : Prop :=
  exists e, In e m /\ handle (snd e) = h /\ h <> 0 /\
            active (snd e) = true /\ using_evdi (snd e) = true.

(** A liveness query of the watchdog. *)
Definition is_query (e : event) : bool :=
  match e with EvdiGetEventReady _ _ => true | _ => false end.

(** From [s] to [s'] the watchdog flag, the thread object and the registry
    stayed as they were and only [quiet] calls were made. *)
Definition background (s s' : state) : Prop :=
  watchdog_running s' = watchdog_running s /\
  watchdog_thread s' = watchdog_thread s /\
  virtual_displays s' = virtual_displays s /\
  exists new, trace s' = new ++ trace s /\ forallb quiet new = true.

(** The watchdog thread exists and has not returned. *)
Definition thread_live (s : state) : bool :=
  match watchdog_thread s with
  | Some t => match pc t with Returned => false | _ => true end
  | None => false
  end.

(** What holds of the watchdog in every state the driver can reach: at most
    one failure report per session, none while the thread is still
    running, and a thread object only while the flag is set. *)
Definition session_ok (s : state) : Prop :=
  (count_FailCb (session_events (trace s)) <= 1)%nat /\
  (thread_live s = true -> count_FailCb (session_events (trace s)) = 0%nat) /\
  (watchdog_thread s <> None -> watchdog_running s = true).

(** The invariant of [VirtualDisplayInfo] on one record. *)
Definition record_ok (vdinfo : VirtualDisplayInfo) : Prop :=
  (using_evdi vdinfo = true -> handle vdinfo <> 0 /\ 0 <= device_index vdinfo) /\
  (using_evdi vdinfo = false -> handle vdinfo = 0 /\ device_index vdinfo = -1).

Definition registry_ok (m : StdMap.t VirtualDisplayInfo) : Prop :=
  Forall (fun e => record_ok (snd e)) m.

(** The state a schedule leads to from the initial state (the initial
    state itself when some call of the schedule never returns). *)
Definition state_after (P : Platform) (schedule : list action) : state :=
  match run P schedule initial_state with
  | Some s => s
  | None => initial_state
  end.

(** *** Sample hosts *)

(** A host without libevdi: no library name opens and the module is not
    listed. *)
Definition host_without_evdi : Platform :=
  {| dlopen := fun _ _ => 0;
     dlsym := fun _ _ _ => 0;
     proc_modules := fun _ => ["snd_hda_intel 61440 3 - Live"; "drm 741376 9 - Live"]%string;
     sys_module_evdi := fun _ => Some false;
     evdi_check_device := fun _ _ => EVDI_UNRECOGNIZED;
     evdi_add_device := fun _ => -1;
     evdi_open := fun _ _ => 0;
     evdi_get_event_ready := fun _ _ => 0;
     sys_open := fun _ _ => -1;
     drm_first_connected := fun _ => Some 1;
     float_casts := Binary64.casts |}.

(** A host with EVDI installed: slot 0 does not exist yet and is added as
    device 1, every open succeeds, and the device reports a negative
    liveness to the first query made after it was connected twice. *)
Definition host_with_evdi : Platform :=
  {| dlopen := fun _ lib_name =>
       if String.eqb lib_name "libevdi.so" then 4096 else 0;
     dlsym := fun _ _ _ => 8192;
     proc_modules := fun _ => ["drm 741376 9 - Live"; "evdi 86016 0 - Live"]%string;
     sys_module_evdi := fun _ => Some true;
     evdi_check_device := fun _ _ => EVDI_NOT_PRESENT;
     evdi_add_device := fun _ => 1;
     evdi_open := fun _ device => 7000 + device;
     evdi_get_event_ready := fun tr _ =>
       if (2 <=? List.length (connects tr))%nat then -1 else 0;
     sys_open := fun _ _ => 5;
     drm_first_connected := fun _ => None;
     float_casts := Binary64.casts |}.

(** A host on which libevdi loads, /proc/modules does not list the module
    and the status of /sys/module/evdi cannot be determined. *)
Definition host_with_failing_sysfs : Platform :=
  {| dlopen := fun _ lib_name =>
       if String.eqb lib_name "libevdi.so" then 4096 else 0;
     dlsym := fun _ _ _ => 8192;
     proc_modules := fun _ => ["drm 741376 9 - Live"]%string;
     sys_module_evdi := fun _ => None;
     evdi_check_device := fun _ _ => EVDI_NOT_PRESENT;
     evdi_add_device := fun _ => 1;
     evdi_open := fun _ device => 7000 + device;
     evdi_get_event_ready := fun _ _ => 0;
     sys_open := fun _ _ => 5;
     drm_first_connected := fun _ => None;
     float_casts := Binary64.casts |}.

Definition sample_guid : uuid_util.uuid_t :=
  {| uuid_util.string := "3f2a9c1e-7b44-4d0a-9e56-0c1d2e3f4a5b" |}.

Definition other_guid : uuid_util.uuid_t :=
  {| uuid_util.string := "a0b1c2d3-0000-4000-8000-000000000001" |}.

(** A session on the second host: a display is created, the watchdog is
    started and survives one scan, the display is reconfigured, and the
    watchdog comes back to the point where it takes the mutex. *)
Definition session_schedule : list action :=
  [ CallOpen;
    CallCreate "c1" "Test" 2560 1440 60000 sample_guid;
    CallStartPing (Some 0%nat);
    WatchdogMoves; WatchdogMoves; WatchdogMoves;
    CallChange "VIRTUAL-3f2a9c1e" 1920 1080 60000;
    WatchdogMoves; WatchdogMoves ].

(** *** Further vocabulary *)

Definition is_check (e : event) : bool :=
  match e with EvdiCheckDevice _ _ => true | _ => false end.

Definition is_add (e : event) : bool :=
  match e with EvdiAddDevice _ => true | _ => false end.

Definition is_dlopen (e : event) : bool :=
  match e with Dlopen _ _ => true | _ => false end.

Definition is_dlsym (e : event) : bool :=
  match e with Dlsym _ _ _ => true | _ => false end.

Definition is_sys_open (e : event) : bool :=
  match e with SysOpen _ _ => true | _ => false end.

(** A call through one of the pointers that [LOAD_EVDI_FUNC] resolved,
    other than the version query made by the loader itself. *)
Definition is_evdi_call (e : event) : bool :=
  match e with
  | EvdiCheckDevice _ _ | EvdiAddDevice _ | EvdiOpen _ _ | EvdiClose _
  | EvdiConnect _ _ _ _ | EvdiDisconnect _ | EvdiGetEventReady _ _ => true
  | _ => false
  end.

(** The calls [release_record] makes for a record, newest first: the
    descriptor is closed after the handle was disconnected and closed. *)
Definition release_calls (vdinfo : VirtualDisplayInfo) : list event :=
  (if 0 <=? drm_fd vdinfo then [SysClose (drm_fd vdinfo)] else [])
  ++ (if using_evdi vdinfo && negb (handle vdinfo =? 0)
      then [EvdiClose (handle vdinfo); EvdiDisconnect (handle vdinfo)]
      else []).

(** The record [vdinfo] with the geometry that [changeDisplaySettings]
    stores into it. *)
Definition with_geometry (w h r : Z) (vdinfo : VirtualDisplayInfo)
    : VirtualDisplayInfo :=
  {| name := name vdinfo; guid_str := guid_str vdinfo;
     width := u32 w; height := u32 h; fps := u32 r;
     device_index := device_index vdinfo; handle := handle vdinfo;
     drm_fd := drm_fd vdinfo; active := active vdinfo;
     using_evdi := using_evdi vdinfo |}.

(** How the driver state, the hardware mode, the loader and the registry
    hang together in every state the driver reaches. *)
Definition binding_ok (s : state) : Prop :=
  (driver_status s <> OK -> virtual_displays s = []) /\
  (driver_status s = OK -> evdi_available s = true -> evdi_loaded s = true) /\
  (evdi_loaded s = true -> evdi_lib_handle s <> 0) /\
  (Exists (fun e => using_evdi (snd e) = true) (virtual_displays s) ->
   driver_status s = OK /\ evdi_available s = true).

(** A call made while the driver is opened: the dynamic loader, the module
    check, and the version query of the loader. *)
Definition is_loader_call (e : event) : bool :=
  match e with
  | Dlopen _ _ | Dlerror | Dlsym _ _ _ | Dlclose _ | ReadProcModules
  | ExistsSysModuleEvdi _ | EvdiGetLibVersion => true
  | _ => false
  end.

(** From [s] to [s'] only calls accepted by [Q] were made. *)
Definition calls_within (Q : event -> bool) (s s' : state) : Prop :=
  exists new, trace s' = new ++ trace s /\ forallb Q new = true.

End VDISPLAY.

(** * Properties *)

(** ** Stores into the buffer *)

Section StoreFacts.
Import Edid.

Lemma length_store (i : nat) (v : Z) (buf : list Z) :
  List.length (store i v buf) = List.length buf.
Proof.
  revert i; induction buf as [|b tl IH]; intros [|j]; simpl; auto.
Qed.

Lemma firstn_store_ge (n i : nat) (v : Z) (buf : list Z) :
  (n <= i)%nat -> firstn n (store i v buf) = firstn n buf.
Proof.
  revert n i; induction buf as [|b tl IH]; intros n i Hle.
  - destruct i; reflexivity.
  - destruct n as [|n]; [reflexivity|].
    destruct i as [|j]; [lia|].
    simpl. f_equal. apply IH. lia.
Qed.

Lemma skipn_store_lt (n i : nat) (v : Z) (buf : list Z) :
  (i < n)%nat -> skipn n (store i v buf) = skipn n buf.
Proof.
  revert n i; induction buf as [|b tl IH]; intros n i Hlt.
  - destruct i; reflexivity.
  - destruct n as [|n]; [lia|].
    destruct i as [|j]; simpl; [reflexivity|].
    apply IH. lia.
Qed.

Lemma skipn_store_ge (a i : nat) (v : Z) (buf : list Z) :
  skipn a (store (a + i) v buf) = store i v (skipn a buf).
Proof.
  revert buf; induction a as [|a IH]; intros buf; [reflexivity|].
  destruct buf as [|b tl]; simpl.
  - destruct i; reflexivity.
  - apply IH.
Qed.

Lemma firstn_store_last (i : nat) (v : Z) (buf : list Z) :
  (i < List.length buf)%nat ->
  firstn (S i) (store i v buf) = firstn i buf ++ [u8 v].
Proof.
  revert buf; induction i as [|i IH]; intros [|b tl] Hlt; simpl in *; try lia.
  - reflexivity.
  - f_equal. apply IH. lia.
Qed.

Lemma Forall_store (Q : Z -> Prop) (i : nat) (v : Z) (buf : list Z) :
  Q (u8 v) -> Forall Q buf -> Forall Q (store i v buf).
Proof.
  intros Hv; revert i; induction buf as [|b tl IH]; intros i Hall.
  - destruct i; constructor.
  - inversion Hall; subst. destruct i; simpl; constructor; auto.
Qed.

Lemma length_store_bytes (off : nat) (vs buf : list Z) :
  List.length (store_bytes off vs buf) = List.length buf.
Proof.
  revert off buf; induction vs as [|x vs IH]; intros; simpl; [reflexivity|].
  rewrite IH. apply length_store.
Qed.

Lemma firstn_store_bytes_ge (n off : nat) (vs buf : list Z) :
  (n <= off)%nat -> firstn n (store_bytes off vs buf) = firstn n buf.
Proof.
  revert off buf; induction vs as [|x vs IH]; intros off buf Hle; simpl;
    [reflexivity|].
  rewrite IH by lia. apply firstn_store_ge; lia.
Qed.

Lemma skipn_store_bytes_lt (n off : nat) (vs buf : list Z) :
  (off + List.length vs <= n)%nat ->
  skipn n (store_bytes off vs buf) = skipn n buf.
Proof.
  revert off buf; induction vs as [|x vs IH]; intros off buf Hle; simpl in *;
    [reflexivity|].
  rewrite IH by lia. apply skipn_store_lt; lia.
Qed.

Lemma Forall_store_bytes (Q : Z -> Prop) (off : nat) (vs buf : list Z) :
  (forall v, Q (u8 v)) -> Forall Q buf -> Forall Q (store_bytes off vs buf).
Proof.
  intros Hv; revert off buf; induction vs as [|x vs IH]; intros; simpl; auto.
  apply IH. apply Forall_store; auto.
Qed.

Lemma length_dtd fc off w h r buf :
  List.length (create_detailed_timing_descriptor fc off w h r buf)
  = List.length buf.
Proof.
  unfold create_detailed_timing_descriptor; cbv zeta.
  repeat rewrite length_store. reflexivity.
Qed.

Lemma firstn_dtd_ge n fc off w h r buf :
  (n <= off)%nat ->
  firstn n (create_detailed_timing_descriptor fc off w h r buf) = firstn n buf.
Proof.
  intros Hle. unfold create_detailed_timing_descriptor; cbv zeta.
  repeat rewrite firstn_store_ge by lia. reflexivity.
Qed.

Lemma skipn_dtd_lt n fc off w h r buf :
  (off + 18 <= n)%nat ->
  skipn n (create_detailed_timing_descriptor fc off w h r buf) = skipn n buf.
Proof.
  intros Hle. unfold create_detailed_timing_descriptor; cbv zeta.
  repeat rewrite skipn_store_lt by lia. reflexivity.
Qed.

Lemma Forall_dtd (Q : Z -> Prop) fc off w h r buf :
  (forall v, Q (u8 v)) -> Forall Q buf ->
  Forall Q (create_detailed_timing_descriptor fc off w h r buf).
Proof.
  intros Hv Hall. unfold create_detailed_timing_descriptor; cbv zeta.
  repeat apply Forall_store; auto.
Qed.

Lemma length_checksum off bs buf :
  List.length (calculate_edid_checksum off bs buf) = List.length buf.
Proof. unfold calculate_edid_checksum. apply length_store. Qed.

Lemma firstn_checksum_ge n off bs buf :
  (n <= off + (bs - 1))%nat ->
  firstn n (calculate_edid_checksum off bs buf) = firstn n buf.
Proof. intros; unfold calculate_edid_checksum. apply firstn_store_ge; lia. Qed.

Lemma skipn_checksum_lt n off bs buf :
  (off + (bs - 1) < n)%nat ->
  skipn n (calculate_edid_checksum off bs buf) = skipn n buf.
Proof. intros; unfold calculate_edid_checksum. apply skipn_store_lt; lia. Qed.

Lemma Forall_checksum (Q : Z -> Prop) off bs buf :
  (forall v, Q (u8 v)) -> Forall Q buf ->
  Forall Q (calculate_edid_checksum off bs buf).
Proof. intros; unfold calculate_edid_checksum. apply Forall_store; auto. Qed.

(** *** The checksum of one block *)

Lemma sum_bytes_app (l1 l2 : list Z) :
  sum_bytes (l1 ++ l2) = sum_bytes l1 + sum_bytes l2.
Proof.
  unfold sum_bytes; induction l1 as [|x l1 IH]; simpl; [reflexivity|].
  rewrite IH. lia.
Qed.

Lemma firstn_S_nth (n : nat) (l : list Z) :
  (n < List.length l)%nat -> firstn (S n) l = firstn n l ++ [nth n l 0].
Proof.
  revert l; induction n as [|n IH]; intros [|x l] Hlt; simpl in *; try lia.
  - reflexivity.
  - f_equal. apply IH. lia.
Qed.

Lemma nth_skipn_add (off i : nat) (l : list Z) :
  nth i (skipn off l) 0 = nth (off + i) l 0.
Proof.
  revert l; induction off as [|off IH]; intros l; [reflexivity|].
  destruct l as [|x l]; simpl.
  - destruct i; reflexivity.
  - apply IH.
Qed.

Lemma u8_add_idemp (a b : Z) : u8 (u8 a + b) = u8 (a + b).
Proof. unfold u8. apply Z.add_mod_idemp_l. lia. Qed.

(** The [uint8_t] accumulator of the loop is the sum of the bytes read,
    modulo 256. *)
Lemma checksum_loop (edid : list Z) (off n : nat) :
  (off + n <= List.length edid)%nat ->
  fold_left (fun c i => u8 (c + load (off + i) edid)) (seq 0 n) 0
  = u8 (sum_bytes (firstn n (skipn off edid))).
Proof.
  induction n as [|n IH]; intros Hlen; [reflexivity|].
  rewrite seq_S, fold_left_app, IH by lia.
  rewrite firstn_S_nth by (rewrite length_skipn; lia).
  rewrite sum_bytes_app. unfold load. rewrite nth_skipn_add.
  cbn [fold_left Nat.add]. rewrite u8_add_idemp.
  f_equal. unfold sum_bytes; simpl. lia.
Qed.

Lemma checksummed_intro (front : list Z) :
  List.length front = 127%nat ->
  checksummed (front ++ [u8 (256 - u8 (sum_bytes front))]).
Proof.
  intros Hlen. unfold checksummed.
  rewrite length_app, Hlen. split; [reflexivity|]. split.
  - assert (Hfront : firstn 127 (front ++ [u8 (256 - u8 (sum_bytes front))])
                     = front).
    { rewrite firstn_app, Hlen, Nat.sub_diag, firstn_O, app_nil_r.
      rewrite <- Hlen. apply firstn_all. }
    rewrite Hfront, app_nth2 by lia.
    rewrite Hlen, Nat.sub_diag. reflexivity.
  - rewrite sum_bytes_app. unfold sum_bytes at 2. cbn [fold_right].
    unfold u8. Z.div_mod_to_equations. lia.
Qed.

Lemma checksum_block (off : nat) (edid : list Z) :
  (off + 128 <= List.length edid)%nat ->
  checksummed (block off (calculate_edid_checksum off 128 edid)).
Proof.
  intros Hlen. unfold block, calculate_edid_checksum.
  rewrite checksum_loop by (simpl; lia).
  rewrite skipn_store_ge.
  change (128 - 1)%nat with 127%nat.
  rewrite firstn_store_last by (rewrite length_skipn; lia).
  apply checksummed_intro.
  rewrite length_firstn, length_skipn. lia.
Qed.

Lemma checksummed_zero : checksummed (repeat 0 128).
Proof. unfold checksummed. repeat split. Qed.

End StoreFacts.

Ltac edid_length :=
  repeat first
    [ rewrite length_checksum | rewrite length_dtd
    | rewrite length_store_bytes | rewrite length_store ].

Lemma u8_range (v : Z) : 0 <= u8 v < 256.
Proof. unfold u8. apply Z.mod_pos_bound. lia. Qed.

Lemma generate_edid_length fc width height refresh_rate :
  List.length (Edid.generate_edid_for_resolution fc width height refresh_rate)
  = 256%nat.
Proof.
  unfold Edid.generate_edid_for_resolution; cbv zeta.
  destruct (Edid.needs_extension width height);
    [destruct (3840 <=? width)|];
    edid_length; reflexivity.
Qed.

Lemma generate_edid_bytes fc width height refresh_rate :
  Forall (fun b => 0 <= b < 256)
    (Edid.generate_edid_for_resolution fc width height refresh_rate).
Proof.
  assert (Hz : Forall (fun b => 0 <= b < 256) Edid.zeroed).
  { unfold Edid.zeroed. apply Forall_forall. intros b Hb.
    apply repeat_spec in Hb. subst. lia. }
  unfold Edid.generate_edid_for_resolution; cbv zeta.
  destruct (Edid.needs_extension width height);
    [destruct (3840 <=? width)|];
    repeat first
      [ apply Forall_checksum; [exact u8_range|]
      | apply Forall_dtd; [exact u8_range|]
      | apply Forall_store_bytes; [exact u8_range|]
      | apply Forall_store; [apply u8_range|] ];
    exact Hz.
Qed.

(** The first block is final once its checksum is stored: everything the
    synthesizer writes afterwards lies in the second half of the buffer. *)
Ltac later_stores_keep_block0 :=
  repeat first
    [ rewrite firstn_checksum_ge by (simpl; lia)
    | rewrite firstn_dtd_ge by (simpl; lia)
    | rewrite firstn_store_bytes_ge by (simpl; lia)
    | rewrite firstn_store_ge by (simpl; lia) ].

(** Nothing written for the base block reaches the second half. *)
Ltac base_stores_skip_block1 :=
  repeat first
    [ rewrite skipn_checksum_lt by (simpl; lia)
    | rewrite skipn_dtd_lt by (simpl; lia)
    | rewrite skipn_store_bytes_lt by (simpl; lia)
    | rewrite skipn_store_lt by (simpl; lia) ].

Lemma generate_edid_block0 fc width height refresh_rate :
  Edid.checksummed
    (Edid.block 0 (Edid.generate_edid_for_resolution fc width height refresh_rate)).
Proof.
  unfold Edid.generate_edid_for_resolution; cbv zeta.
  destruct (Edid.needs_extension width height);
    [destruct (3840 <=? width)|].
  1,2: unfold Edid.block at 1; cbn [skipn];
       rewrite firstn_checksum_ge by (simpl; lia);
       try rewrite firstn_dtd_ge by (simpl; lia);
       do 3 rewrite firstn_store_bytes_ge by (simpl; lia).
  all: match goal with
       | |- Edid.checksummed (firstn 128 ?b) =>
           change (firstn 128 b) with (Edid.block 0 b)
       | _ => idtac
       end;
       apply checksum_block; edid_length; simpl; lia.
Qed.

Lemma generate_edid_block1 fc width height refresh_rate :
  Edid.checksummed
    (Edid.block 128 (Edid.generate_edid_for_resolution fc width height refresh_rate)).
Proof.
  unfold Edid.generate_edid_for_resolution; cbv zeta.
  destruct (Edid.needs_extension width height);
    [destruct (3840 <=? width)|].
  1,2: apply checksum_block; edid_length; simpl; lia.
  unfold Edid.block. base_stores_skip_block1.
  exact checksummed_zero.
Qed.

(** ** The EDID synthesizer *)

(** C1. For every width, height and refresh rate the buffer that
    [generate_edid_for_resolution] returns holds 256 bytes, and in each of
    its two 128-byte blocks the last byte is the two's complement of the sum
    of the other 127, so that the block adds up to 0 modulo 256.  This holds
    for the base block always, and for the second block both when the CEA
    extension is written (width > 1920 or height > 1080) and when it is
    left as zeros. *)
Theorem edid_blocks_checksummed :
  forall (fc : Edid.FloatCasts) (width height refresh_rate : Z),
    let edid := Edid.generate_edid_for_resolution fc width height refresh_rate in
    List.length edid = 256%nat /\
    Forall (fun b => 0 <= b < 256) edid /\
    Edid.checksummed (Edid.block 0 edid) /\
    Edid.checksummed (Edid.block 128 edid).
Proof.
  intros fc width height refresh_rate edid. subst edid.
  split; [apply generate_edid_length|].
  split; [apply generate_edid_bytes|].
  split; [apply generate_edid_block0 | apply generate_edid_block1].
Qed.

Lemma load_firstn (i n : nat) (buf : list Z) :
  (i < n)%nat -> Edid.load i buf = nth i (firstn n buf) 0.
Proof.
  unfold Edid.load. revert i buf; induction n as [|n IH]; intros i buf Hlt; [lia|].
  destruct buf as [|b tl]; [destruct i; reflexivity|].
  destruct i as [|i]; [reflexivity|]. simpl. apply IH. lia.
Qed.

Lemma nth_firstn_store (i n : nat) (v : Z) (buf : list Z) :
  (i < n)%nat -> (i < List.length buf)%nat ->
  nth i (firstn n (Edid.store i v buf)) 0 = u8 v.
Proof.
  revert n buf; induction i as [|i IH]; intros [|n] [|b tl] Hn Hlen;
    simpl in *; try lia; try reflexivity.
  apply IH; lia.
Qed.

(** Byte 126, the extension flag, is 1 exactly when the extension block is
    written. *)
Lemma generate_edid_flag fc width height refresh_rate :
  Edid.load 126 (Edid.generate_edid_for_resolution fc width height refresh_rate)
  = if Edid.needs_extension width height then 1 else 0.
Proof.
  rewrite (load_firstn 126 127) by lia.
  unfold Edid.generate_edid_for_resolution; cbv zeta.
  destruct (Edid.needs_extension width height);
    [destruct (3840 <=? width)|];
    later_stores_keep_block0;
    (rewrite nth_firstn_store; [reflexivity | lia | edid_length; simpl; lia]).
Qed.

(** Without the extension the second half of the buffer is as [memset]
    left it. *)
Lemma generate_edid_tail fc width height refresh_rate :
  Edid.needs_extension width height = false ->
  skipn 128 (Edid.generate_edid_for_resolution fc width height refresh_rate)
  = repeat 0 128.
Proof.
  intros Hext. unfold Edid.generate_edid_for_resolution; cbv zeta.
  rewrite Hext. base_stores_skip_block1. reflexivity.
Qed.

(** With the extension the second block opens with the CEA tag. *)
Lemma generate_edid_cea_tag fc width height refresh_rate :
  Edid.needs_extension width height = true ->
  Edid.load 128 (Edid.generate_edid_for_resolution fc width height refresh_rate)
  = 2.
Proof.
  intros Hext. rewrite (load_firstn 128 129) by lia.
  unfold Edid.generate_edid_for_resolution; cbv zeta. rewrite Hext.
  destruct (3840 <=? width);
    later_stores_keep_block0;
    cbn [Edid.store_bytes];
    later_stores_keep_block0;
    (rewrite nth_firstn_store; [reflexivity | lia | edid_length; simpl; lia]).
Qed.

(** ** The ordered map *)


Section StdMapFacts.
Variable V : Type.
Implicit Types (k : string) (v : V) (m : StdMap.t V).

Lemma compare_refl k : String.compare k k = Eq.
Proof.
  pose proof (String.compare_antisym k k) as H.
  destruct (String.compare k k); simpl in H; congruence.
Qed.

Lemma compare_Eq_eqb k k' :
  String.compare k k' = Eq -> String.eqb k k' = true.
Proof. intros H. apply String.compare_eq_iff in H. subst. apply String.eqb_refl. Qed.

Lemma compare_ne_eqb k k' :
  String.compare k k' <> Eq -> String.eqb k k' = false.
Proof.
  intros H. apply String.eqb_neq. intros ->. apply H, compare_refl.
Qed.

Lemma compare_as_OT (a b : string) :
  String.compare a b = String_as_OT.compare a b.
Proof.
  revert b; induction a as [|c a IH]; intros [|d b]; simpl; reflexivity.
Qed.

Lemma ltb_trans (a b c : string) :
  String.ltb a b = true -> String.ltb b c = true -> String.ltb a c = true.
Proof.
  unfold String.ltb. intros H1 H2.
  destruct (String.compare a b) eqn:Hab; try discriminate.
  destruct (String.compare b c) eqn:Hbc; try discriminate.
  rewrite compare_as_OT in Hab, Hbc.
  pose proof (@StrictOrder_Transitive _ _ String_as_OT.lt_strorder a b c Hab Hbc)
    as Hac.
  unfold String_as_OT.lt in Hac. rewrite <- compare_as_OT in Hac.
  rewrite Hac. reflexivity.
Qed.

Lemma ltb_eqb_false k k' : String.ltb k k' = true -> String.eqb k k' = false.
Proof.
  unfold String.ltb. intros H. apply compare_ne_eqb.
  destruct (String.compare k k'); congruence.
Qed.

Lemma ascending_cons k v m :
  StdMap.ascending ((k, v) :: m) = true <->
  Forall (fun e => String.ltb k (fst e) = true) m /\ StdMap.ascending m = true.
Proof.
  revert k v; induction m as [|[k' v'] rest IH]; intros k v.
  - simpl. split; auto.
  - change (StdMap.ascending ((k, v) :: (k', v') :: rest))
      with (String.ltb k k' && StdMap.ascending ((k', v') :: rest)).
    rewrite andb_true_iff. split.
    + intros [Hlt Hasc]. split; [|exact Hasc].
      constructor; [exact Hlt|].
      apply IH in Hasc. destruct Hasc as [Hall _].
      eapply Forall_impl; [|exact Hall].
      intros e He. simpl in *. eapply ltb_trans; eauto.
    + intros [Hall Hasc]. inversion Hall; subst. auto.
Qed.

Lemma find_assign k v m : StdMap.find k (StdMap.assign k v m) = Some v.
Proof.
  induction m as [|[k' v'] rest IH]; simpl.
  - rewrite String.eqb_refl. reflexivity.
  - destruct (String.compare k k') eqn:E; simpl.
    + rewrite String.eqb_refl. reflexivity.
    + rewrite String.eqb_refl. reflexivity.
    + rewrite compare_ne_eqb by congruence. exact IH.
Qed.

Lemma find_assign_other k k0 v m :
  k0 <> k -> StdMap.find k0 (StdMap.assign k v m) = StdMap.find k0 m.
Proof.
  intros Hne. apply String.eqb_neq in Hne.
  induction m as [|[k' v'] rest IH]; simpl.
  - rewrite Hne. reflexivity.
  - destruct (String.compare k k') eqn:E; simpl.
    + apply String.compare_eq_iff in E. subst k'. rewrite Hne. reflexivity.
    + rewrite Hne. reflexivity.
    + rewrite IH. reflexivity.
Qed.

Lemma count_zero_below k m :
  Forall (fun e => String.ltb k (fst e) = true) m -> StdMap.count k m = 0%nat.
Proof.
  unfold StdMap.count. induction 1 as [|[k' v'] rest Hlt _ IH]; simpl in *.
  - reflexivity.
  - rewrite (ltb_eqb_false _ _ Hlt). exact IH.
Qed.

Lemma count_cons k k' v' m :
  StdMap.count k ((k', v') :: m)
  = ((if String.eqb k k' then 1 else 0) + StdMap.count k m)%nat.
Proof. unfold StdMap.count. simpl. destruct (String.eqb k k'); reflexivity. Qed.

Lemma Forall_below_trans k k' m :
  String.ltb k k' = true ->
  Forall (fun e => String.ltb k' (fst e) = true) m ->
  Forall (fun e => String.ltb k (fst e) = true) m.
Proof.
  intros Hlt Hall. eapply Forall_impl; [|exact Hall].
  intros e He. eapply ltb_trans; eauto.
Qed.

Lemma compare_Lt_ltb k k' : String.compare k k' = Lt -> String.ltb k k' = true.
Proof. unfold String.ltb. intros ->. reflexivity. Qed.

Lemma compare_Gt_ltb k k' : String.compare k k' = Gt -> String.ltb k' k = true.
Proof.
  unfold String.ltb. rewrite (String.compare_antisym k k').
  destruct (String.compare k' k); simpl; congruence.
Qed.

(** The entries of [assign k v m] are the new entry and entries of [m]. *)
Lemma assign_Forall (Q : string * V -> Prop) k v m :
  Q (k, v) -> Forall Q m -> Forall Q (StdMap.assign k v m).
Proof.
  intros Hq. induction 1 as [|[k' v'] rest Hh Ht IH]; simpl.
  - constructor; auto.
  - destruct (String.compare k k'); repeat constructor; auto.
Qed.

Lemma erase_Forall (Q : string * V -> Prop) k m :
  Forall Q m -> Forall Q (StdMap.erase k m).
Proof.
  induction 1 as [|[k' v'] rest Hh Ht IH]; simpl; [constructor|].
  destruct (String.eqb k k'); [assumption|constructor; assumption].
Qed.

Lemma ascending_assign k v m :
  StdMap.ascending m = true -> StdMap.ascending (StdMap.assign k v m) = true.
Proof.
  induction m as [|[k' v'] rest IH]; intros Hasc; [reflexivity|].
  cbn [StdMap.assign].
  destruct (String.compare k k') eqn:E.
  - apply String.compare_eq_iff in E. subst k'.
    apply ascending_cons in Hasc. apply ascending_cons. exact Hasc.
  - apply ascending_cons. split; [|exact Hasc].
    apply ascending_cons in Hasc. destruct Hasc as [Hall _].
    pose proof (compare_Lt_ltb _ _ E) as Hlt.
    constructor; [exact Hlt|].
    eapply Forall_below_trans; eauto.
  - apply ascending_cons in Hasc. destruct Hasc as [Hall Hasc].
    apply ascending_cons. split; [|auto].
    apply assign_Forall; [|exact Hall].
    simpl. apply compare_Gt_ltb. exact E.
Qed.

Lemma ascending_erase k m :
  StdMap.ascending m = true -> StdMap.ascending (StdMap.erase k m) = true.
Proof.
  induction m as [|[k' v'] rest IH]; intros Hasc; [reflexivity|].
  cbn [StdMap.erase]. apply ascending_cons in Hasc. destruct Hasc as [Hall Hasc].
  destruct (String.eqb k k'); [exact Hasc|].
  apply ascending_cons. split; [|auto].
  apply erase_Forall. exact Hall.
Qed.

Lemma count_assign k v m :
  StdMap.ascending m = true -> StdMap.count k (StdMap.assign k v m) = 1%nat.
Proof.
  induction m as [|[k' v'] rest IH]; intros Hasc; cbn [StdMap.assign].
  - rewrite count_cons, String.eqb_refl. reflexivity.
  - pose proof Hasc as Hasc'.
    apply ascending_cons in Hasc. destruct Hasc as [Hall Hasc].
    destruct (String.compare k k') eqn:E.
    + apply String.compare_eq_iff in E. subst k'.
      rewrite count_cons, String.eqb_refl, count_zero_below by exact Hall.
      reflexivity.
    + pose proof (compare_Lt_ltb _ _ E) as Hlt.
      rewrite count_cons, String.eqb_refl, count_zero_below; [reflexivity|].
      constructor; [exact Hlt|]. eapply Forall_below_trans; eauto.
    + rewrite count_cons, compare_ne_eqb by congruence.
      rewrite IH by exact Hasc. reflexivity.
Qed.

Lemma size_assign_present k v v0 m :
  StdMap.ascending m = true -> StdMap.find k m = Some v0 ->
  StdMap.size (StdMap.assign k v m) = StdMap.size m.
Proof.
  unfold StdMap.size.
  induction m as [|[k' v'] rest IH]; intros Hasc Hfind; [discriminate|].
  cbn [StdMap.assign StdMap.find] in *.
  apply ascending_cons in Hasc. destruct Hasc as [Hall Hasc].
  destruct (String.compare k k') eqn:E.
  - reflexivity.
  - exfalso.
    pose proof (compare_Lt_ltb _ _ E) as Hlt.
    rewrite (ltb_eqb_false _ _ Hlt) in Hfind.
    assert (Hnone : StdMap.find k rest = None).
    { clear -Hall Hlt. induction Hall as [|[k2 v2] r Hh _ IHr]; simpl; [reflexivity|].
      simpl in Hh. rewrite (ltb_eqb_false k k2); [exact IHr|].
      eapply ltb_trans; eauto. }
    congruence.
  - rewrite compare_ne_eqb in Hfind by congruence.
    simpl. f_equal. apply IH; assumption.
Qed.

Lemma size_assign_absent k v m :
  StdMap.find k m = None ->
  StdMap.size (StdMap.assign k v m) = S (StdMap.size m).
Proof.
  unfold StdMap.size.
  induction m as [|[k' v'] rest IH]; intros Hfind; [reflexivity|].
  cbn [StdMap.assign StdMap.find] in *.
  destruct (String.compare k k') eqn:E.
  - rewrite (compare_Eq_eqb _ _ E) in Hfind. discriminate.
  - reflexivity.
  - rewrite compare_ne_eqb in Hfind by congruence.
    simpl. f_equal. apply IH; assumption.
Qed.

End StdMapFacts.

(** ** The driver *)

Import VDISPLAY.

Lemma set_trace_same (s : state) : set_trace (trace s) s = s.
Proof. destruct s; reflexivity. Qed.

Lemma after_calls_refl (s : state) : after_calls [] s s.
Proof. unfold after_calls. simpl. symmetry. apply set_trace_same. Qed.

Lemma after_calls_emit (e : event) (s : state) : after_calls [e] s (emit e s).
Proof. reflexivity. Qed.

Lemma after_calls_trans (n1 n2 : list event) (s s1 s2 : state) :
  after_calls n1 s s1 -> after_calls n2 s1 s2 -> after_calls (n2 ++ n1) s s2.
Proof.
  unfold after_calls. intros -> ->. simpl. rewrite app_assoc. reflexivity.
Qed.

Lemma after_calls_step (e : event) (new : list event) (s s' : state) :
  after_calls new (emit e s) s' -> after_calls (new ++ [e]) s s'.
Proof. intros H. eapply after_calls_trans; [apply after_calls_emit|exact H]. Qed.

Lemma new_events_app (new : list event) (s s' : state) :
  trace s' = new ++ trace s -> new_events s s' = new.
Proof.
  unfold new_events. intros ->. rewrite length_app.
  replace (List.length new + List.length (trace s) - List.length (trace s))%nat
    with (List.length new + 0)%nat by lia.
  rewrite firstn_app_2. simpl. apply app_nil_r.
Qed.

Lemma new_events_after (new : list event) (s s' : state) :
  after_calls new s s' -> new_events s s' = new.
Proof. intros ->. apply new_events_app. reflexivity. Qed.

Lemma new_events_same (s : state) : new_events s s = [].
Proof. apply (new_events_app [] s s). reflexivity. Qed.

Lemma forallb_weaken {A : Type} (f g : A -> bool) (l : list A) :
  (forall x, f x = true -> g x = true) ->
  forallb f l = true -> forallb g l = true.
Proof.
  intros Hfg. induction l as [|x l IH]; simpl; [reflexivity|].
  rewrite !andb_true_iff. intros [Hx Hl]. auto.
Qed.

Lemma probe_quiet (e : event) : is_probe e = true -> quiet e = true.
Proof. destruct e; simpl; intros H; try reflexivity; discriminate H. Qed.

Lemma probe_not_release (e : event) :
  is_probe e = true -> negb (is_release e) = true.
Proof. destruct e; simpl; intros H; try reflexivity; discriminate H. Qed.

Lemma probes_no_connect (l : list event) :
  forallb is_probe l = true -> connects l = [].
Proof.
  induction l as [|e l IH]; simpl; [reflexivity|].
  rewrite andb_true_iff. intros [He Hl].
  destruct e; simpl in *; try discriminate; auto.
Qed.

Section DriverFacts.
Variable P : Platform.

Lemma find_from_calls (slots : list Z) (s : state) :
  exists new,
    after_calls new s (snd (find_available_evdi_device_from P slots s)) /\
    forallb is_probe new = true.
Proof.
  revert s; induction slots as [|i rest IH]; intros s; simpl.
  - exists []. split; [apply after_calls_refl|reflexivity].
  - destruct (evdi_check_device P (trace s) i) eqn:Hstatus.
    + exists [EvdiCheckDevice i EVDI_AVAILABLE]. split; reflexivity.
    + destruct (IH (emit (EvdiCheckDevice i EVDI_UNRECOGNIZED) s))
        as (new & Hnew & Hprobe).
      exists (new ++ [EvdiCheckDevice i EVDI_UNRECOGNIZED]). split.
      * apply after_calls_step. exact Hnew.
      * rewrite forallb_app, Hprobe. reflexivity.
    + match goal with
      | |- context [if 0 <=? ?r then _ else _] => set (result := r)
      end.
      destruct (0 <=? result).
      * exists [EvdiAddDevice result; EvdiCheckDevice i EVDI_NOT_PRESENT].
        split; reflexivity.
      * match goal with
        | |- context [find_available_evdi_device_from P rest ?s2] =>
            destruct (IH s2) as (new & Hnew & Hprobe)
        end.
        exists (new ++ [EvdiAddDevice result; EvdiCheckDevice i EVDI_NOT_PRESENT]).
        split.
        -- eapply after_calls_trans; [|exact Hnew]. reflexivity.
        -- rewrite forallb_app, Hprobe. reflexivity.
Qed.

(** A slot that the search returns is never negative unless it is the
    -1 of the exhausted loop. *)
Lemma find_from_slot (slots : list Z) (s : state) :
  Forall (fun i => 0 <= i) slots ->
  let d := fst (find_available_evdi_device_from P slots s) in
  d = -1 \/ 0 <= d.
Proof.
  revert s; induction slots as [|i rest IH]; intros s Hall; simpl.
  - left; reflexivity.
  - inversion Hall; subst.
    destruct (evdi_check_device P (trace s) i); simpl.
    + right; assumption.
    + apply IH; assumption.
    + destruct (0 <=? evdi_add_device P _) eqn:E; simpl.
      * right. apply Z.leb_le. exact E.
      * apply IH; assumption.
Qed.

(** What [createVirtualDisplay] does when the driver is ready: the record
    it stores and the calls it makes. *)
Lemma create_spec (uid cname : string) (w h f : Z) (guid : uuid_util.uuid_t)
    (s : state) :
  driver_status s = OK ->
  exists vd new,
    createVirtualDisplay P uid cname w h f guid s
    = (generate_display_name guid,
       set_virtual_displays
         (StdMap.assign (uuid_util.string guid) vd (virtual_displays s))
         (set_trace (new ++ trace s) s)) /\
    (name vd = generate_display_name guid /\
     guid_str vd = uuid_util.string guid /\
     width vd = w /\ height vd = h /\ fps vd = f /\ active vd = true) /\
    record_ok vd /\
    forallb quiet new = true /\
    forallb (fun e => negb (is_release e)) new = true /\
    Forall (fun c =>
              c = (Edid.generate_edid_for_resolution (float_casts P) w h (f / 1000),
                   if (1920 <? w) || (1080 <? h) then 256 else 128))
           (connects new) /\
    (evdi_available s = false ->
     new = [] /\ using_evdi vd = false /\ handle vd = 0 /\
     device_index vd = -1 /\ drm_fd vd = -1).
Proof.
  intros Hok. unfold createVirtualDisplay. rewrite Hok.
  destruct (evdi_available s) eqn:Hav.
  - unfold find_available_evdi_device.
    destruct (find_from_calls (map Z.of_nat (seq 0 16)) s)
      as (probes & Hcalls & Hprobes).
    pose proof (find_from_slot (map Z.of_nat (seq 0 16)) s) as Hslot.
    destruct (find_available_evdi_device_from P (map Z.of_nat (seq 0 16)) s)
      as [device s1].
    simpl in Hcalls, Hslot. unfold after_calls in Hcalls. subst s1.
    destruct (0 <=? device) eqn:Hdev.
    + set (s1 := set_trace (probes ++ trace s) s).
      set (hd := evdi_open P (trace s1) device).
      destruct (hd =? 0) eqn:Hnull; cbn [negb].
      * eexists. exists (EvdiOpen device hd :: probes).
        split; [reflexivity|].
        split; [repeat split|].
        split; [split; simpl; intros; [discriminate|auto]|].
        split; [simpl; eapply forallb_weaken; [exact probe_quiet|exact Hprobes]|].
        split; [simpl; eapply forallb_weaken; [exact probe_not_release|exact Hprobes]|].
        split; [simpl; rewrite probes_no_connect by exact Hprobes; constructor|].
        intros; discriminate.
      * eexists.
        eexists (SysOpen _ _ :: EvdiConnect hd _ _ 0 :: EvdiOpen device hd :: probes).
        split; [reflexivity|].
        split; [repeat split|].
        split.
        { split; simpl; intros; [|discriminate].
          split; [apply Z.eqb_neq; exact Hnull|apply Z.leb_le; exact Hdev]. }
        split; [simpl; eapply forallb_weaken; [exact probe_quiet|exact Hprobes]|].
        split; [simpl; eapply forallb_weaken; [exact probe_not_release|exact Hprobes]|].
        split; [simpl; rewrite probes_no_connect by exact Hprobes;
                constructor; [reflexivity|constructor]|].
        intros; discriminate.
    + eexists. exists probes.
      split; [reflexivity|].
      split; [repeat split|].
      split; [split; simpl; intros; [discriminate|auto]|].
      split; [eapply forallb_weaken; [exact probe_quiet|exact Hprobes]|].
      split; [eapply forallb_weaken; [exact probe_not_release|exact Hprobes]|].
      split; [rewrite probes_no_connect by exact Hprobes; constructor|].
      intros; discriminate.
  - eexists. exists [].
    split; [simpl; rewrite set_trace_same; reflexivity|].
    split; [repeat split|].
    split; [split; simpl; intros; [discriminate|auto]|].
    split; [reflexivity|].
    split; [reflexivity|].
    split; [constructor|].
    intros _. repeat split.
Qed.

(** What the loop of [changeDisplaySettings] does. *)
Lemma change_first_spec (n : string) (w h r : Z)
    (records : StdMap.t VirtualDisplayInfo) (s : state) :
  exists found records' new,
    change_first P n w h r records s
    = (found, records', set_trace (new ++ trace s) s) /\
    forallb quiet new = true /\
    Forall (fun c =>
              c = (Edid.generate_edid_for_resolution (float_casts P)
                     (u32 w) (u32 h) (u32 (Z.quot r 1000)),
                   if (1920 <? w) || (1080 <? h) then 256 else 128))
           (connects new) /\
    map fst records' = map fst records /\
    (registry_ok records -> registry_ok records') /\
    (Forall (fun e => name (snd e) <> n) records ->
     found = false /\ records' = records /\ new = []).
Proof.
  induction records as [|[guid vd] rest IH]; cbn [change_first].
  - exists false, [], []. simpl. rewrite set_trace_same.
    repeat split; auto.
  - destruct (String.eqb (name vd) n) eqn:Hname.
    + destruct (using_evdi vd && negb (handle vd =? 0)) eqn:Hhw.
      * eexists true, _, [EvdiConnect (handle vd) _ _ 0; EvdiDisconnect (handle vd)].
        split; [reflexivity|].
        split; [reflexivity|].
        split; [simpl; constructor; [reflexivity|constructor]|].
        split; [reflexivity|].
        split.
        { intros Hok. inversion Hok; subst. constructor; assumption. }
        intros Hnone. inversion Hnone; subst. simpl in *.
        apply String.eqb_eq in Hname. contradiction.
      * eexists true, _, []. simpl. rewrite set_trace_same.
        split; [reflexivity|].
        split; [reflexivity|].
        split; [constructor|].
        split; [reflexivity|].
        split.
        { intros Hok. inversion Hok; subst. constructor; assumption. }
        intros Hnone. inversion Hnone; subst. simpl in *.
        apply String.eqb_eq in Hname. contradiction.
    + destruct IH as (found & records' & new & Heq & Hq & Hc & Hkeys & Hok & Hnone).
      rewrite Heq. exists found, ((guid, vd) :: records'), new.
      split; [reflexivity|].
      split; [exact Hq|].
      split; [exact Hc|].
      split; [simpl; f_equal; exact Hkeys|].
      split.
      { intros Hreg. inversion Hreg as [|? ? Hvd Hrest]; subst.
        constructor; [exact Hvd|apply Hok; exact Hrest]. }
      intros Hall. inversion Hall as [|? ? Hvd Hrest]; subst.
      destruct (Hnone Hrest) as (-> & -> & ->). auto.
Qed.

Lemma ascending_keys {V W : Type} (m : StdMap.t V) (m' : StdMap.t W) :
  map fst m = map fst m' -> StdMap.ascending m = StdMap.ascending m'.
Proof.
  revert m'; induction m as [|[k v] rest IH]; intros [|[k' v'] rest'] Hkeys;
    try discriminate; [reflexivity|].
  simpl in Hkeys. injection Hkeys as -> Hrest.
  specialize (IH rest' Hrest).
  destruct rest as [|[k1 v1] r1], rest' as [|[k2 v2] r2]; try discriminate;
    [reflexivity|].
  simpl in Hrest. injection Hrest as -> Hr.
  change (String.ltb k' k2 && StdMap.ascending ((k2, v1) :: r1)
          = String.ltb k' k2 && StdMap.ascending ((k2, v2) :: r2)).
  rewrite IH. reflexivity.
Qed.

(** C3. [createVirtualDisplay] returns the empty string exactly when the
    driver state is not [OK].  When it is [OK], the value returned is
    ["VIRTUAL-"] followed by the first eight characters of the UUID's
    string form, and afterwards the registry holds, under the UUID string,
    a record with that name and the requested geometry.  When it is not,
    nothing is changed. *)
Theorem create_returns_name_iff_ready :
  forall (uid cname : string) (w h f : Z) (guid : uuid_util.uuid_t) (s : state),
    let r := createVirtualDisplay P uid cname w h f guid s in
    (fst r = EmptyString <-> driver_status s <> OK) /\
    (driver_status s = OK ->
     fst r = ("VIRTUAL-" ++ String.substring 0 8 (uuid_util.string guid))%string /\
     exists vd,
       StdMap.find (uuid_util.string guid) (virtual_displays (snd r)) = Some vd /\
       name vd = fst r /\ guid_str vd = uuid_util.string guid /\
       width vd = w /\ height vd = h /\ fps vd = f /\ active vd = true) /\
    (driver_status s <> OK -> snd r = s).
Proof.
  intros uid cname w h f guid s r. subst r.
  destruct (driver_status s) eqn:Hst.
  2: {
    destruct (create_spec uid cname w h f guid s Hst)
      as (vd & new & Heq & (Hn & Hg & Hw & Hh & Hf & Ha) & _).
    rewrite Heq. cbn [fst snd]. split; [|split].
    - split; [discriminate|intros Hne; congruence].
    - intros _. split; [reflexivity|].
      exists vd. cbn [virtual_displays set_virtual_displays].
      rewrite find_assign. repeat split; assumption.
    - intros Hne; congruence. }
  all: unfold createVirtualDisplay; rewrite Hst; cbn [fst snd];
    (split; [split; [discriminate|reflexivity]|]);
    (split; [discriminate|reflexivity]).
Qed.

(** C5. With hardware mode disabled and the driver ready, every
    [createVirtualDisplay] call succeeds: the name returned is the derived
    one and is not empty, no call leaves the process (so no device node is
    opened), and the record stored under the UUID string is a passthrough
    record: [using_evdi] false, null handle, device index -1, descriptor
    -1. *)
Theorem create_passthrough :
  forall (uid cname : string) (w h f : Z) (guid : uuid_util.uuid_t) (s : state),
    driver_status s = OK ->
    evdi_available s = false ->
    let r := createVirtualDisplay P uid cname w h f guid s in
    fst r = generate_display_name guid /\
    fst r <> EmptyString /\
    new_events s (snd r) = [] /\
    exists vd,
      StdMap.find (uuid_util.string guid) (virtual_displays (snd r)) = Some vd /\
      name vd = fst r /\ active vd = true /\
      using_evdi vd = false /\ handle vd = 0 /\
      device_index vd = -1 /\ drm_fd vd = -1.
Proof.
  intros uid cname w h f guid s Hst Hav r. subst r.
  destruct (create_spec uid cname w h f guid s Hst)
    as (vd & new & Heq & (Hn & Hg & Hw & Hh & Hf & Ha) & _ & _ & _ & _ & Hpass).
  destruct (Hpass Hav) as (-> & Hu & Hh0 & Hd & Hfd).
  rewrite Heq. cbn [fst snd].
  split; [reflexivity|]. split; [discriminate|]. split.
  - apply (new_events_app []). reflexivity.
  - exists vd. cbn [virtual_displays set_virtual_displays].
    rewrite find_assign. repeat split; assumption.
Qed.

(** C6. When no record of the registry carries the display name,
    [changeDisplaySettings] (and [changeDisplaySettings2], whatever its
    flag) returns 0 and leaves the whole state as it was: no record is
    added, removed or rewritten, and no call is made. *)
Theorem change_unknown_name_is_noop :
  forall (deviceName : string) (w h r : Z) (s : state),
    Forall (fun e => name (snd e) <> deviceName) (virtual_displays s) ->
    changeDisplaySettings P deviceName w h r s = (0, s) /\
    (forall b, changeDisplaySettings2 P deviceName w h r b s = (0, s)) /\
    virtual_displays (snd (changeDisplaySettings P deviceName w h r s))
    = virtual_displays s.
Proof.
  intros deviceName w h r s Hnone.
  assert (Heq : changeDisplaySettings P deviceName w h r s = (0, s)).
  { unfold changeDisplaySettings.
    destruct (change_first_spec deviceName w h r (virtual_displays s) s)
      as (found & records' & new & Heq & _ & _ & _ & _ & Hsame).
    destruct (Hsame Hnone) as (-> & -> & ->).
    rewrite Heq. f_equal. destruct s; reflexivity. }
  split; [exact Heq|]. split.
  - intros b. unfold changeDisplaySettings2. exact Heq.
  - rewrite Heq. reflexivity.
Qed.

(** C10. When the driver is ready and the UUID string of the GUID is
    already a key of the registry, [createVirtualDisplay] succeeds and
    overwrites the record: the registry keeps its size, holds exactly one
    record under that key, that record carries the derived name and the
    new geometry, every other key keeps its record, and the call makes no
    disconnect, close or descriptor-close call, so the handle and the
    descriptor of the record it replaced are left as they were. *)
Theorem create_existing_guid_replaces :
  forall (uid cname : string) (w h f : Z) (guid : uuid_util.uuid_t)
         (s : state) (old : VirtualDisplayInfo),
    driver_status s = OK ->
    StdMap.ascending (virtual_displays s) = true ->
    StdMap.find (uuid_util.string guid) (virtual_displays s) = Some old ->
    let r := createVirtualDisplay P uid cname w h f guid s in
    fst r = generate_display_name guid /\
    fst r <> EmptyString /\
    StdMap.size (virtual_displays (snd r)) = StdMap.size (virtual_displays s) /\
    StdMap.count (uuid_util.string guid) (virtual_displays (snd r)) = 1%nat /\
    (exists vd,
       StdMap.find (uuid_util.string guid) (virtual_displays (snd r)) = Some vd /\
       name vd = fst r /\ width vd = w /\ height vd = h /\ fps vd = f) /\
    (forall k, k <> uuid_util.string guid ->
       StdMap.find k (virtual_displays (snd r)) = StdMap.find k (virtual_displays s)) /\
    forallb (fun e => negb (is_release e)) (new_events s (snd r)) = true.
Proof.
  intros uid cname w h f guid s old Hst Hasc Hold r. subst r.
  destruct (create_spec uid cname w h f guid s Hst)
    as (vd & new & Heq & (Hn & Hg & Hw & Hh & Hf & Ha) & _ & _ & Hrel & _).
  rewrite Heq. cbn [fst snd virtual_displays set_virtual_displays set_trace].
  split; [reflexivity|]. split; [discriminate|].
  split; [eapply size_assign_present; eauto|].
  split; [apply count_assign; exact Hasc|].
  split; [exists vd; rewrite find_assign; repeat split; assumption|].
  split; [intros k Hk; apply find_assign_other; exact Hk|].
  rewrite (new_events_app new); [exact Hrel|reflexivity].
Qed.

(** C2. For every width, height and refresh rate the buffer of the
    synthesizer has 256 bytes and holds a descriptor of exactly 128 bytes
    when width <= 1920 and height <= 1080 (extension flag 0, second half
    untouched) and of exactly 256 bytes otherwise (extension flag 1, second
    block opening with the CEA tag).  Every [evdi.connect] call made by
    [createVirtualDisplay] passes that buffer and declares that length,
    which it picks by the test [width > 1920 || height > 1080]; and
    [changeDisplaySettings] picks the length it declares by the same test
    on its own arguments. *)
Theorem edid_size_follows_resolution :
  forall (w h refresh_rate : Z),
    let edid :=
      Edid.generate_edid_for_resolution (float_casts P) w h refresh_rate in
    List.length edid = 256%nat /\
    (if (w <=? 1920) && (h <=? 1080)
     then Edid.descriptor_length edid = 128 /\ skipn 128 edid = repeat 0 128
     else Edid.descriptor_length edid = 256 /\ Edid.load 128 edid = 2) /\
    (forall uid cname f guid s,
       Forall (fun c =>
                 fst c = Edid.generate_edid_for_resolution (float_casts P)
                           w h (f / 1000) /\
                 snd c = Edid.descriptor_length (fst c) /\
                 snd c = if (1920 <? w) || (1080 <? h) then 256 else 128)
         (connects (new_events s
            (snd (createVirtualDisplay P uid cname w h f guid s))))) /\
    (forall deviceName r s,
       Forall (fun c =>
                 snd c = if (1920 <? w) || (1080 <? h) then 256 else 128)
         (connects (new_events s
            (snd (changeDisplaySettings P deviceName w h r s))))).
Proof.
  intros w h refresh_rate edid. subst edid.
  assert (Hlen : forall rr,
    Edid.descriptor_length
      (Edid.generate_edid_for_resolution (float_casts P) w h rr)
    = if (1920 <? w) || (1080 <? h) then 256 else 128).
  { intros rr. unfold Edid.descriptor_length. rewrite generate_edid_flag.
    unfold Edid.needs_extension.
    destruct ((1920 <? w) || (1080 <? h)); reflexivity. }
  assert (Htest : (w <=? 1920) && (h <=? 1080)
                  = negb (Edid.needs_extension w h)).
  { unfold Edid.needs_extension. rewrite negb_orb, !Z.ltb_antisym, !negb_involutive.
    reflexivity. }
  split; [apply generate_edid_length|]. split; [|split].
  - rewrite Htest, Hlen.
    destruct (Edid.needs_extension w h) eqn:Hext; cbn [negb];
      unfold Edid.needs_extension in Hext; rewrite Hext.
    + split; [reflexivity|]. apply generate_edid_cea_tag. exact Hext.
    + split; [reflexivity|]. apply generate_edid_tail. exact Hext.
  - intros uid cname f guid s.
    destruct (driver_status s) eqn:Hst.
    2: {
      destruct (create_spec uid cname w h f guid s Hst)
        as (vd & new & Heq & _ & _ & _ & _ & Hconn & _).
      rewrite Heq. cbn [snd].
      rewrite (new_events_app new) by reflexivity.
      eapply Forall_impl; [|exact Hconn].
      intros c ->. cbn [fst snd]. rewrite Hlen. auto. }
    all: unfold createVirtualDisplay; rewrite Hst; cbn [snd];
      rewrite new_events_same; constructor.
  - intros deviceName r s. unfold changeDisplaySettings.
    destruct (change_first_spec deviceName w h r (virtual_displays s) s)
      as (found & records' & new & Heq & _ & Hconn & _).
    rewrite Heq. cbn [snd].
    rewrite (new_events_app new) by reflexivity.
    eapply Forall_impl; [|exact Hconn].
    intros c ->. reflexivity.
Qed.

(** When no library name can be opened, the loader reports failure. *)
Lemma dlopen_first_all_fail (names : list string) (s : state) :
  (forall tr n, dlopen P tr n = 0) ->
  names <> [] ->
  evdi_lib_handle (dlopen_first P names s) = 0.
Proof.
  intros Hfail. revert s; induction names as [|n rest IH]; intros s Hne;
    [congruence|].
  cbn [dlopen_first]. rewrite Hfail. cbn [Z.eqb].
  destruct rest as [|n' rest']; [reflexivity|].
  apply IH. discriminate.
Qed.

Lemma load_fails_without_library (s : state) :
  evdi_loaded s = false ->
  (forall tr n, dlopen P tr n = 0) ->
  fst (load_evdi_library P s) = false.
Proof.
  intros Hnot Hfail. unfold load_evdi_library. rewrite Hnot.
  rewrite dlopen_first_all_fail by (auto; discriminate).
  reflexivity.
Qed.

Lemma module_check_fails (s : state) :
  (forall tr, existsb (contains "evdi") (proc_modules P tr) = false) ->
  (forall tr, sys_module_evdi P tr = Some false) ->
  fst (check_evdi_module_loaded P s) = Some false.
Proof.
  intros Hproc Hsys. unfold check_evdi_module_loaded.
  rewrite Hproc, Hsys. reflexivity.
Qed.

(** The answer of the module check does not depend on the flags of the
    state, only on its trace. *)
Lemma module_check_answer (v : bool) (s : state) :
  fst (check_evdi_module_loaded P (set_evdi_available v s))
  = fst (check_evdi_module_loaded P s).
Proof.
  unfold check_evdi_module_loaded. cbn [trace set_evdi_available emit].
  destruct (existsb (contains "evdi") (proc_modules P (trace s)));
    [reflexivity|].
  destruct (sys_module_evdi P (ReadProcModules :: trace s)) as [[|]|];
    reflexivity.
Qed.

Lemma module_check_answers (s : state) :
  (forall tr, sys_module_evdi P tr <> None) ->
  fst (check_evdi_module_loaded P s) <> None.
Proof.
  intros Hsys. unfold check_evdi_module_loaded.
  destruct (existsb (contains "evdi") (proc_modules P (trace s)));
    [discriminate|].
  pose proof (Hsys (trace (emit ReadProcModules s))) as Hne.
  destruct (sys_module_evdi P (trace (emit ReadProcModules s))) as [[|]|];
    cbn [fst]; congruence.
Qed.

Lemma check_module_fields (s : state) :
  driver_status (snd (check_evdi_module_loaded P s)) = driver_status s /\
  evdi_available (snd (check_evdi_module_loaded P s)) = evdi_available s.
Proof.
  unfold check_evdi_module_loaded.
  destruct (existsb (contains "evdi") (proc_modules P (trace s)));
    [split; reflexivity|].
  destruct (sys_module_evdi P (trace (emit ReadProcModules s))) as [[|]|];
    split; reflexivity.
Qed.

Lemma dlopen_first_status (names : list string) (s : state) :
  driver_status (dlopen_first P names s) = driver_status s.
Proof.
  revert s; induction names as [|n rest IH]; intros s; cbn [dlopen_first];
    [reflexivity|].
  destruct (dlopen P (trace s) n =? 0); [rewrite IH|]; reflexivity.
Qed.

Lemma load_evdi_funcs_status (names : list string) (s : state) :
  driver_status (snd (load_evdi_funcs P names s)) = driver_status s.
Proof.
  revert s; induction names as [|n rest IH]; intros s; cbn [load_evdi_funcs];
    [reflexivity|].
  destruct (dlsym P (trace s) (evdi_lib_handle s) ("evdi_" ++ n) =? 0);
    [reflexivity|].
  rewrite IH. reflexivity.
Qed.

Lemma load_evdi_library_status (s : state) :
  driver_status (snd (load_evdi_library P s)) = driver_status s.
Proof.
  unfold load_evdi_library.
  destruct (evdi_loaded s); [reflexivity|].
  destruct (evdi_lib_handle (dlopen_first P lib_names s) =? 0);
    [cbn [snd emit driver_status]; apply dlopen_first_status|].
  pose proof (load_evdi_funcs_status evdi_funcs (dlopen_first P lib_names s))
    as H.
  destruct (load_evdi_funcs P evdi_funcs (dlopen_first P lib_names s))
    as [[|] s2]; cbn [snd] in *; cbn [set_evdi_loaded emit driver_status];
    rewrite H; apply dlopen_first_status.
Qed.

(** What [openVDisplayDevice] does when the driver is not ready, by the
    result of the loader and the answer of the module check. *)
Lemma open_cases (s : state) :
  driver_status s <> OK ->
  let r := openVDisplayDevice P s in
  let loaded := fst (load_evdi_library P s) in
  let present := fst (check_evdi_module_loaded P (snd (load_evdi_library P s))) in
  (loaded = true /\ present = None /\
   fst r = None /\ driver_status (snd r) = driver_status s /\
   evdi_available (snd r) = true) \/
  ((loaded = false \/ present <> None) /\
   fst r = Some OK /\ driver_status (snd r) = OK /\
   evdi_available (snd r)
   = loaded && match present with Some true => true | _ => false end).
Proof.
  intros Hne r loaded present. subst r loaded present.
  unfold openVDisplayDevice.
  pose proof (load_evdi_library_status s) as Hst1.
  destruct (load_evdi_library P s) as [ld s1]. cbn [fst snd] in *.
  rewrite <- (module_check_answer ld s1).
  assert (Hbody :
    let r := if evdi_available (set_evdi_available ld s1)
             then let '(present, s0) :=
                    check_evdi_module_loaded P (set_evdi_available ld s1) in
                  match present with
                  | Some true => (Some (driver_status (set_driver_status OK s0)),
                                  set_driver_status OK s0)
                  | Some false =>
                      (Some (driver_status
                               (set_driver_status OK (set_evdi_available false s0))),
                       set_driver_status OK (set_evdi_available false s0))
                  | None => (None, s0)
                  end
             else (Some (driver_status
                           (set_driver_status OK (set_evdi_available ld s1))),
                   set_driver_status OK (set_evdi_available ld s1)) in
    let present := fst (check_evdi_module_loaded P (set_evdi_available ld s1)) in
    (ld = true /\ present = None /\
     fst r = None /\ driver_status (snd r) = driver_status s /\
     evdi_available (snd r) = true) \/
    ((ld = false \/ present <> None) /\
     fst r = Some OK /\ driver_status (snd r) = OK /\
     evdi_available (snd r)
     = ld && match present with Some true => true | _ => false end)).
  { cbv zeta. destruct ld; cbn [evdi_available set_evdi_available andb].
    - pose proof (check_module_fields (set_evdi_available true s1)) as Hf.
      destruct (check_evdi_module_loaded P (set_evdi_available true s1))
        as [[[|]|] s2]; cbn [fst snd] in *; destruct Hf as (Hst & Hav);
        cbn [driver_status evdi_available set_evdi_available] in Hst, Hav.
      + right. split; [right; discriminate|].
        split; [reflexivity|]. split; [reflexivity|exact Hav].
      + right. split; [right; discriminate|].
        split; [reflexivity|]. split; reflexivity.
      + left. split; [reflexivity|]. split; [reflexivity|].
        split; [reflexivity|]. split; [congruence|exact Hav].
    - right. split; [left; reflexivity|].
      split; [reflexivity|]. split; reflexivity. }
  destruct (driver_status s); try contradiction; exact Hbody.
Qed.

(** C4.  On a host where libevdi loads, /proc/modules does not list the
    module and the status of /sys/module/evdi cannot be determined,
    [openVDisplayDevice] does not return [OK]: [fs::exists] throws, nothing
    catches the exception, and the call is left with hardware mode still on
    and the driver state still [UNKNOWN], so that a display cannot be
    created. *)
Theorem open_throws_when_probe_fails :
  let r := openVDisplayDevice host_with_failing_sysfs initial_state in
  fst r = None /\
  driver_status (snd r) = UNKNOWN /\
  evdi_available (snd r) = true /\
  evdi_loaded (snd r) = true /\
  hd_error (trace (snd r)) = Some (ExistsSysModuleEvdi None) /\
  createVirtualDisplay host_with_failing_sysfs "c1" "Test" 1920 1080 60000
    sample_guid (snd r) = (EmptyString, snd r).
Proof. vm_compute. repeat split. Qed.

(** *** Calls that leave the watchdog and the registry alone *)

Lemma background_refl (s : state) : background s s.
Proof. repeat split. exists []. split; reflexivity. Qed.

Lemma background_trans (s1 s2 s3 : state) :
  background s1 s2 -> background s2 s3 -> background s1 s3.
Proof.
  intros (Hr1 & Ht1 & Hv1 & n1 & Htr1 & Hq1) (Hr2 & Ht2 & Hv2 & n2 & Htr2 & Hq2).
  repeat split; try congruence.
  exists (n2 ++ n1). split.
  - rewrite Htr2, Htr1, app_assoc. reflexivity.
  - rewrite forallb_app, Hq1, Hq2. reflexivity.
Qed.

Lemma background_emit (e : event) (s : state) :
  quiet e = true -> background s (emit e s).
Proof.
  intros Hq. repeat split. exists [e]. split; [reflexivity|].
  simpl. rewrite Hq. reflexivity.
Qed.

Lemma background_after (new : list event) (s s' : state) :
  after_calls new s s' -> forallb quiet new = true -> background s s'.
Proof. intros -> Hq. repeat split. exists new. split; [reflexivity|exact Hq]. Qed.

Lemma background_set_handle (v : Z) (s : state) :
  background s (set_evdi_lib_handle v s).
Proof. repeat split. exists []. split; reflexivity. Qed.

Lemma background_set_loaded (v : bool) (s : state) :
  background s (set_evdi_loaded v s).
Proof. repeat split. exists []. split; reflexivity. Qed.

Lemma background_set_available (v : bool) (s : state) :
  background s (set_evdi_available v s).
Proof. repeat split. exists []. split; reflexivity. Qed.

Lemma background_set_status (v : DRIVER_STATUS) (s : state) :
  background s (set_driver_status v s).
Proof. repeat split. exists []. split; reflexivity. Qed.

Ltac background_chain :=
  repeat first
    [ apply background_refl
    | apply background_set_handle | apply background_set_loaded
    | apply background_set_available | apply background_set_status
    | apply background_emit; reflexivity
    | eapply background_trans;
      [| first [ apply background_set_handle | apply background_set_loaded
               | apply background_set_available | apply background_set_status
               | apply background_emit; reflexivity ] ] ].

Lemma dlopen_first_background (names : list string) (s : state) :
  background s (dlopen_first P names s).
Proof.
  revert s; induction names as [|n rest IH]; intros s; cbn [dlopen_first].
  - apply background_refl.
  - destruct (dlopen P (trace s) n =? 0).
    + eapply background_trans; [|apply IH]. background_chain.
    + background_chain.
Qed.

Lemma load_evdi_funcs_background (names : list string) (s : state) :
  background s (snd (load_evdi_funcs P names s)).
Proof.
  revert s; induction names as [|n rest IH]; intros s; cbn [load_evdi_funcs].
  - apply background_refl.
  - destruct (dlsym P (trace s) (evdi_lib_handle s) ("evdi_" ++ n) =? 0).
    + cbn [snd]. background_chain.
    + eapply background_trans; [|apply IH]. background_chain.
Qed.

Lemma load_evdi_library_background (s : state) :
  background s (snd (load_evdi_library P s)).
Proof.
  unfold load_evdi_library.
  destruct (evdi_loaded s); [apply background_refl|].
  pose proof (dlopen_first_background lib_names s) as H1.
  destruct (evdi_lib_handle (dlopen_first P lib_names s) =? 0).
  - cbn [snd]. eapply background_trans; [exact H1|]. background_chain.
  - pose proof (load_evdi_funcs_background evdi_funcs
                  (dlopen_first P lib_names s)) as H2.
    destruct (load_evdi_funcs P evdi_funcs (dlopen_first P lib_names s))
      as [[|] s2]; cbn [snd] in *.
    + eapply background_trans; [exact H1|].
      eapply background_trans; [exact H2|]. background_chain.
    + eapply background_trans; [exact H1|exact H2].
Qed.

Lemma check_module_background (s : state) :
  background s (snd (check_evdi_module_loaded P s)).
Proof.
  unfold check_evdi_module_loaded.
  destruct (existsb (contains "evdi") (proc_modules P (trace s)));
    [cbn [snd]; background_chain|].
  destruct (sys_module_evdi P (trace (emit ReadProcModules s))) as [[|]|];
    cbn [snd]; background_chain.
Qed.

Lemma unload_background (s : state) : background s (unload_evdi_library s).
Proof.
  unfold unload_evdi_library.
  destruct (evdi_lib_handle s =? 0); background_chain.
Qed.

Lemma open_background (s : state) :
  background s (snd (openVDisplayDevice P s)).
Proof.
  unfold openVDisplayDevice.
  pose proof (load_evdi_library_background s) as H1.
  destruct (load_evdi_library P s) as [loaded s1]. cbn [snd] in H1.
  destruct (driver_status s); cbn [snd]; try apply background_refl;
    (eapply background_trans; [exact H1|]);
    (eapply background_trans; [apply (background_set_available loaded)|]);
    (destruct (evdi_available (set_evdi_available loaded s1));
     [ pose proof (check_module_background (set_evdi_available loaded s1)) as H2;
       destruct (check_evdi_module_loaded P (set_evdi_available loaded s1))
         as [[[|]|] s2]; cbn [snd] in H2 |- *;
       (eapply background_trans; [exact H2|]); background_chain
     | background_chain ]).
Qed.

Lemma release_record_background (chk : bool) (vd : VirtualDisplayInfo)
    (s : state) :
  background s (release_record chk vd s).
Proof.
  unfold release_record.
  destruct (chk && negb (active vd)); [apply background_refl|].
  destruct (using_evdi vd && negb (handle vd =? 0));
    destruct (0 <=? drm_fd vd); background_chain.
Qed.

Lemma release_all_background (records : StdMap.t VirtualDisplayInfo)
    (s : state) :
  background s (release_all records s).
Proof.
  revert s; induction records as [|[k vd] rest IH]; intros s; cbn [release_all].
  - apply background_refl.
  - eapply background_trans; [apply release_record_background|apply IH].
Qed.

(** *** The watchdog *)

Lemma query_quiet (e : event) : is_query e = true -> quiet e = true.
Proof. destruct e; simpl; intros H; try reflexivity; discriminate H. Qed.

Lemma queries_no_FailCb (l : list event) :
  forallb is_query l = true -> count_FailCb l = 0%nat.
Proof.
  unfold count_FailCb. induction l as [|e l IH]; simpl; [reflexivity|].
  rewrite andb_true_iff. intros [He Hl].
  destruct e; simpl in *; try discriminate. auto.
Qed.

(** The scan only makes liveness queries; it reports a loss exactly when
    one of them answered below zero. *)
Lemma watchdog_scan_spec (records : StdMap.t VirtualDisplayInfo) (s : state) :
  exists new,
    after_calls new s (snd (watchdog_scan P records s)) /\
    forallb is_query new = true /\
    (fst (watchdog_scan P records s) = false ->
     forall h r, In (EvdiGetEventReady h r) new -> 0 <= r) /\
    (fst (watchdog_scan P records s) = true ->
     exists h r, In (EvdiGetEventReady h r) new /\ r < 0) /\
    (forall h r, In (EvdiGetEventReady h r) new -> hardware_record h records).
Proof.
  revert s; induction records as [|[k vd] rest IH]; intros s;
    cbn [watchdog_scan].
  - exists []. split; [apply after_calls_refl|].
    split; [reflexivity|]. split; [intros _ h r []|].
    split; [discriminate|intros h r []].
  - assert (Hrest : forall h, hardware_record h rest ->
                              hardware_record h ((k, vd) :: rest)).
    { intros h (e & Hin & He). exists e. split; [right; exact Hin|exact He]. }
    destruct (active vd && using_evdi vd && negb (handle vd =? 0)) eqn:Hhw.
    2: { destruct (IH s) as (new & Hcalls & Hq & Hfalse & Htrue & Hrec).
         exists new. repeat split; auto.
         intros h r Hin. apply Hrest. eapply Hrec; eauto. }
    assert (Hvd : hardware_record (handle vd) ((k, vd) :: rest)).
    { apply andb_true_iff in Hhw. destruct Hhw as [Hhw Hnz].
      apply andb_true_iff in Hhw. destruct Hhw as [Hact Hev].
      exists (k, vd). split; [left; reflexivity|]. cbn [snd].
      split; [reflexivity|]. split; [|split; assumption].
      apply negb_true_iff in Hnz. apply Z.eqb_neq. exact Hnz. }
    set (ready := evdi_get_event_ready P (trace s) (handle vd)).
    destruct (ready <? 0) eqn:Hneg.
    + exists [EvdiGetEventReady (handle vd) ready]. cbn [fst snd].
      split; [reflexivity|]. split; [reflexivity|].
      split; [discriminate|]. split.
      * intros _. exists (handle vd), ready. split; [left; reflexivity|].
        apply Z.ltb_lt. exact Hneg.
      * intros h r [Heq|[]]. injection Heq as <- <-. exact Hvd.
    + destruct (IH (emit (EvdiGetEventReady (handle vd) ready) s))
        as (new & Hcalls & Hq & Hfalse & Htrue & Hrec).
      exists (new ++ [EvdiGetEventReady (handle vd) ready]).
      split; [apply after_calls_step; exact Hcalls|].
      split; [rewrite forallb_app, Hq; reflexivity|].
      split; [|split].
      * intros Hf h r Hin. apply in_app_or in Hin. destruct Hin as [Hin|Hin].
        -- eapply Hfalse; eauto.
        -- destruct Hin as [Heq|[]]. injection Heq as <- <-.
           apply Z.ltb_ge. exact Hneg.
      * intros Ht. destruct (Htrue Ht) as (h & r & Hin & Hr).
        exists h, r. split; [apply in_or_app; left; exact Hin|exact Hr].
      * intros h r Hin. apply in_app_or in Hin. destruct Hin as [Hin|Hin].
        -- apply Hrest. eapply Hrec; eauto.
        -- destruct Hin as [Heq|[]]. injection Heq as <- <-. exact Hvd.
Qed.

Lemma session_events_quiet (new tr : list event) :
  forallb quiet new = true ->
  count_FailCb (session_events (new ++ tr)) = count_FailCb (session_events tr).
Proof.
  unfold count_FailCb. induction new as [|e new IH]; simpl; [reflexivity|].
  rewrite andb_true_iff. intros [He Hnew].
  destruct e; simpl in *; try discriminate; auto.
Qed.

Lemma session_ok_background (s s' : state) :
  background s s' -> session_ok s -> session_ok s'.
Proof.
  intros (Hr & Ht & _ & new & Htr & Hq) (Hle & Hlive & Hflag).
  unfold session_ok, thread_live in *.
  rewrite Hr, Ht, Htr, session_events_quiet by exact Hq.
  auto.
Qed.

Lemma session_ok_set_virtual_displays m (s : state) :
  session_ok s -> session_ok (set_virtual_displays m s).
Proof. intros H; exact H. Qed.

(** What a returning [closeVDisplayDevice] leaves behind. *)
Lemma close_spec (s s' : state) (u : unit) :
  closeVDisplayDevice s = Returns u s' ->
  watchdog_running s' = false /\ watchdog_thread s' = None /\
  virtual_displays s' = [] /\ driver_status s' = UNKNOWN /\
  evdi_loaded s' = false /\
  exists new, trace s' = new ++ trace s /\ forallb quiet new = true.
Proof.
  unfold closeVDisplayDevice.
  set (s0 := set_watchdog_running false s).
  assert (Hrest : forall sj,
    watchdog_running sj = false -> watchdog_thread sj = None ->
    (exists new, trace sj = new ++ trace s /\ forallb quiet new = true) ->
    forall u0 s1,
    Returns tt (set_driver_status UNKNOWN
      (unload_evdi_library
         (set_virtual_displays StdMap.empty
            (release_all (virtual_displays sj) sj)))) = Returns u0 s1 ->
    watchdog_running s1 = false /\ watchdog_thread s1 = None /\
    virtual_displays s1 = [] /\ driver_status s1 = UNKNOWN /\
    evdi_loaded s1 = false /\
    exists new, trace s1 = new ++ trace s /\ forallb quiet new = true).
  { intros sj Hrun Hthr (n0 & Htr0 & Hq0) u0 s1 Heq.
    injection Heq as _ <-.
    pose proof (release_all_background (virtual_displays sj) sj)
      as (Hr1 & Ht1 & _ & n1 & Htr1 & Hq1).
    set (s2 := set_virtual_displays StdMap.empty
                 (release_all (virtual_displays sj) sj)) in *.
    pose proof (unload_background s2) as (Hr2 & Ht2 & Hv2 & n2 & Htr2 & Hq2).
    cbn [watchdog_running watchdog_thread virtual_displays driver_status
         evdi_loaded trace set_driver_status].
    rewrite Hr2, Ht2, Hv2, Htr2. subst s2.
    cbn [watchdog_running watchdog_thread virtual_displays trace
         set_virtual_displays].
    rewrite Hr1, Ht1, Htr1, Htr0.
    repeat split; auto.
    exists (n2 ++ n1 ++ n0). split; [rewrite !app_assoc; reflexivity|].
      rewrite !forallb_app, Hq0, Hq1, Hq2. reflexivity. }
  destruct (watchdog_thread s0) as [t|] eqn:Hthr.
  - destruct (pc t); try discriminate;
      intros Heq;
      refine (Hrest (emit ThreadJoin (set_watchdog_thread None s0))
                eq_refl eq_refl _ _ _ Heq);
      exists [ThreadJoin]; split; reflexivity.
  - intros Heq. eapply (Hrest s0 eq_refl Hthr); [|exact Heq].
    exists []. split; reflexivity.
Qed.

(** A thread that is waiting for the mutex is the only thing that keeps
    [closeVDisplayDevice] from returning. *)
Lemma close_returns (s : state) :
  (forall t, watchdog_thread s = Some t -> pc t <> AwaitLock) ->
  exists s', closeVDisplayDevice s = Returns tt s'.
Proof.
  intros Hpc. unfold closeVDisplayDevice.
  cbn [watchdog_thread set_watchdog_running].
  destruct (watchdog_thread s) as [t|] eqn:Hthr.
  - specialize (Hpc t eq_refl). destruct (pc t); try congruence; eexists; reflexivity.
  - eexists; reflexivity.
Qed.

(** *** One step of the driver *)

Lemma set_virtual_displays_same (s : state) :
  set_virtual_displays (virtual_displays s) s = s.
Proof. destruct s; reflexivity. Qed.

(** Every step is a registry update on top of background calls, a close,
    the start of a watchdog session, or a move of the watchdog thread. *)
Lemma step_shape (a : action) (s s' : state) :
  step P a s = Some s' ->
  (exists m sX,
      s' = set_virtual_displays m sX /\ background s sX /\
      (registry_ok (virtual_displays s) -> registry_ok m) /\
      (StdMap.ascending (virtual_displays s) = true ->
       StdMap.ascending m = true)) \/
  (a = CallClose /\ closeVDisplayDevice s = Returns tt s') \/
  (exists cb,
      a = CallStartPing cb /\ watchdog_running s = false /\
      watchdog_thread s = None /\
      s' = emit ThreadSpawn
             (set_watchdog_thread (Some {| pc := LoopHead; failCb := cb |})
                (set_watchdog_running true s))) \/
  (a = WatchdogMoves /\ s' = watchdog_step P s).
Proof.
  assert (Hsame : forall sX, background s sX ->
    exists m sY,
      sX = set_virtual_displays m sY /\ background s sY /\
      (registry_ok (virtual_displays s) -> registry_ok m) /\
      (StdMap.ascending (virtual_displays s) = true ->
       StdMap.ascending m = true)).
  { intros sX Hbg. exists (virtual_displays sX), sX.
    split; [symmetry; apply set_virtual_displays_same|].
    split; [exact Hbg|].
    destruct Hbg as (_ & _ & -> & _). auto. }
  destruct a as [ | | cb | adapter | uid cname w h f guid | guid
                | deviceName w h r | deviceName w h r b
                | | primary | display | display enable | sMatch
                | display | display | ];
    cbn [step]; intros Hstep;
    try (injection Hstep as <-; left; apply Hsame;
         first [apply background_refl | apply open_background]).
  - (* CallClose *)
    right; left. split; [reflexivity|].
    destruct (closeVDisplayDevice s) as [[] sc| |]; try discriminate.
    injection Hstep as <-. reflexivity.
  - (* CallStartPing *)
    unfold startPingThread in Hstep.
    destruct (watchdog_running s) eqn:Hrun.
    + injection Hstep as <-. left. apply Hsame, background_refl.
    + cbn [watchdog_thread set_watchdog_running] in Hstep.
      destruct (watchdog_thread s) eqn:Hthr; [discriminate|].
      injection Hstep as <-. right; right; left. exists cb. auto.
  - (* CallCreate *)
    injection Hstep as <-. left.
    destruct (driver_status s) eqn:Hst.
    2: {
      destruct (create_spec uid cname w h f guid s Hst)
        as (vd & new & Heq & _ & Hvd & Hq & _).
      rewrite Heq. cbn [snd]. eexists _, _. split; [reflexivity|].
      split; [apply (background_after new); [reflexivity|exact Hq]|].
      split.
      - intros Hreg. apply assign_Forall; assumption.
      - apply ascending_assign. }
    all: unfold createVirtualDisplay; rewrite Hst; cbn [snd];
      apply Hsame, background_refl.
  - (* CallRemove *)
    injection Hstep as <-. left. unfold removeVirtualDisplay.
    destruct (StdMap.find (uuid_util.string guid) (virtual_displays s));
      cbn [snd]; [|apply Hsame, background_refl].
    pose proof (release_record_background false v s) as Hbg.
    eexists _, _. split; [reflexivity|]. split; [exact Hbg|].
    destruct Hbg as (_ & _ & -> & _). split.
    + apply erase_Forall.
    + apply ascending_erase.
  - (* CallChange *)
    injection Hstep as <-. left. unfold changeDisplaySettings.
    destruct (change_first_spec deviceName w h r (virtual_displays s) s)
      as (found & records' & new & Heq & Hq & _ & Hkeys & Hreg & _).
    rewrite Heq. cbn [snd]. eexists _, _. split; [reflexivity|].
    split; [apply (background_after new); [reflexivity|exact Hq]|].
    split; [exact Hreg|].
    rewrite (ascending_keys _ _ Hkeys). auto.
  - (* CallChange2 *)
    injection Hstep as <-. left.
    unfold changeDisplaySettings2, changeDisplaySettings.
    destruct (change_first_spec deviceName w h r (virtual_displays s) s)
      as (found & records' & new & Heq & Hq & _ & Hkeys & Hreg & _).
    rewrite Heq. cbn [snd]. eexists _, _. split; [reflexivity|].
    split; [apply (background_after new); [reflexivity|exact Hq]|].
    split; [exact Hreg|].
    rewrite (ascending_keys _ _ Hkeys). auto.
  - (* CallGetPrimary *)
    injection Hstep as <-. left. apply Hsame. unfold getPrimaryDisplay.
    destruct (drm_first_connected P (trace s)); cbn [snd];
      apply background_emit; reflexivity.
  - (* CallIsEvdi *)
    injection Hstep as <-. left. apply Hsame. unfold isEvdiDisplay.
    destruct (negb (evdi_available s)); apply background_refl.
  - (* CallCardIndex *)
    injection Hstep as <-. left. apply Hsame. unfold getEvdiCardIndex.
    destruct (List.find _ _); apply background_refl.
  - (* WatchdogMoves *)
    injection Hstep as <-. right; right; right. auto.
Qed.

Lemma watchdog_step_registry (s : state) :
  virtual_displays (watchdog_step P s) = virtual_displays s.
Proof.
  unfold watchdog_step.
  destruct (watchdog_thread s) as [t|]; [|reflexivity].
  destruct (pc t); try reflexivity.
  - destruct (watchdog_running s); reflexivity.
  - destruct (negb (watchdog_running s)); reflexivity.
  - destruct (watchdog_scan_spec (virtual_displays s) s) as (new & Hcalls & _).
    destruct (watchdog_scan P (virtual_displays s) s) as [lost s1].
    cbn [snd] in Hcalls. rewrite Hcalls.
    destruct lost; [destruct (failCb t)|]; reflexivity.
Qed.

Lemma watchdog_step_session (s : state) :
  session_ok s -> session_ok (watchdog_step P s).
Proof.
  intros Hs. pose proof Hs as (Hle & Hlive & Hflag). unfold watchdog_step.
  destruct (watchdog_thread s) as [t|] eqn:Hthr; [|exact Hs].
  assert (Hrun : watchdog_running s = true) by (apply Hflag; congruence).
  unfold thread_live in Hlive. rewrite Hthr in Hlive.
  destruct (pc t) eqn:Hpc; try specialize (Hlive eq_refl).
  - rewrite Hrun. unfold session_ok, thread_live, set_pc.
    cbn [trace set_watchdog_thread watchdog_thread watchdog_running pc].
    auto.
  - rewrite Hrun. unfold session_ok, thread_live, set_pc.
    cbn [negb trace set_watchdog_thread watchdog_thread watchdog_running pc].
    auto.
  - destruct (watchdog_scan_spec (virtual_displays s) s)
      as (new & Hcalls & Hq & _).
    destruct (watchdog_scan P (virtual_displays s) s) as [lost s1].
    cbn [snd] in Hcalls. rewrite Hcalls.
    assert (Hcount : count_FailCb (session_events (new ++ trace s)) = 0%nat).
    { rewrite session_events_quiet; [exact Hlive|].
      eapply forallb_weaken; [exact query_quiet|exact Hq]. }
    destruct lost; [destruct (failCb t) as [cb|]|];
      unfold session_ok, thread_live, set_pc;
      cbn [trace set_watchdog_thread watchdog_thread watchdog_running pc
           emit set_trace];
      try (change (count_FailCb (session_events (FailCb cb :: new ++ trace s)))
             with (S (count_FailCb (session_events (new ++ trace s)))));
      rewrite Hcount; repeat split; auto with arith; discriminate.
  - exact Hs.
Qed.

(** Every step keeps the record invariant, the order of the keys and the
    watchdog invariant. *)
Lemma step_preserves (a : action) (s s' : state) :
  step P a s = Some s' ->
  (registry_ok (virtual_displays s) -> registry_ok (virtual_displays s')) /\
  (StdMap.ascending (virtual_displays s) = true ->
   StdMap.ascending (virtual_displays s') = true) /\
  (session_ok s -> session_ok s').
Proof.
  intros Hstep.
  destruct (step_shape a s s' Hstep)
    as [(m & sX & -> & Hbg & Hreg & Hasc)
       |[(-> & Hclose)|[(cb & -> & Hrun & Hthr & ->)|(-> & ->)]]].
  - split; [exact Hreg|]. split; [exact Hasc|].
    intros Hs. apply session_ok_set_virtual_displays.
    eapply session_ok_background; eauto.
  - destruct (close_spec _ _ _ Hclose) as (Hr & Ht & Hv & _ & _ & new & Htr & Hq).
    rewrite Hv. split; [constructor|]. split; [reflexivity|].
    intros (Hle & _ & _). unfold session_ok, thread_live.
    rewrite Hr, Ht, Htr, session_events_quiet by exact Hq.
    repeat split; auto; congruence.
  - split; [auto|]. split; [auto|].
    intros _. unfold session_ok, thread_live. cbn.
    repeat split; auto with arith.
  - rewrite watchdog_step_registry. split; [auto|]. split; [auto|].
    apply watchdog_step_session.
Qed.

Lemma run_preserves (schedule : list action) (s s' : state) :
  run P schedule s = Some s' ->
  (registry_ok (virtual_displays s) -> registry_ok (virtual_displays s')) /\
  (StdMap.ascending (virtual_displays s) = true ->
   StdMap.ascending (virtual_displays s') = true) /\
  (session_ok s -> session_ok s').
Proof.
  revert s; induction schedule as [|a rest IH]; intros s; cbn [run].
  - intros Heq. injection Heq as <-. auto.
  - destruct (step P a s) as [s1|] eqn:Hstep; [|discriminate].
    intros Hrun.
    destruct (step_preserves _ _ _ Hstep) as (H1 & H2 & H3).
    destruct (IH _ Hrun) as (H4 & H5 & H6). auto.
Qed.

Lemma initial_session_ok : session_ok initial_state.
Proof.
  unfold session_ok, thread_live. cbn.
  repeat split; auto with arith; congruence.
Qed.

(** C8. Every operation preserves the invariant of the records: if in
    every stored record [using_evdi] true comes with a non-null handle and a
    non-negative device index, and [using_evdi] false with a null handle
    and device index -1, then the same holds after any public call that
    returns and after any move of the watchdog thread; hence it holds in
    every state the driver reaches from its initial state. *)
Theorem operations_preserve_record_invariant :
  (forall (a : action) (s s' : state),
      registry_ok (virtual_displays s) ->
      step P a s = Some s' ->
      registry_ok (virtual_displays s')) /\
  (forall (schedule : list action) (s' : state),
      run P schedule initial_state = Some s' ->
      registry_ok (virtual_displays s')).
Proof.
  split.
  - intros a s s' Hreg Hstep. apply (step_preserves _ _ _ Hstep). exact Hreg.
  - intros schedule s' Hrun. apply (run_preserves _ _ _ Hrun). constructor.
Qed.

(** The moves of an existing watchdog thread: only the scan makes calls,
    and it ends the thread exactly when it reports a loss. *)
Lemma watchdog_step_cases (s : state) (t : thread) :
  watchdog_thread s = Some t ->
  (pc t <> AwaitLock /\ trace (watchdog_step P s) = trace s /\
   watchdog_running (watchdog_step P s) = watchdog_running s) \/
  (pc t = AwaitLock /\
   exists new,
     forallb is_query new = true /\
     (forall h r, In (EvdiGetEventReady h r) new ->
                  hardware_record h (virtual_displays s)) /\
     ((forall h r, In (EvdiGetEventReady h r) new -> 0 <= r) /\
      watchdog_step P s = set_pc t LoopHead (set_trace (new ++ trace s) s)
      \/
      watchdog_step P s
      = set_pc t Returned
          (match failCb t with
           | Some cb => emit (FailCb cb) (set_trace (new ++ trace s) s)
           | None => set_trace (new ++ trace s) s
           end))).
Proof.
  intros Hthr. unfold watchdog_step. rewrite Hthr.
  destruct (pc t) eqn:Hpc.
  - left. split; [discriminate|].
    destruct (watchdog_running s) eqn:Hr; split; [reflexivity|exact Hr| |exact Hr];
      reflexivity.
  - left. split; [discriminate|].
    destruct (watchdog_running s) eqn:Hr; split; [reflexivity|exact Hr| |exact Hr];
      reflexivity.
  - right. split; [reflexivity|].
    destruct (watchdog_scan_spec (virtual_displays s) s)
      as (new & Hcalls & Hq & Hfalse & _ & Hrec).
    destruct (watchdog_scan P (virtual_displays s) s) as [lost s1].
    cbn [fst snd] in *. rewrite Hcalls. exists new. split; [exact Hq|].
    split; [exact Hrec|].
    destruct lost; [right; reflexivity|left; split; [apply Hfalse|]; reflexivity].
  - left. split; [discriminate|]. auto.
Qed.

(** A step in which a liveness query answered below zero ends the thread
    and leaves the flag as it was. *)
Lemma watchdog_failure_step (s : state) (t : thread) (h ready : Z) :
  watchdog_thread s = Some t ->
  In (EvdiGetEventReady h ready) (new_events s (watchdog_step P s)) ->
  ready < 0 ->
  hardware_record h (virtual_displays s) /\
  exists new,
    forallb is_query new = true /\
    watchdog_step P s
    = set_pc t Returned
        (match failCb t with
         | Some cb => emit (FailCb cb) (set_trace (new ++ trace s) s)
         | None => set_trace (new ++ trace s) s
         end).
Proof.
  intros Hthr Hin Hneg.
  destruct (watchdog_step_cases s t Hthr)
    as [(_ & Htr & _)|(_ & new & Hq & Hrec & [(Hpos & Heq)|Heq])].
  - rewrite (new_events_app [] s) in Hin by exact Htr. destruct Hin.
  - rewrite Heq, (new_events_app new s) in Hin by reflexivity.
    specialize (Hpos _ _ Hin). lia.
  - split; [|exists new; auto].
    rewrite Heq in Hin. destruct (failCb t) as [cb|].
    + rewrite (new_events_app (FailCb cb :: new) s) in Hin by reflexivity.
      destruct Hin as [Hin|Hin]; [discriminate Hin|]. eapply Hrec; eauto.
    + rewrite (new_events_app new s) in Hin by reflexivity.
      eapply Hrec; eauto.
Qed.

Lemma returned_thread_stays (s : state) (t : thread) :
  watchdog_thread s = Some t -> pc t = Returned ->
  forall n, Nat.iter n (watchdog_step P) s = s.
Proof.
  intros Hthr Hpc. induction n as [|n IH]; [reflexivity|].
  cbn [Nat.iter nat_rect]. unfold Nat.iter in IH. rewrite IH.
  unfold watchdog_step. rewrite Hthr, Hpc. reflexivity.
Qed.

(** C7. Whenever a move of the watchdog thread contains a liveness query
    that answered below zero, the query was made for an active,
    hardware-backed record of the registry, the move invokes the callback
    the caller supplied exactly once, as its last call, and the thread
    function returns: the thread makes no further move.  And in every
    execution of the driver from its initial state the callback is invoked
    at most once within a watchdog session. *)
Theorem watchdog_reports_failure_once :
  (forall (s : state) (t : thread) (cb : nat) (h ready : Z),
      watchdog_thread s = Some t ->
      failCb t = Some cb ->
      In (EvdiGetEventReady h ready) (new_events s (watchdog_step P s)) ->
      ready < 0 ->
      let s' := watchdog_step P s in
      hardware_record h (virtual_displays s) /\
      count_FailCb (new_events s s') = 1%nat /\
      hd_error (trace s') = Some (FailCb cb) /\
      watchdog_thread s' = Some {| pc := Returned; failCb := Some cb |} /\
      (forall n, Nat.iter n (watchdog_step P) s' = s')) /\
  (forall (schedule : list action) (s' : state),
      run P schedule initial_state = Some s' ->
      (count_FailCb (session_events (trace s')) <= 1)%nat).
Proof.
  split.
  - intros s t cb h ready Hthr Hcb Hin Hneg s'. subst s'.
    destruct (watchdog_failure_step s t h ready Hthr Hin Hneg)
      as (Hrec & new & Hq & Heq).
    split; [exact Hrec|].
    rewrite Heq. unfold set_pc. rewrite Hcb.
    split; [|split; [reflexivity|split; [reflexivity|]]].
    + rewrite (new_events_app (FailCb cb :: new)) by reflexivity.
      change (count_FailCb (FailCb cb :: new)) with (S (count_FailCb new)).
      rewrite queries_no_FailCb by exact Hq. reflexivity.
    + apply (returned_thread_stays _ {| pc := Returned; failCb := Some cb |});
        reflexivity.
  - intros schedule s' Hrun.
    apply (run_preserves _ _ _ Hrun). apply initial_session_ok.
Qed.

Lemma step_after_return (a : action) (s s' : state) (t : thread) :
  a <> CallClose ->
  watchdog_running s = true ->
  watchdog_thread s = Some t -> pc t = Returned ->
  step P a s = Some s' ->
  background s (set_virtual_displays (virtual_displays s) s').
Proof.
  intros Hne Hrun Hthr Hpc Hstep.
  destruct (step_shape a s s' Hstep)
    as [(m & sX & -> & Hbg & _)
       |[(-> & _)|[(cb & -> & Hrun' & _)|(-> & ->)]]];
    try congruence.
  - destruct Hbg as (H1 & H2 & H3 & H4). repeat split; auto.
  - unfold watchdog_step. rewrite Hthr, Hpc.
    rewrite set_virtual_displays_same. apply background_refl.
Qed.

Lemma run_after_return (schedule : list action) (s s' : state) (t : thread) :
  ~ In CallClose schedule ->
  watchdog_running s = true ->
  watchdog_thread s = Some t -> pc t = Returned ->
  run P schedule s = Some s' ->
  watchdog_running s' = true /\ watchdog_thread s' = Some t /\
  exists new, trace s' = new ++ trace s /\ forallb quiet new = true.
Proof.
  revert s; induction schedule as [|a rest IH]; intros s Hno Hrun Hthr Hpc;
    cbn [run].
  - intros Heq. injection Heq as <-. repeat split; auto.
    exists []. split; reflexivity.
  - destruct (step P a s) as [s1|] eqn:Hstep; [|discriminate].
    intros Hrest.
    assert (Hne : a <> CallClose) by (intros ->; apply Hno; left; reflexivity).
    destruct (step_after_return a s s1 t Hne Hrun Hthr Hpc Hstep)
      as (Hr1 & Ht1 & _ & n1 & Htr1 & Hq1).
    cbn [watchdog_running watchdog_thread trace set_virtual_displays] in *.
    destruct (IH s1) as (Hr2 & Ht2 & n2 & Htr2 & Hq2); auto; try congruence.
    { intros Hin. apply Hno. right. exact Hin. }
    repeat split; auto.
    exists (n2 ++ n1). split; [rewrite Htr2, Htr1, app_assoc; reflexivity|].
    rewrite forallb_app, Hq1, Hq2. reflexivity.
Qed.

Lemma quiet_not_spawn (e : event) :
  quiet e = true -> negb (is_ThreadSpawn e) = true.
Proof. unfold quiet. rewrite andb_true_iff. intros [_ H]. exact H. Qed.

(** C9. Take any state the driver reaches from its initial state, and a
    move of the watchdog thread there in which a liveness query answers
    below zero.  After that move the thread function has returned and
    [watchdog_running] is still true.  From then on, along any schedule
    without [closeVDisplayDevice], the flag stays true, the thread object
    stays the returned one, no thread is started, and every
    [startPingThread] returns true and changes nothing.  Only
    [closeVDisplayDevice] (which does return from such a state) resets
    the flag, after which [startPingThread] starts a thread again. *)
Theorem failed_watchdog_stays_down :
  forall (pre : list action) (s : state) (h ready : Z),
    run P pre initial_state = Some s ->
    In (EvdiGetEventReady h ready) (new_events s (watchdog_step P s)) ->
    ready < 0 ->
    let s1 := watchdog_step P s in
    watchdog_running s1 = true /\
    (exists t, watchdog_thread s1 = Some t /\ pc t = Returned) /\
    forall (schedule : list action) (s2 : state),
      ~ In CallClose schedule ->
      run P schedule s1 = Some s2 ->
      watchdog_running s2 = true /\
      watchdog_thread s2 = watchdog_thread s1 /\
      forallb (fun e => negb (is_ThreadSpawn e)) (new_events s1 s2) = true /\
      (forall cb, startPingThread cb s2 = Returns true s2) /\
      exists s3,
        closeVDisplayDevice s2 = Returns tt s3 /\
        watchdog_running s3 = false /\
        forall cb,
          startPingThread cb s3
          = Returns true
              (emit ThreadSpawn
                 (set_watchdog_thread
                    (Some {| pc := LoopHead; failCb := cb |})
                    (set_watchdog_running true s3))).
Proof.
  intros pre s h ready Hpre Hin Hneg s1.
  assert (Hs : session_ok s)
    by (apply (run_preserves _ _ _ Hpre), initial_session_ok).
  destruct (watchdog_thread s) as [t|] eqn:Hthr.
  2: { exfalso. unfold watchdog_step in Hin. rewrite Hthr in Hin.
       rewrite new_events_same in Hin. destruct Hin. }
  destruct (watchdog_failure_step s t h ready Hthr Hin Hneg)
    as (_ & new & Hq & Heq).
  assert (Hrun : watchdog_running s = true).
  { destruct Hs as (_ & _ & Hflag). apply Hflag. congruence. }
  set (t1 := {| pc := Returned; failCb := failCb t |}).
  assert (Hrun1 : watchdog_running s1 = true).
  { subst s1. rewrite Heq. destruct (failCb t); exact Hrun. }
  assert (Hthr1 : watchdog_thread s1 = Some t1).
  { subst s1. rewrite Heq. reflexivity. }
  split; [exact Hrun1|]. split; [exists t1; auto|].
  intros schedule s2 Hno Hsched.
  destruct (run_after_return schedule s1 s2 t1 Hno Hrun1 Hthr1 eq_refl Hsched)
    as (Hrun2 & Hthr2 & n2 & Htr2 & Hq2).
  split; [exact Hrun2|]. split; [congruence|]. split; [|split].
  - rewrite (new_events_app n2) by exact Htr2.
    eapply forallb_weaken; [exact quiet_not_spawn|exact Hq2].
  - intros cb. unfold startPingThread. rewrite Hrun2. reflexivity.
  - destruct (close_returns s2) as (s3 & Hclose).
    { intros t' Ht'. rewrite Hthr2 in Ht'. injection Ht' as <-. discriminate. }
    exists s3. split; [exact Hclose|].
    destruct (close_spec _ _ _ Hclose) as (Hr3 & Ht3 & _).
    split; [exact Hr3|].
    intros cb. unfold startPingThread. rewrite Hr3.
    cbn [watchdog_thread set_watchdog_running]. rewrite Ht3. reflexivity.
Qed.

(** [changeDisplaySettings] passes the synthesizer its [int] arguments
    converted to [uint32_t] but tests them as [int]: the length it declares
    is the length of the descriptor whenever width and height are not
    negative. *)
Lemma change_declared_length_agrees (deviceName : string) (w h r : Z)
    (s : state) :
  0 <= w < 2147483648 -> 0 <= h < 2147483648 ->
  Forall (fun c => snd c = Edid.descriptor_length (fst c))
    (connects (new_events s (snd (changeDisplaySettings P deviceName w h r s)))).
Proof.
  intros Hw Hh. unfold changeDisplaySettings.
  destruct (change_first_spec deviceName w h r (virtual_displays s) s)
    as (found & records' & new & Heq & _ & Hconn & _).
  rewrite Heq. cbn [snd]. rewrite (new_events_app new) by reflexivity.
  eapply Forall_impl; [|exact Hconn].
  intros c ->. cbn [fst snd]. unfold Edid.descriptor_length.
  rewrite generate_edid_flag. unfold Edid.needs_extension, u32.
  rewrite !Z.mod_small by lia.
  destruct ((1920 <? w) || (1080 <? h)); reflexivity.
Qed.

(** A watchdog thread that has passed its second test of the flag and
    waits for the mutex keeps [closeVDisplayDevice] from ever returning. *)
Lemma close_deadlocks_on_waiting_thread (s : state) (t : thread) :
  watchdog_thread s = Some t -> pc t = AwaitLock ->
  closeVDisplayDevice s = Deadlock.
Proof.
  intros Hthr Hpc. unfold closeVDisplayDevice.
  cbn [watchdog_thread set_watchdog_running]. rewrite Hthr, Hpc. reflexivity.
Qed.

End DriverFacts.

(** ** The driver on the two hosts *)

Local Open Scope string_scope.

Example to_string_samples :
  to_string 0 = "0" /\ to_string 1 = "1" /\ to_string 15 = "15".
Proof. repeat split. Qed.

Example contains_samples :
  contains "evdi" "evdi 86016 0 - Live" = true /\
  contains "evdi" "drm 741376 9 - Live" = false /\
  contains "" "" = true.
Proof. repeat split. Qed.

(** The descriptor synthesized for 1920x1080 at 60 Hz carries the detailed
    timing that the source also lists in its constant [default_edid]. *)
Example edid_1080p_timing :
  firstn 12 (skipn 54 (Edid.generate_edid_for_resolution Binary64.casts 1920 1080 60))
  = [2; 58; 128; 24; 113; 56; 45; 64; 88; 44; 69; 0]%Z.
Proof. vm_compute. reflexivity. Qed.

(** The generic branch in binary64: the pixel clock and the horizontal
    blanking for three modes outside the table, for a refresh rate of 0
    (the division gives an infinity and the clock is 0), and the blanking
    for the largest width. *)
Example binary64_generic_timing :
  Binary64.pixel_clock_khz 1440 900 100 = 158239%Z /\
  Binary64.pixel_clock_khz 1024 768 60 = 56334%Z /\
  Binary64.pixel_clock_khz 4294967295 4294967295 60 = 612932250%Z /\
  Binary64.pixel_clock_khz 800 600 0 = 0%Z /\
  Binary64.h_blank 1440 = 216%Z /\
  Binary64.h_blank 4294967295 = 644245094%Z.
Proof. vm_compute. repeat split. Qed.

(** 3840x2160 at 60 Hz: 256 bytes, the EDID header, the extension flag, and
    both checksum bytes. *)
Example edid_4k :
  let edid := Edid.generate_edid_for_resolution Binary64.casts 3840 2160 60 in
  List.length edid = 256%nat /\
  firstn 8 edid = [0; 255; 255; 255; 255; 255; 255; 0]%Z /\
  Edid.load 126 edid = 1%Z /\
  (Edid.sum_bytes (Edid.block 0 edid) mod 256 = 0)%Z /\
  (Edid.sum_bytes (Edid.block 128 edid) mod 256 = 0)%Z.
Proof. vm_compute. repeat split. Qed.

(** Without a binding: open, then create. *)
Example passthrough_scenario :
  let s := snd (openVDisplayDevice host_without_evdi initial_state) in
  let r := createVirtualDisplay host_without_evdi "c1" "Test" 1920 1080 60000
             sample_guid s in
  driver_status s = OK /\ evdi_available s = false /\
  fst r = "VIRTUAL-3f2a9c1e" /\
  fst (isEvdiDisplay (fst r) (snd r)) = false /\
  StdMap.size (virtual_displays (snd r)) = 1%nat.
Proof. vm_compute. repeat split. Qed.

(** With EVDI: the record is hardware-backed and the trace shows the slot
    search, the open, the connect with a 256-byte payload and the device
    node. *)
Example hardware_scenario :
  let s := state_after host_with_evdi
             [CallOpen; CallCreate "c1" "Test" 2560 1440 60000 sample_guid] in
  evdi_available s = true /\
  map (fun e => (device_index (snd e), handle (snd e), drm_fd (snd e),
                 using_evdi (snd e)))
      (virtual_displays s) = [(1, 7001, 5, true)]%Z /\
  map snd (connects (trace s)) = [256%Z] /\
  firstn 1 (trace s) = [SysOpen "/dev/dri/card1" 5].
Proof. vm_compute. repeat split. Qed.

(** For a negative [int] width the two views differ: the synthesizer sees
    4294967295 and writes the extension block, the caller tests -1 and
    declares 128 bytes. *)
Example change_negative_width :
  let s := state_after host_with_evdi
             [CallOpen; CallCreate "c1" "Test" 2560 1440 60000 sample_guid] in
  let s' := snd (changeDisplaySettings host_with_evdi "VIRTUAL-3f2a9c1e"
                   (-1) 0 60000 s) in
  map (fun c => (Edid.descriptor_length (fst c), snd c))
      (connects (new_events s s')) = [(256, 128)]%Z.
Proof. vm_compute. reflexivity. Qed.

(** ** The statements at concrete inputs *)

Lemma create_returns_name_iff_ready_witness :
  let s := state_after host_without_evdi [CallOpen] in
  driver_status s = OK /\
  fst (createVirtualDisplay host_without_evdi "c1" "Test" 1920 1080 60000
         sample_guid s) = "VIRTUAL-3f2a9c1e".
Proof.
  split; [vm_compute; reflexivity|].
  exact (proj1 (proj1 (proj2
    (create_returns_name_iff_ready host_without_evdi "c1" "Test" 1920 1080 60000
       sample_guid (state_after host_without_evdi [CallOpen]))) eq_refl)).
Defined.

Lemma create_passthrough_witness :
  let s := state_after host_without_evdi [CallOpen] in
  driver_status s = OK /\ evdi_available s = false /\
  new_events s
    (snd (createVirtualDisplay host_without_evdi "c1" "Test" 1920 1080 60000
            sample_guid s)) = [].
Proof.
  split; [reflexivity|]. split; [reflexivity|].
  exact (proj1 (proj2 (proj2
    (create_passthrough host_without_evdi "c1" "Test" 1920 1080 60000
       sample_guid (state_after host_without_evdi [CallOpen])
       eq_refl eq_refl)))).
Defined.

Lemma change_unknown_name_is_noop_witness :
  let s := state_after host_with_evdi
             [CallOpen; CallCreate "c1" "Test" 2560 1440 60000 sample_guid] in
  Forall (fun e => name (snd e) <> "nonexistent") (virtual_displays s) /\
  changeDisplaySettings host_with_evdi "nonexistent" 1280 720 60000 s = (0%Z, s).
Proof.
  assert (H : Forall (fun e => name (snd e) <> "nonexistent")
                (virtual_displays (state_after host_with_evdi
                   [CallOpen; CallCreate "c1" "Test" 2560 1440 60000 sample_guid]))).
  { vm_compute. constructor; [intros E; discriminate E|constructor]. }
  split; [exact H|].
  exact (proj1 (change_unknown_name_is_noop host_with_evdi "nonexistent"
                  1280 720 60000 _ H)).
Defined.

Lemma create_existing_guid_replaces_witness :
  let s := state_after host_without_evdi
             [CallOpen; CallCreate "c1" "Test" 1920 1080 60000 sample_guid;
              CallCreate "c2" "Other" 1280 720 30000 other_guid] in
  let old := {| name := "VIRTUAL-3f2a9c1e";
                guid_str := uuid_util.string sample_guid;
                width := 1920; height := 1080; fps := 60000;
                device_index := -1; handle := 0; drm_fd := -1;
                active := true; using_evdi := false |} in
  (driver_status s = OK /\
   StdMap.ascending (virtual_displays s) = true /\
   StdMap.find (uuid_util.string sample_guid) (virtual_displays s) = Some old) /\
  StdMap.size
    (virtual_displays
       (snd (createVirtualDisplay host_without_evdi "c1" "Test" 1280 720 30000
               sample_guid s))) = 2%nat.
Proof.
  split; [split; [|split]; vm_compute; reflexivity|].
  exact (proj1 (proj2 (proj2
    (create_existing_guid_replaces host_without_evdi "c1" "Test" 1280 720 30000
       sample_guid
       (state_after host_without_evdi
          [CallOpen; CallCreate "c1" "Test" 1920 1080 60000 sample_guid;
           CallCreate "c2" "Other" 1280 720 30000 other_guid])
       _ eq_refl eq_refl eq_refl)))).
Defined.

Lemma watchdog_reports_failure_once_witness :
  let s := state_after host_with_evdi session_schedule in
  (watchdog_thread s = Some {| pc := AwaitLock; failCb := Some 0%nat |} /\
   In (EvdiGetEventReady 7001 (-1))
      (new_events s (watchdog_step host_with_evdi s)) /\
   (-1 < 0)%Z) /\
  count_FailCb (new_events s (watchdog_step host_with_evdi s)) = 1%nat /\
  run host_with_evdi session_schedule initial_state = Some s /\
  (count_FailCb (session_events (trace s)) <= 1)%nat.
Proof.
  assert (H1 : watchdog_thread (state_after host_with_evdi session_schedule)
               = Some {| pc := AwaitLock; failCb := Some 0%nat |})
    by (vm_compute; reflexivity).
  assert (H2 : In (EvdiGetEventReady 7001 (-1))
                 (new_events (state_after host_with_evdi session_schedule)
                    (watchdog_step host_with_evdi
                       (state_after host_with_evdi session_schedule))))
    by (vm_compute; right; left; reflexivity).
  assert (H3 : (-1 < 0)%Z) by (vm_compute; reflexivity).
  assert (H4 : run host_with_evdi session_schedule initial_state
               = Some (state_after host_with_evdi session_schedule))
    by (vm_compute; reflexivity).
  split; [exact (conj H1 (conj H2 H3))|].
  split; [|split; [exact H4|]].
  - exact (proj1 (proj2 (proj1 (watchdog_reports_failure_once host_with_evdi)
                    _ _ 0%nat 7001%Z (-1)%Z H1 eq_refl H2 H3))).
  - exact (proj2 (watchdog_reports_failure_once host_with_evdi) _ _ H4).
Defined.

Lemma operations_preserve_record_invariant_witness :
  let s := state_after host_with_evdi
             [CallOpen; CallCreate "c1" "Test" 2560 1440 60000 sample_guid] in
  let a := CallCreate "c2" "Other" 1280 720 30000 other_guid in
  let s' := state_after host_with_evdi
              [CallOpen; CallCreate "c1" "Test" 2560 1440 60000 sample_guid; a] in
  registry_ok (virtual_displays s) /\
  step host_with_evdi a s = Some s' /\
  registry_ok (virtual_displays s').
Proof.
  assert (H1 : run host_with_evdi
                 [CallOpen; CallCreate "c1" "Test" 2560 1440 60000 sample_guid]
                 initial_state
               = Some (state_after host_with_evdi
                   [CallOpen; CallCreate "c1" "Test" 2560 1440 60000 sample_guid]))
    by (vm_compute; reflexivity).
  assert (H2 : step host_with_evdi
                 (CallCreate "c2" "Other" 1280 720 30000 other_guid)
                 (state_after host_with_evdi
                   [CallOpen; CallCreate "c1" "Test" 2560 1440 60000 sample_guid])
               = Some (state_after host_with_evdi
                   [CallOpen; CallCreate "c1" "Test" 2560 1440 60000 sample_guid;
                    CallCreate "c2" "Other" 1280 720 30000 other_guid]))
    by (vm_compute; reflexivity).
  pose proof (proj2 (operations_preserve_record_invariant host_with_evdi) _ _ H1)
    as H3.
  split; [exact H3|]. split; [exact H2|].
  exact (proj1 (operations_preserve_record_invariant host_with_evdi) _ _ _ H3 H2).
Defined.

Lemma failed_watchdog_stays_down_witness :
  let s := state_after host_with_evdi session_schedule in
  let later := [CallStartPing (Some 1%nat);
                CallCreate "c2" "Other" 1280 720 30000 other_guid;
                WatchdogMoves; CallStartPing None] in
  let s2 := state_after host_with_evdi
              (session_schedule ++ WatchdogMoves :: later) in
  (run host_with_evdi session_schedule initial_state = Some s /\
   In (EvdiGetEventReady 7001 (-1))
      (new_events s (watchdog_step host_with_evdi s)) /\
   (-1 < 0)%Z /\
   ~ In CallClose later /\
   run host_with_evdi later (watchdog_step host_with_evdi s) = Some s2) /\
  watchdog_running (watchdog_step host_with_evdi s) = true /\
  watchdog_running s2 = true /\
  startPingThread (Some 2%nat) s2 = Returns true s2.
Proof.
  set (s := state_after host_with_evdi session_schedule).
  set (later := [CallStartPing (Some 1%nat);
                 CallCreate "c2" "Other" 1280 720 30000 other_guid;
                 WatchdogMoves; CallStartPing None]).
  set (s2 := state_after host_with_evdi
               (session_schedule ++ WatchdogMoves :: later)).
  assert (H1 : run host_with_evdi session_schedule initial_state = Some s)
    by (vm_compute; reflexivity).
  assert (H2 : In (EvdiGetEventReady 7001 (-1))
                 (new_events s (watchdog_step host_with_evdi s)))
    by (vm_compute; right; left; reflexivity).
  assert (H3 : (-1 < 0)%Z) by (vm_compute; reflexivity).
  assert (H4 : ~ In CallClose later).
  { intros [H|[H|[H|[H|[]]]]]; discriminate H. }
  assert (H5 : run host_with_evdi later (watchdog_step host_with_evdi s)
               = Some s2) by (vm_compute; reflexivity).
  pose proof (failed_watchdog_stays_down host_with_evdi session_schedule s
                7001%Z (-1)%Z H1 H2 H3) as (Hflag & _ & Hlater).
  destruct (Hlater later s2 H4 H5) as (Hflag2 & _ & _ & Hping & _).
  split; [exact (conj H1 (conj H2 (conj H3 (conj H4 H5))))|].
  split; [exact Hflag|]. split; [exact Hflag2|]. exact (Hping (Some 2%nat)).
Defined.

(** * Further properties of the code *)

Local Open Scope Z_scope.
Local Open Scope list_scope.

(** ** Reading the buffer back *)

Lemma load_store_same (i : nat) (v : Z) (buf : list Z) :
  (i < List.length buf)%nat -> Edid.load i (Edid.store i v buf) = u8 v.
Proof.
  unfold Edid.load. revert buf; induction i as [|i IH]; intros [|b tl] Hlt;
    simpl in *; try lia; try reflexivity.
  apply IH. lia.
Qed.

Lemma load_store_other (i j : nat) (v : Z) (buf : list Z) :
  i <> j -> Edid.load i (Edid.store j v buf) = Edid.load i buf.
Proof.
  unfold Edid.load. revert i j; induction buf as [|b tl IH]; intros i j Hne.
  - destruct j; reflexivity.
  - destruct j as [|j], i as [|i]; simpl; try reflexivity; try congruence.
    apply IH. congruence.
Qed.

Lemma load_store_bytes_other (i off : nat) (vs buf : list Z) :
  (i < off \/ off + List.length vs <= i)%nat ->
  Edid.load i (Edid.store_bytes off vs buf) = Edid.load i buf.
Proof.
  revert off buf; induction vs as [|x vs IH]; intros off buf Hout; simpl in *;
    [reflexivity|].
  rewrite IH by lia. apply load_store_other. lia.
Qed.

Lemma load_dtd_other i fc off w h r buf :
  (i < off \/ off + 18 <= i)%nat ->
  Edid.load i (Edid.create_detailed_timing_descriptor fc off w h r buf)
  = Edid.load i buf.
Proof.
  intros Hout. unfold Edid.create_detailed_timing_descriptor; cbv zeta.
  repeat rewrite load_store_other by lia. reflexivity.
Qed.

Lemma load_checksum_other i off bs buf :
  i <> (off + (bs - 1))%nat ->
  Edid.load i (Edid.calculate_edid_checksum off bs buf) = Edid.load i buf.
Proof. intros. unfold Edid.calculate_edid_checksum. apply load_store_other; lia. Qed.

Lemma store_store_same (i : nat) (v v' : Z) (buf : list Z) :
  Edid.store i v (Edid.store i v' buf) = Edid.store i v buf.
Proof.
  revert i; induction buf as [|b tl IH]; intros [|i]; simpl; try reflexivity.
  f_equal. apply IH.
Qed.

Lemma checksum_loop_ext (edid edid' : list Z) (off n : nat) :
  (forall i, (i < n)%nat -> Edid.load (off + i) edid' = Edid.load (off + i) edid) ->
  fold_left (fun c i => u8 (c + Edid.load (off + i) edid')) (seq 0 n) 0
  = fold_left (fun c i => u8 (c + Edid.load (off + i) edid)) (seq 0 n) 0.
Proof.
  induction n as [|n IH]; intros Hsame; [reflexivity|].
  rewrite seq_S, !fold_left_app. cbn [fold_left Nat.add].
  rewrite IH by (intros; apply Hsame; lia).
  rewrite Hsame by lia. reflexivity.
Qed.

(** X1. [calculate_edid_checksum] on any buffer and any block of at least
    one byte that lies inside it: the buffer keeps its length, only the last
    byte of the block can change, afterwards the bytes of the block add up
    to 0 modulo 256, and a second application changes nothing. *)
Theorem checksum_any_block :
  forall (off bs : nat) (edid : list Z),
    (1 <= bs)%nat ->
    (off + bs <= List.length edid)%nat ->
    let edid' := Edid.calculate_edid_checksum off bs edid in
    List.length edid' = List.length edid /\
    (forall i, i <> (off + (bs - 1))%nat -> Edid.load i edid' = Edid.load i edid) /\
    Edid.sum_bytes (firstn bs (skipn off edid')) mod 256 = 0 /\
    Edid.calculate_edid_checksum off bs edid' = edid'.
Proof.
  intros off bs edid Hbs Hlen edid'. subst edid'.
  split; [apply length_checksum|].
  split; [intros i Hi; apply load_checksum_other; exact Hi|].
  split.
  - unfold Edid.calculate_edid_checksum.
    destruct bs as [|n]; [lia|].
    replace (S n - 1)%nat with n by lia.
    rewrite checksum_loop by lia. rewrite skipn_store_ge.
    rewrite firstn_store_last by (rewrite length_skipn; lia).
    rewrite sum_bytes_app. unfold Edid.sum_bytes at 2. cbn [fold_right].
    unfold u8. Z.div_mod_to_equations. lia.
  - unfold Edid.calculate_edid_checksum at 1.
    rewrite (checksum_loop_ext edid).
    + unfold Edid.calculate_edid_checksum. apply store_store_same.
    + intros i Hi. apply load_checksum_other. lia.
Qed.

(** ** What the descriptor says about the mode *)

Ltac load_skip :=
  repeat first
    [ rewrite load_checksum_other by (simpl; lia)
    | rewrite load_dtd_other by (simpl; lia)
    | rewrite load_store_bytes_other by (simpl; lia)
    | rewrite load_store_other by (simpl; lia) ].

Lemma lor_nibbles (x y : Z) :
  0 <= x < 16 -> 0 <= y < 16 -> Z.lor (Z.shiftl x 4) y = 16 * x + y.
Proof.
  intros Hx Hy.
  assert (Ex : x = 0 \/ x = 1 \/ x = 2 \/ x = 3 \/ x = 4 \/ x = 5 \/ x = 6 \/
               x = 7 \/ x = 8 \/ x = 9 \/ x = 10 \/ x = 11 \/ x = 12 \/
               x = 13 \/ x = 14 \/ x = 15) by lia.
  assert (Ey : y = 0 \/ y = 1 \/ y = 2 \/ y = 3 \/ y = 4 \/ y = 5 \/ y = 6 \/
               y = 7 \/ y = 8 \/ y = 9 \/ y = 10 \/ y = 11 \/ y = 12 \/
               y = 13 \/ y = 14 \/ y = 15) by lia.
  repeat (destruct Ex as [Ex|Ex]; [subst x|]); try subst x;
    repeat (destruct Ey as [Ey|Ey]; [subst y; reflexivity|]);
    subst y; reflexivity.
Qed.

(** The low byte and the high nibble of a 12-bit field, as the descriptor
    stores them, put together again. *)
Lemma twelve_bits (a b : Z) :
  u8 (Z.land a 255)
  + 256 * (u8 (Z.lor (Z.shiftl (Z.land (Z.shiftr a 8) 15) 4)
                     (Z.land (Z.shiftr b 8) 15)) / 16)
  = a mod 4096.
Proof.
  change 255 with (Z.ones 8). change 15 with (Z.ones 4).
  rewrite !Z.land_ones, !Z.shiftr_div_pow2 by lia.
  change (2 ^ 8) with 256. change (2 ^ 4) with 16.
  rewrite lor_nibbles by (apply Z.mod_pos_bound; lia).
  unfold u8. Z.div_mod_to_equations. lia.
Qed.

Lemma generate_edid_dtd_bytes fc w h r :
  let edid := Edid.generate_edid_for_resolution fc w h r in
  let t := Edid.timing_for fc w h r in
  Edid.load 56 edid = u8 (Z.land w 255) /\
  Edid.load 58 edid
  = u8 (Z.lor (Z.shiftl (Z.land (Z.shiftr w 8) 15) 4)
              (Z.land (Z.shiftr (Edid.h_blank t) 8) 15)) /\
  Edid.load 59 edid = u8 (Z.land h 255) /\
  Edid.load 61 edid
  = u8 (Z.lor (Z.shiftl (Z.land (Z.shiftr h 8) 15) 4)
              (Z.land (Z.shiftr (Edid.v_blank t) 8) 15)).
Proof.
  cbv zeta. unfold Edid.generate_edid_for_resolution; cbv zeta.
  destruct (Edid.needs_extension w h); [destruct (3840 <=? w)|];
    repeat split; load_skip;
    unfold Edid.create_detailed_timing_descriptor; cbv zeta;
    cbn [Nat.add]; load_skip;
    (rewrite load_store_same; [reflexivity|edid_length; simpl; lia]).
Qed.

(** X2. The preferred timing of every synthesized descriptor names the
    requested mode: the 12-bit horizontal and vertical active fields of the
    first detailed timing descriptor (bytes 56/58 and 59/61) decode to width
    mod 4096 and height mod 4096, so to the requested width and height
    whenever these are below 4096. *)
Theorem preferred_timing_encodes_resolution :
  forall (fc : Edid.FloatCasts) (w h r : Z),
    let edid := Edid.generate_edid_for_resolution fc w h r in
    Edid.load 56 edid + 256 * (Edid.load 58 edid / 16) = w mod 4096 /\
    Edid.load 59 edid + 256 * (Edid.load 61 edid / 16) = h mod 4096.
Proof.
  intros fc w h r edid. subst edid.
  destruct (generate_edid_dtd_bytes fc w h r) as (H56 & H58 & H59 & H61).
  cbv zeta in *. rewrite H56, H58, H59, H61.
  split; apply twelve_bits.
Qed.

Lemma skipn_store_at (a j : nat) (v : Z) (buf : list Z) :
  (a <= j)%nat ->
  skipn a (Edid.store j v buf) = Edid.store (j - a) v (skipn a buf).
Proof.
  intros Hle. replace j with (a + (j - a))%nat at 1 by lia.
  apply skipn_store_ge.
Qed.

Lemma skipn_store_bytes_at (a off : nat) (vs buf : list Z) :
  (a <= off)%nat ->
  skipn a (Edid.store_bytes off vs buf)
  = Edid.store_bytes (off - a) vs (skipn a buf).
Proof.
  revert off buf; induction vs as [|x vs IH]; intros off buf Hle; simpl;
    [reflexivity|].
  rewrite IH by lia. rewrite skipn_store_at by lia.
  replace (S off - a)%nat with (S (off - a)) by lia. reflexivity.
Qed.

(** X3. The identity of the monitor does not depend on the requested mode:
    for every width, height and refresh rate the first 54 bytes (the EDID
    magic 00 FF FF FF FF FF FF 00, manufacturer, product, serial, date,
    version 1.4, input, size, gamma, features, chromaticity, established and
    standard timings) and the descriptors in bytes 72 to 125 (the name
    "APOLLO VDISP" ended by a newline, the range limits and the dummy
    descriptor) are the same; nothing written for the timing, the extension
    flag, the checksums or the extension block reaches them. *)
Theorem edid_identity_is_fixed :
  forall (fc : Edid.FloatCasts) (w h r : Z),
    let edid := Edid.generate_edid_for_resolution fc w h r in
    firstn 54 edid
    = [0; 255; 255; 255; 255; 255; 255; 0; 6; 76; 1; 0; 1; 0; 0; 0; 1; 34;
       1; 4; 181; 60; 34; 120; 58; 252; 129; 164; 85; 77; 157; 37; 18; 80;
       84; 33; 8; 0; 209; 192; 179; 0; 169; 192; 129; 128; 129; 192;
       1; 1; 1; 1; 1; 1] /\
    firstn 54 (skipn 72 edid)
    = ([0; 0; 0; 252; 0] ++ Edid.c_chars "APOLLO VDISP" ++ [10]
       ++ [0; 0; 0; 253; 0; 24; 120; 15; 160; 120; 0; 10; 32; 32; 32; 32; 32; 32]
       ++ [0; 0; 0; 16; 0] ++ repeat 32 13)%list.
Proof.
  intros fc w h r edid. subst edid.
  unfold Edid.generate_edid_for_resolution; cbv zeta.
  split.
  - destruct (Edid.needs_extension w h); [destruct (3840 <=? w)|];
      repeat first
        [ rewrite firstn_checksum_ge by (simpl; lia)
        | rewrite firstn_dtd_ge by (simpl; lia)
        | rewrite firstn_store_bytes_ge by (simpl; lia)
        | rewrite firstn_store_ge by (simpl; lia) ];
      vm_compute; reflexivity.
  - rewrite firstn_skipn_comm.
    destruct (Edid.needs_extension w h); [destruct (3840 <=? w)|];
      repeat first
        [ rewrite firstn_checksum_ge by (simpl; lia)
        | rewrite firstn_dtd_ge by (simpl; lia)
        | rewrite firstn_store_bytes_ge by (simpl; lia)
        | rewrite firstn_store_ge by (simpl; lia) ];
      rewrite <- firstn_skipn_comm;
      repeat first
        [ rewrite skipn_store_bytes_at by (simpl; lia)
        | rewrite skipn_store_at by (simpl; lia) ];
      rewrite skipn_dtd_lt by (simpl; lia);
      repeat first
        [ rewrite skipn_store_bytes_lt by (simpl; lia)
        | rewrite skipn_store_lt by (simpl; lia) ];
      vm_compute; reflexivity.
Qed.

(** ** Removing displays *)

Section EraseFacts.
Variable V : Type.
Implicit Types (k : string) (v : V) (m : StdMap.t V).

Lemma erase_absent k m : StdMap.find k m = None -> StdMap.erase k m = m.
Proof.
  induction m as [|[k' v'] rest IH]; simpl; [reflexivity|].
  destruct (String.eqb k k'); [discriminate|].
  intros H. f_equal. apply IH. exact H.
Qed.

Lemma erase_assign_absent k v m :
  StdMap.find k m = None -> StdMap.erase k (StdMap.assign k v m) = m.
Proof.
  induction m as [|[k' v'] rest IH]; simpl.
  - rewrite String.eqb_refl. reflexivity.
  - destruct (String.eqb k k') eqn:He; [discriminate|]. intros Hnone.
    destruct (String.compare k k') eqn:Hc; simpl.
    + rewrite (compare_Eq_eqb _ _ Hc) in He. discriminate.
    + rewrite String.eqb_refl. reflexivity.
    + rewrite He. f_equal. apply IH. exact Hnone.
Qed.

Lemma size_erase_present k v m :
  StdMap.find k m = Some v -> S (StdMap.size (StdMap.erase k m)) = StdMap.size m.
Proof.
  unfold StdMap.size. induction m as [|[k' v'] rest IH]; simpl; [discriminate|].
  destruct (String.eqb k k'); [reflexivity|].
  intros H. simpl. f_equal. apply IH. exact H.
Qed.

Lemma find_erase_other k k0 m :
  k0 <> k -> StdMap.find k0 (StdMap.erase k m) = StdMap.find k0 m.
Proof.
  intros Hne. induction m as [|[k' v'] rest IH]; simpl; [reflexivity|].
  destruct (String.eqb k k') eqn:He.
  - apply String.eqb_eq in He. subst k'.
    apply String.eqb_neq in Hne. rewrite Hne. reflexivity.
  - simpl. rewrite IH. reflexivity.
Qed.

Lemma find_below_none k m :
  Forall (fun e => String.ltb k (fst e) = true) m -> StdMap.find k m = None.
Proof.
  induction 1 as [|[k' v'] rest Hlt _ IH]; simpl; [reflexivity|].
  simpl in Hlt. rewrite (ltb_eqb_false _ _ Hlt). exact IH.
Qed.

Lemma find_erase_same k m :
  StdMap.ascending m = true -> StdMap.find k (StdMap.erase k m) = None.
Proof.
  induction m as [|[k' v'] rest IH]; intros Hasc; simpl; [reflexivity|].
  apply ascending_cons in Hasc. destruct Hasc as [Hall Hasc].
  destruct (String.eqb k k') eqn:He.
  - apply String.eqb_eq in He. subst k'. apply find_below_none. exact Hall.
  - simpl. rewrite He. apply IH. exact Hasc.
Qed.

End EraseFacts.

Lemma release_record_calls (vd : VirtualDisplayInfo) (s : state) :
  release_record false vd s = set_trace (release_calls vd ++ trace s) s.
Proof.
  unfold release_record, release_calls. cbn [andb].
  destruct (using_evdi vd && negb (handle vd =? 0));
    destruct (0 <=? drm_fd vd); cbn [app];
    try reflexivity. symmetry. apply set_trace_same.
Qed.

(** X4. [removeVirtualDisplay] returns true exactly when the UUID string is
    a key of the registry.  For an unknown UUID the state is unchanged.  For
    a known one the entry is erased: the registry has one record less, every
    other key keeps its record, the key is gone, and the calls made are those
    that release the erased record, in the order disconnect, close of the
    handle (only for a hardware-backed record with a handle), close of the
    descriptor (only when it is not negative). *)
Theorem remove_erases_and_releases :
  forall (guid : uuid_util.uuid_t) (s : state),
    StdMap.ascending (virtual_displays s) = true ->
    let k := uuid_util.string guid in
    let r := removeVirtualDisplay guid s in
    (fst r = true <-> StdMap.find k (virtual_displays s) <> None) /\
    (StdMap.find k (virtual_displays s) = None -> snd r = s) /\
    (forall vd, StdMap.find k (virtual_displays s) = Some vd ->
       S (StdMap.size (virtual_displays (snd r)))
       = StdMap.size (virtual_displays s) /\
       StdMap.find k (virtual_displays (snd r)) = None /\
       (forall k0, k0 <> k ->
          StdMap.find k0 (virtual_displays (snd r))
          = StdMap.find k0 (virtual_displays s)) /\
       new_events s (snd r) = release_calls vd).
Proof.
  intros guid s Hasc k r. subst k r. unfold removeVirtualDisplay.
  destruct (StdMap.find (uuid_util.string guid) (virtual_displays s))
    as [vd|] eqn:Hfind; cbn [fst snd].
  - split; [split; [discriminate|reflexivity]|].
    split; [discriminate|].
    intros vd' Heq. injection Heq as <-.
    rewrite release_record_calls.
    cbn [virtual_displays set_virtual_displays set_trace].
    split; [eapply size_erase_present; eauto|].
    split; [apply find_erase_same; exact Hasc|].
    split; [intros k0 Hk0; apply find_erase_other; exact Hk0|].
    apply new_events_app. reflexivity.
  - split; [split; [discriminate|congruence]|].
    split; [reflexivity|]. discriminate.
Qed.

(** ** The driver, continued *)

Lemma hd_error_app_some {A : Type} (l1 l2 : list A) (x : A) :
  hd_error l1 = Some x -> hd_error (l1 ++ l2) = Some x.
Proof. destruct l1; simpl; [discriminate|auto]. Qed.

Section LifecycleFacts.
Variable P : Platform.

(** *** The slot search *)

Lemma find_from_bounded (slots : list Z) (s : state) :
  Forall (fun i => 0 <= i) slots ->
  exists new,
    after_calls new s (snd (find_available_evdi_device_from P slots s)) /\
    forallb is_probe new = true /\
    (List.length (filter is_check new) <= List.length slots)%nat /\
    (List.length (filter is_add new) <= List.length (filter is_check new))%nat /\
    (fst (find_available_evdi_device_from P slots s) = -1 ->
     List.length (filter is_check new) = List.length slots /\
     (forall i st, In (EvdiCheckDevice i st) new -> st <> EVDI_AVAILABLE) /\
     (forall res, In (EvdiAddDevice res) new -> res < 0)) /\
    (0 <= fst (find_available_evdi_device_from P slots s) ->
     hd_error new
     = Some (EvdiCheckDevice (fst (find_available_evdi_device_from P slots s))
               EVDI_AVAILABLE) \/
     hd_error new
     = Some (EvdiAddDevice (fst (find_available_evdi_device_from P slots s)))).
Proof.
  revert s; induction slots as [|i rest IH]; intros s Hall;
    cbn [find_available_evdi_device_from].
  - exists []. cbn [fst snd]. split; [apply after_calls_refl|].
    split; [reflexivity|]. split; [apply Nat.le_refl|]. split; [apply Nat.le_refl|].
    split; [intros _; split; [reflexivity|split; [intros ? ? []|intros ? []]]|].
    intros H; lia.
  - inversion Hall as [|? ? Hi Hrest]; subst.
    destruct (evdi_check_device P (trace s) i) eqn:Hstatus.
    + exists [EvdiCheckDevice i EVDI_AVAILABLE]. cbn [fst snd].
      split; [reflexivity|]. split; [reflexivity|].
      split; [simpl; lia|]. split; [simpl; lia|].
      split; [intros; lia|]. intros _. left; reflexivity.
    + destruct (IH (emit (EvdiCheckDevice i EVDI_UNRECOGNIZED) s) Hrest)
        as (new & Hcalls & Hq & Hck & Hadd & Hnone & Hsome).
      exists (new ++ [EvdiCheckDevice i EVDI_UNRECOGNIZED]).
      split; [apply after_calls_step; exact Hcalls|].
      split; [rewrite forallb_app, Hq; reflexivity|].
      rewrite !filter_app, !length_app. cbn [filter is_check is_add List.length].
      split; [lia|]. split; [lia|]. split.
      * intros Hm. destruct (Hnone Hm) as (Hlen & Hav & Hneg).
        split; [lia|]. split.
        -- intros j st Hin. apply in_app_or in Hin. destruct Hin as [Hin|[Heq|[]]].
           ++ eapply Hav; eauto.
           ++ injection Heq as <- <-. discriminate.
        -- intros res Hin. apply in_app_or in Hin. destruct Hin as [Hin|[Heq|[]]].
           ++ eapply Hneg; eauto.
           ++ discriminate Heq.
      * intros Hge. destruct (Hsome Hge) as [Hh|Hh]; [left|right];
          apply hd_error_app_some; exact Hh.
    + match goal with
      | |- context [if 0 <=? ?x then _ else _] => set (res := x)
      end.
      destruct (0 <=? res) eqn:Hres.
      * exists [EvdiAddDevice res; EvdiCheckDevice i EVDI_NOT_PRESENT].
        cbn [fst snd].
        split; [reflexivity|]. split; [reflexivity|].
        split; [simpl; lia|]. split; [simpl; lia|].
        split; [intros Hm; apply Z.leb_le in Hres; lia|].
        intros _. right; reflexivity.
      * match goal with
        | |- context [find_available_evdi_device_from P rest ?s2] =>
            destruct (IH s2 Hrest)
              as (new & Hcalls & Hq & Hck & Hadd & Hnone & Hsome)
        end.
        exists (new ++ [EvdiAddDevice res; EvdiCheckDevice i EVDI_NOT_PRESENT]).
        split; [eapply after_calls_trans; [|exact Hcalls]; reflexivity|].
        split; [rewrite forallb_app, Hq; reflexivity|].
        rewrite !filter_app, !length_app. cbn [filter is_check is_add List.length].
        split; [lia|]. split; [lia|]. split.
        -- intros Hm. destruct (Hnone Hm) as (Hlen & Hav & Hneg).
           split; [lia|]. split.
           ++ intros j st Hin. apply in_app_or in Hin.
              destruct Hin as [Hin|[Heq|[Heq|[]]]].
              ** eapply Hav; eauto.
              ** discriminate Heq.
              ** injection Heq as <- <-. discriminate.
           ++ intros r0 Hin. apply in_app_or in Hin.
              destruct Hin as [Hin|[Heq|[Heq|[]]]].
              ** eapply Hneg; eauto.
              ** injection Heq as <-. apply Z.leb_gt. exact Hres.
              ** discriminate Heq.
        -- intros Hge. destruct (Hsome Hge) as [Hh|Hh]; [left|right];
             apply hd_error_app_some; exact Hh.
Qed.

Lemma slots_nonneg : Forall (fun i => 0 <= i) (map Z.of_nat (seq 0 16)).
Proof. apply Forall_forall. intros i Hi. apply in_map_iff in Hi.
  destruct Hi as (n & <- & _). lia. Qed.

(** X5. [find_available_evdi_device] only calls [check_device] and
    [add_device]: at most 16 checks, and at most one add per check.  It
    returns -1 or a non-negative device.  It returns -1 only after all 16
    slots were checked, none was available and every add failed; a device it
    returns is the slot of its last check, which answered available, or the
    result of its last add. *)
Theorem slot_search_bounded :
  forall (s : state),
    let r := find_available_evdi_device P s in
    let new := new_events s (snd r) in
    after_calls new s (snd r) /\
    forallb is_probe new = true /\
    (List.length (filter is_check new) <= 16)%nat /\
    (List.length (filter is_add new) <= List.length (filter is_check new))%nat /\
    (fst r = -1 \/ 0 <= fst r) /\
    (fst r = -1 ->
     List.length (filter is_check new) = 16%nat /\
     (forall i st, In (EvdiCheckDevice i st) new -> st <> EVDI_AVAILABLE) /\
     (forall res, In (EvdiAddDevice res) new -> res < 0)) /\
    (0 <= fst r ->
     hd_error new = Some (EvdiCheckDevice (fst r) EVDI_AVAILABLE) \/
     hd_error new = Some (EvdiAddDevice (fst r))).
Proof.
  intros s r new. subst r new. unfold find_available_evdi_device.
  destruct (find_from_bounded (map Z.of_nat (seq 0 16)) s slots_nonneg)
    as (new & Hcalls & Hq & Hck & Hadd & Hnone & Hsome).
  rewrite (new_events_after new) by exact Hcalls.
  split; [exact Hcalls|]. split; [exact Hq|].
  split; [exact Hck|]. split; [exact Hadd|].
  split; [apply find_from_slot; exact slots_nonneg|].
  split; [exact Hnone|exact Hsome].
Qed.

(** *** Creating displays *)

Lemma probes_no_sys_open (l : list event) :
  forallb is_probe l = true -> filter is_sys_open l = [].
Proof.
  induction l as [|e l IH]; simpl; [reflexivity|].
  rewrite andb_true_iff. intros [He Hl].
  destruct e; simpl in *; try discriminate; auto.
Qed.

(** X6. With the driver ready, [createVirtualDisplay] stores a
    hardware-backed record exactly when hardware mode is on, the slot search
    returns a device and [evdi.open] returns a handle that is not null.  Then
    the record carries that device, that handle and the descriptor that
    [open] returned for "/dev/dri/card<device>", and after the slot search
    the calls are, in this order, the open, one connect and the opening of
    the device node.  In every other case the record is the passthrough
    record and the call neither connects nor opens a device node. *)
Theorem create_hardware_or_fallback :
  forall (uid cname : string) (w h f : Z) (guid : uuid_util.uuid_t) (s : state),
    driver_status s = OK ->
    let r := createVirtualDisplay P uid cname w h f guid s in
    let new := new_events s (snd r) in
    let device := fst (find_available_evdi_device P s) in
    let hd := evdi_open P (trace (snd (find_available_evdi_device P s))) device in
    exists vd,
      StdMap.find (uuid_util.string guid) (virtual_displays (snd r)) = Some vd /\
      (using_evdi vd = true <->
       evdi_available s = true /\ 0 <= device /\ hd <> 0) /\
      (using_evdi vd = true ->
       handle vd = hd /\ device_index vd = device /\
       exists probes,
         forallb is_probe probes = true /\
         new = SysOpen ("/dev/dri/card" ++ to_string device) (drm_fd vd)
               :: EvdiConnect hd
                    (Edid.generate_edid_for_resolution (float_casts P) w h (f / 1000))
                    (if (1920 <? w) || (1080 <? h) then 256 else 128) 0
               :: EvdiOpen device hd :: probes) /\
      (using_evdi vd = false ->
       handle vd = 0 /\ device_index vd = -1 /\ drm_fd vd = -1 /\
       connects new = [] /\ filter is_sys_open new = []).
Proof.
  intros uid cname w h f guid s Hok r new device hd. subst r new device hd.
  unfold createVirtualDisplay. rewrite Hok.
  destruct (evdi_available s) eqn:Hav.
  - unfold find_available_evdi_device.
    destruct (find_from_calls P (map Z.of_nat (seq 0 16)) s)
      as (probes & Hcalls & Hprobes).
    destruct (find_available_evdi_device_from P (map Z.of_nat (seq 0 16)) s)
      as [device s1].
    cbn [fst snd] in *. unfold after_calls in Hcalls. subst s1.
    destruct (0 <=? device) eqn:Hdev.
    + set (s1 := set_trace (probes ++ trace s) s).
      set (hd := evdi_open P (trace s1) device).
      destruct (hd =? 0) eqn:Hnull; cbn [negb].
      * eexists. cbn [snd virtual_displays set_virtual_displays].
        split; [apply find_assign|]. cbn [using_evdi handle device_index drm_fd].
        split; [split; [discriminate|]|].
        { intros (_ & _ & Hnz). apply Z.eqb_eq in Hnull. contradiction. }
        split; [discriminate|]. intros _.
        rewrite (new_events_app (EvdiOpen device hd :: probes)) by reflexivity.
        repeat split.
        -- simpl. apply probes_no_connect. exact Hprobes.
        -- simpl. apply probes_no_sys_open. exact Hprobes.
      * eexists. cbn [snd virtual_displays set_virtual_displays].
        split; [apply find_assign|]. cbn [using_evdi handle device_index drm_fd].
        split; [split; [intros _|reflexivity]|].
        { split; [reflexivity|]. split; [apply Z.leb_le; exact Hdev|].
          apply Z.eqb_neq. exact Hnull. }
        split; [|discriminate]. intros _.
        split; [reflexivity|]. split; [reflexivity|].
        exists probes. split; [exact Hprobes|].
        apply new_events_app. reflexivity.
    + eexists. cbn [snd virtual_displays set_virtual_displays].
      split; [apply find_assign|]. cbn [using_evdi handle device_index drm_fd].
      split; [split; [discriminate|]|].
      { intros (_ & Hge & _). apply Z.leb_gt in Hdev. lia. }
      split; [discriminate|]. intros _.
      rewrite (new_events_app probes) by reflexivity.
      repeat split.
      * apply probes_no_connect. exact Hprobes.
      * apply probes_no_sys_open. exact Hprobes.
  - eexists. cbn [snd virtual_displays set_virtual_displays].
    split; [apply find_assign|]. cbn [using_evdi handle device_index drm_fd].
    split; [split; [discriminate|intros (Hf & _); discriminate Hf]|].
    split; [discriminate|]. intros _.
    rewrite (new_events_app []) by reflexivity. repeat split.
Qed.

(** X7. A display created for a UUID that is not yet a key makes the
    registry one record larger, and removing it again gives back the
    registry as it was: [removeVirtualDisplay] returns true and every key
    has the record it had before the creation. *)
Theorem create_then_remove_restores :
  forall (uid cname : string) (w h f : Z) (guid : uuid_util.uuid_t) (s : state),
    driver_status s = OK ->
    StdMap.find (uuid_util.string guid) (virtual_displays s) = None ->
    let s1 := snd (createVirtualDisplay P uid cname w h f guid s) in
    let r := removeVirtualDisplay guid s1 in
    StdMap.size (virtual_displays s1) = S (StdMap.size (virtual_displays s)) /\
    fst r = true /\
    virtual_displays (snd r) = virtual_displays s.
Proof.
  intros uid cname w h f guid s Hok Hnone s1 r. subst s1 r.
  destruct (create_spec P uid cname w h f guid s Hok) as (vd & new & Heq & _).
  rewrite Heq. cbn [snd]. unfold removeVirtualDisplay.
  cbn [virtual_displays set_virtual_displays set_trace].
  rewrite find_assign. cbn [fst snd].
  split; [apply size_assign_absent; exact Hnone|].
  split; [reflexivity|].
  rewrite release_record_calls.
  cbn [virtual_displays set_virtual_displays set_trace].
  apply erase_assign_absent. exact Hnone.
Qed.

(** *** Loading the library *)

Lemma dlopen_first_shape (names : list string) (s : state) :
  names <> [] ->
  exists new n lib,
    dlopen_first P names s
    = set_evdi_lib_handle lib (set_trace (new ++ trace s) s) /\
    hd_error new = Some (Dlopen n lib) /\ In n names /\
    forallb is_dlopen new = true /\
    (List.length new <= List.length names)%nat /\
    (forall n' lib', In (Dlopen n' lib') (tl new) -> lib' = 0) /\
    (forall n' lib', In (Dlopen n' lib') new -> In n' names).
Proof.
  revert s; induction names as [|n rest IH]; intros s Hne; [congruence|].
  cbn [dlopen_first].
  set (lib := dlopen P (trace s) n).
  destruct (lib =? 0) eqn:Hlib.
  - destruct rest as [|n2 rest2].
    + exists [Dlopen n lib], n, lib. cbn [dlopen_first].
      split; [reflexivity|]. split; [reflexivity|]. split; [left; reflexivity|].
      split; [reflexivity|]. split; [simpl; lia|]. split; [intros ? ? []|].
      intros n0 l0 [Heq0|[]]. injection Heq0 as <- _. left; reflexivity.
    + destruct (IH (set_evdi_lib_handle lib (emit (Dlopen n lib) s)))
        as (new & n' & lib' & Heq & Hhd & Hin & Hq & Hlen & Htl & Hnm);
        [discriminate|].
      exists (new ++ [Dlopen n lib]), n', lib'.
      split.
      { rewrite Heq. cbn [trace set_evdi_lib_handle emit].
        rewrite <- app_assoc. reflexivity. }
      split; [apply hd_error_app_some; exact Hhd|].
      split; [right; exact Hin|].
      split; [rewrite forallb_app, Hq; reflexivity|].
      split; [rewrite length_app; simpl in *; lia|].
      split.
      * intros n0 l0 Hin0. destruct new as [|e new']; [discriminate Hhd|].
        cbn [tl app] in *. apply in_app_or in Hin0.
        destruct Hin0 as [Hin0|[Heq0|[]]]; [eapply Htl; eauto|].
        injection Heq0 as _ <-. apply Z.eqb_eq. exact Hlib.
      * intros n0 l0 Hin0. apply in_app_or in Hin0.
        destruct Hin0 as [Hin0|[Heq0|[]]]; [right; eapply Hnm; eauto|].
        injection Heq0 as <- _. left; reflexivity.
  - exists [Dlopen n lib], n, lib.
    split; [reflexivity|]. split; [reflexivity|]. split; [left; reflexivity|].
    split; [reflexivity|]. split; [simpl; lia|]. split; [intros ? ? []|].
    intros n0 l0 [Heq0|[]]. injection Heq0 as <- _. left; reflexivity.
Qed.

Lemma load_evdi_funcs_shape (names : list string) (s : state) :
  exists syms,
    forallb is_dlsym syms = true /\
    (forall l sym fn, In (Dlsym l sym fn) syms -> l = evdi_lib_handle s) /\
    (fst (load_evdi_funcs P names s) = true ->
     snd (load_evdi_funcs P names s) = set_trace (syms ++ trace s) s /\
     List.length syms = List.length names /\
     (forall l sym fn, In (Dlsym l sym fn) syms -> fn <> 0)) /\
    (fst (load_evdi_funcs P names s) = false ->
     snd (load_evdi_funcs P names s)
     = set_evdi_lib_handle 0
         (set_trace (Dlclose (evdi_lib_handle s) :: syms ++ trace s) s)).
Proof.
  revert s; induction names as [|n rest IH]; intros s; cbn [load_evdi_funcs].
  - exists []. cbn [fst snd]. split; [reflexivity|]. split; [intros ? ? ? []|].
    split; [|discriminate]. intros _.
    split; [symmetry; apply set_trace_same|]. split; [reflexivity|intros ? ? ? []].
  - set (fn := dlsym P (trace s) (evdi_lib_handle s) ("evdi_" ++ n)%string).
    destruct (fn =? 0) eqn:Hfn.
    + exists [Dlsym (evdi_lib_handle s) ("evdi_" ++ n)%string fn]. cbn [fst snd].
      split; [reflexivity|]. split.
      { intros l sym f0 [Heq|[]]. injection Heq as <- _ _. reflexivity. }
      split; [discriminate|]. intros _. reflexivity.
    + destruct (IH (emit (Dlsym (evdi_lib_handle s) ("evdi_" ++ n)%string fn) s))
        as (syms & Hq & Hlib & Hok & Hfail).
      exists (syms ++ [Dlsym (evdi_lib_handle s) ("evdi_" ++ n)%string fn]).
      split; [rewrite forallb_app, Hq; reflexivity|]. split.
      { intros l sym f0 Hin. apply in_app_or in Hin.
        destruct Hin as [Hin|[Heq|[]]]; [exact (Hlib _ _ _ Hin)|].
        injection Heq as <- _ _. reflexivity. }
      split.
      * intros Ht. destruct (Hok Ht) as (Heq & Hlen & Hnz).
        rewrite Heq. split.
        { cbn [trace emit set_trace]. rewrite <- app_assoc. reflexivity. }
        split; [rewrite length_app; simpl; lia|].
        intros l sym f0 Hin. apply in_app_or in Hin.
        destruct Hin as [Hin|[Heq0|[]]]; [exact (Hnz _ _ _ Hin)|].
        injection Heq0 as _ _ <-. apply Z.eqb_neq. exact Hfn.
      * intros Hf. rewrite (Hfail Hf).
        cbn [trace emit set_trace evdi_lib_handle]. rewrite <- app_assoc.
        reflexivity.
Qed.

(** What the loader does to a table that is not loaded. *)
Lemma load_evdi_library_facts :
  forall (s : state),
    evdi_loaded s = false ->
    let r := load_evdi_library P s in
    let new := new_events s (snd r) in
    (fst r = true ->
     evdi_loaded (snd r) = true /\ evdi_lib_handle (snd r) <> 0 /\
     hd_error new = Some EvdiGetLibVersion /\
     List.length (filter is_dlsym new) = 13%nat /\
     (forall l sym fn, In (Dlsym l sym fn) new ->
        l = evdi_lib_handle (snd r) /\ fn <> 0) /\
     (forall l, ~ In (Dlclose l) new)) /\
    (fst r = false ->
     evdi_loaded (snd r) = false /\ evdi_lib_handle (snd r) = 0 /\
     (forall n lib, In (Dlopen n lib) new -> lib <> 0 -> In (Dlclose lib) new)) /\
    (List.length (filter is_dlopen new) <= 6)%nat /\
    (forall n lib, In (Dlopen n lib) new -> In n lib_names) /\
    background s (snd r) /\
    driver_status (snd r) = driver_status s /\
    evdi_available (snd r) = evdi_available s.
Proof.
  intros s Hnot r new.
  assert (Hbg : background s (snd r)) by apply load_evdi_library_background.
  subst r new. unfold load_evdi_library in *. rewrite Hnot in *.
  destruct (dlopen_first_shape lib_names s)
    as (opens & n & lib & Heq & Hhd & Hin & Hq & Hlen & Htl & Hnames);
    [discriminate|].
  assert (Hopens : forall n0 l0, In (Dlopen n0 l0) opens -> l0 <> 0 -> l0 = lib).
  { intros n0 l0 Hin0 Hnz. destruct opens as [|e opens']; [destruct Hin0|].
    injection Hhd as ->. destruct Hin0 as [Heq0|Hin0];
      [injection Heq0 as _ <-; reflexivity|].
    specialize (Htl _ _ Hin0). contradiction. }
  rewrite Heq in *. cbn [evdi_lib_handle set_evdi_lib_handle] in *.
  destruct (lib =? 0) eqn:Hlib.
  - cbn [fst snd] in *.
    rewrite (new_events_app (Dlerror :: opens)) by reflexivity.
    split; [discriminate|]. split.
    { intros _. split; [exact Hnot|]. split; [apply Z.eqb_eq; exact Hlib|].
      intros n0 l0 [Heq0|Hin0] Hnz; [discriminate Heq0|].
      apply Z.eqb_eq in Hlib. specialize (Hopens _ _ Hin0 Hnz). congruence. }
    split.
    { cbn [filter is_dlopen]. clear -Hq Hlen.
      assert (Hf : filter is_dlopen opens = opens).
      { induction opens as [|e o IH]; simpl in *; [reflexivity|].
        apply andb_true_iff in Hq. destruct Hq as [He Ho].
        rewrite He. f_equal. apply IH; [exact Ho|lia]. }
      rewrite Hf. exact Hlen. }
    split.
    { intros n0 l0 [Heq0|Hin0]; [discriminate Heq0|]. eapply Hnames; eauto. }
    split; [exact Hbg|]. split; reflexivity.
  - set (s1 := set_evdi_lib_handle lib (set_trace (opens ++ trace s) s)) in *.
    destruct (load_evdi_funcs_shape evdi_funcs s1)
      as (syms & Hsq & Hslib & Hsok & Hsfail).
    assert (Hfo : filter is_dlopen (syms ++ opens) = opens).
    { rewrite filter_app. clear -Hq Hsq.
      assert (H1 : filter is_dlopen syms = []).
      { induction syms as [|e l IH]; simpl in *; [reflexivity|].
        apply andb_true_iff in Hsq. destruct Hsq as [He Hl].
        destruct e; simpl in *; try discriminate. auto. }
      assert (H2 : filter is_dlopen opens = opens).
      { induction opens as [|e o IH]; simpl in *; [reflexivity|].
        apply andb_true_iff in Hq. destruct Hq as [He Ho].
        rewrite He. f_equal. apply IH; exact Ho. }
      rewrite H1, H2. reflexivity. }
    assert (Hfs : filter is_dlsym (syms ++ opens) = syms).
    { rewrite filter_app. clear -Hq Hsq.
      assert (H1 : filter is_dlsym syms = syms).
      { induction syms as [|e l IH]; simpl in *; [reflexivity|].
        apply andb_true_iff in Hsq. destruct Hsq as [He Hl].
        rewrite He. f_equal. auto. }
      assert (H2 : filter is_dlsym opens = []).
      { induction opens as [|e o IH]; simpl in *; [reflexivity|].
        apply andb_true_iff in Hq. destruct Hq as [He Ho].
        destruct e; simpl in *; try discriminate. auto. }
      rewrite H1, H2. apply app_nil_r. }
    destruct (load_evdi_funcs P evdi_funcs s1) as [[|] s2]; cbn [fst snd] in *.
    + destruct (Hsok eq_refl) as (-> & Hslen & Hsnz).
      cbn [evdi_loaded evdi_lib_handle set_evdi_loaded emit set_trace s1
           set_evdi_lib_handle].
      rewrite (new_events_app (EvdiGetLibVersion :: syms ++ opens))
        by (cbn; rewrite <- app_assoc; reflexivity).
      split.
      { intros _. split; [reflexivity|]. split; [apply Z.eqb_neq; exact Hlib|].
        split; [reflexivity|].
        split; [cbn [filter is_dlsym]; rewrite Hfs; exact Hslen|].
        split.
        - intros l sym fn [Heq0|Hin0]; [discriminate Heq0|].
          apply in_app_or in Hin0. destruct Hin0 as [Hin0|Hin0].
          + split; [exact (Hslib _ _ _ Hin0)|exact (Hsnz _ _ _ Hin0)].
          + exfalso. clear -Hq Hin0.
            rewrite forallb_forall in Hq. specialize (Hq _ Hin0). discriminate.
        - intros l [Heq0|Hin0]; [discriminate Heq0|].
          apply in_app_or in Hin0. destruct Hin0 as [Hin0|Hin0].
          + rewrite forallb_forall in Hsq. specialize (Hsq _ Hin0). discriminate.
          + rewrite forallb_forall in Hq. specialize (Hq _ Hin0). discriminate. }
      split; [discriminate|].
      split; [cbn [filter is_dlopen]; rewrite Hfo; exact Hlen|].
      split.
      { intros n0 l0 [Heq0|Hin0]; [discriminate Heq0|].
        apply in_app_or in Hin0. destruct Hin0 as [Hin0|Hin0].
        - rewrite forallb_forall in Hsq. specialize (Hsq _ Hin0). discriminate.
        - eapply Hnames; eauto. }
      split; [exact Hbg|]. split; reflexivity.
    + specialize (Hsfail eq_refl). subst s2.
      cbn [evdi_loaded evdi_lib_handle set_evdi_loaded emit set_trace s1
           set_evdi_lib_handle].
      rewrite (new_events_app (Dlclose lib :: syms ++ opens))
        by (cbn; rewrite <- app_assoc; reflexivity).
      split; [discriminate|]. split.
      { intros _. split; [exact Hnot|]. split; [reflexivity|].
        intros n0 l0 [Heq0|Hin0] Hnz; [discriminate Heq0|].
        apply in_app_or in Hin0. destruct Hin0 as [Hin0|Hin0].
        - rewrite forallb_forall in Hsq. specialize (Hsq _ Hin0). discriminate.
        - left. f_equal. symmetry. eapply Hopens; eauto. }
      split; [cbn [filter is_dlopen]; rewrite Hfo; exact Hlen|].
      split.
      { intros n0 l0 [Heq0|Hin0]; [discriminate Heq0|].
        apply in_app_or in Hin0. destruct Hin0 as [Hin0|Hin0].
        - rewrite forallb_forall in Hsq. specialize (Hsq _ Hin0). discriminate.
        - eapply Hnames; eauto. }
      split; [exact Hbg|]. split; reflexivity.
Qed.

(** X8. [load_evdi_library] on a table that is not loaded never leaves a
    partial binding.  When it returns true, a library was opened, all
    thirteen symbols were looked up in it and none was null, nothing was
    closed, the version was queried last, and the table is marked loaded
    with a handle that is not null.  When it returns false the table is not
    loaded, its handle is null, and a library that had been opened has been
    closed again.  It tries at most the six library names, stops at the
    first that opens, and touches nothing but the table and the trace. *)
Theorem loader_all_or_nothing :
  forall (s : state),
    evdi_loaded s = false ->
    let r := load_evdi_library P s in
    let new := new_events s (snd r) in
    (fst r = true ->
     evdi_loaded (snd r) = true /\ evdi_lib_handle (snd r) <> 0 /\
     hd_error new = Some EvdiGetLibVersion /\
     List.length (filter is_dlsym new) = 13%nat /\
     (forall l sym fn, In (Dlsym l sym fn) new ->
        l = evdi_lib_handle (snd r) /\ fn <> 0) /\
     (forall l, ~ In (Dlclose l) new)) /\
    (fst r = false ->
     evdi_loaded (snd r) = false /\ evdi_lib_handle (snd r) = 0 /\
     (forall n lib, In (Dlopen n lib) new -> lib <> 0 -> In (Dlclose lib) new)) /\
    (List.length (filter is_dlopen new) <= 6)%nat /\
    (forall n lib, In (Dlopen n lib) new -> In n lib_names) /\
    background s (snd r) /\
    driver_status (snd r) = driver_status s /\
    evdi_available (snd r) = evdi_available s.
Proof. exact load_evdi_library_facts. Qed.

(** *** Closing the driver *)

Lemma release_calls_are_releases (vd : VirtualDisplayInfo) :
  forallb is_release (release_calls vd) = true.
Proof.
  unfold release_calls.
  destruct (0 <=? drm_fd vd); destruct (using_evdi vd && negb (handle vd =? 0));
    reflexivity.
Qed.

Lemma release_all_calls (records : StdMap.t VirtualDisplayInfo) (s : state) :
  exists rel,
    release_all records s = set_trace (rel ++ trace s) s /\
    forallb is_release rel = true /\
    (forall k vd, In (k, vd) records -> active vd = true ->
       forall e, In e (release_calls vd) -> In e rel) /\
    (forall e, In e rel ->
       exists k vd, In (k, vd) records /\ active vd = true /\
                    In e (release_calls vd)).
Proof.
  revert s; induction records as [|[k vd] rest IH]; intros s; cbn [release_all].
  - exists []. split; [symmetry; apply set_trace_same|].
    split; [reflexivity|]. split; [intros ? ? []|intros ? []].
  - assert (Hrec : release_record true vd s
                   = set_trace ((if active vd then release_calls vd else [])
                                ++ trace s) s).
    { unfold release_record at 1. cbn [andb].
      destruct (active vd); cbn [negb].
      - apply (release_record_calls vd s).
      - symmetry. apply set_trace_same. }
    rewrite Hrec.
    destruct (IH (set_trace ((if active vd then release_calls vd else [])
                             ++ trace s) s))
      as (rel & Heq & Hq & Hall & Honly).
    exists (rel ++ (if active vd then release_calls vd else [])).
    split; [rewrite Heq; cbn [trace set_trace]; rewrite <- app_assoc; reflexivity|].
    split.
    { rewrite forallb_app, Hq.
      destruct (active vd); [apply release_calls_are_releases|reflexivity]. }
    split.
    + intros k0 vd0 [Heq0|Hin0] Hact e He; apply in_or_app.
      * injection Heq0 as <- <-. right. rewrite Hact. exact He.
      * left. eapply Hall; eauto.
    + intros e He. apply in_app_or in He. destruct He as [He|He].
      * destruct (Honly e He) as (k0 & vd0 & Hin0 & Hact & Hrel).
        exists k0, vd0. split; [right; exact Hin0|auto].
      * destruct (active vd) eqn:Hact; [|destruct He].
        exists k, vd. split; [left; reflexivity|auto].
Qed.

(** What a returning [closeVDisplayDevice] has done. *)
Lemma close_facts :
  forall (s s' : state),
    closeVDisplayDevice s = Returns tt s' ->
    let new := new_events s s' in
    (virtual_displays s' = [] /\ driver_status s' = UNKNOWN /\
     watchdog_running s' = false /\ watchdog_thread s' = None /\
     evdi_loaded s' = false /\ evdi_lib_handle s' = 0 /\
     evdi_available s' = evdi_available s) /\
    (forall k vd, In (k, vd) (virtual_displays s) -> active vd = true ->
       forall e, In e (release_calls vd) -> In e new) /\
    (forall e, In e new -> is_release e = true ->
       exists k vd, In (k, vd) (virtual_displays s) /\ active vd = true /\
                    In e (release_calls vd)) /\
    (evdi_lib_handle s <> 0 ->
     hd_error new = Some (Dlclose (evdi_lib_handle s))) /\
    (evdi_lib_handle s = 0 -> forall l, ~ In (Dlclose l) new) /\
    (watchdog_thread s = None -> virtual_displays s = [] ->
     evdi_lib_handle s = 0 -> new = []).
Proof.
  intros s s' Hclose new. subst new.
  assert (Hshape : exists j,
    (j = [] \/ j = [ThreadJoin]) /\ (watchdog_thread s = None -> j = []) /\
    s' = set_driver_status UNKNOWN
           (unload_evdi_library
              (set_virtual_displays StdMap.empty
                 (release_all (virtual_displays s)
                    (set_trace (j ++ trace s)
                       (set_watchdog_thread None
                          (set_watchdog_running false s))))))).
  { unfold closeVDisplayDevice in Hclose.
    cbn [watchdog_thread set_watchdog_running] in Hclose.
    destruct (watchdog_thread s) as [t|] eqn:Hthr.
    - destruct (pc t); try discriminate; injection Hclose as <-;
        exists [ThreadJoin]; (split; [right; reflexivity|]);
        (split; [discriminate|reflexivity]).
    - injection Hclose as <-. exists [].
      split; [left; reflexivity|]. split; [reflexivity|].
      cbn [app]. destruct s; cbn in *. subst. reflexivity. }
  destruct Hshape as (j & Hj & Hnone & ->).
  set (sj := set_trace (j ++ trace s)
               (set_watchdog_thread None (set_watchdog_running false s))).
  destruct (release_all_calls (virtual_displays s) sj)
    as (rel & Hrel & Hq & Hall & Honly).
  rewrite Hrel. unfold unload_evdi_library.
  cbn [evdi_lib_handle set_virtual_displays set_trace sj set_watchdog_thread
       set_watchdog_running trace].
  assert (Hjq : forall e, In e j -> is_release e = false /\
                                    (forall l, e <> Dlclose l)).
  { intros e He. destruct Hj as [->| ->]; [destruct He|].
    destruct He as [<-|[]]. split; [reflexivity|discriminate]. }
  destruct (evdi_lib_handle s =? 0) eqn:Hlib.
  - rewrite (new_events_app (rel ++ j))
      by (cbn; rewrite <- app_assoc; reflexivity).
    split; [repeat split; cbn; apply Z.eqb_eq; exact Hlib|].
    split; [intros k vd Hin Hact e He; apply in_or_app; left; eapply Hall; eauto|].
    split.
    { intros e He Hr. apply in_app_or in He. destruct He as [He|He];
        [apply Honly; exact He|].
      destruct (Hjq e He) as [Hf _]. congruence. }
    split; [intros Hnz; apply Z.eqb_eq in Hlib; contradiction|].
    split.
    { intros _ l Hin. apply in_app_or in Hin. destruct Hin as [Hin|Hin].
      - rewrite forallb_forall in Hq. specialize (Hq _ Hin). discriminate.
      - destruct (Hjq _ Hin) as [_ Hne]. eapply Hne; reflexivity. }
    intros Hthr Hreg _. rewrite (Hnone Hthr), app_nil_r.
    destruct rel as [|e rel']; [reflexivity|].
    destruct (Honly e (or_introl eq_refl)) as (k & vd & Hin & _).
    rewrite Hreg in Hin. destruct Hin.
  - rewrite (new_events_app (Dlclose (evdi_lib_handle s) :: rel ++ j))
      by (cbn; rewrite <- app_assoc; reflexivity).
    split; [repeat split|].
    split; [intros k vd Hin Hact e He; right; apply in_or_app; left;
            eapply Hall; eauto|].
    split.
    { intros e [<-|He] Hr; [discriminate Hr|].
      apply in_app_or in He. destruct He as [He|He]; [apply Honly; exact He|].
      destruct (Hjq e He) as [Hf _]. congruence. }
    split; [intros _; reflexivity|].
    split; [intros Hz; apply Z.eqb_neq in Hlib; contradiction|].
    intros _ _ Hz. apply Z.eqb_neq in Hlib. contradiction.
Qed.

(** X9. When [closeVDisplayDevice] returns, the registry is empty, the
    state is [UNKNOWN], the watchdog flag is false, there is no thread
    object, and the table is unloaded with a null handle; [evdi_available]
    is left as it was.  Every active record had its resources released
    (disconnect and close of a handle that is not null, close of a
    descriptor that is not negative), and nothing else was released.  A
    library that was open is closed by the last call, after all releases.
    From a state without thread, records and library no call is made. *)
Theorem close_releases_everything :
  forall (s s' : state),
    closeVDisplayDevice s = Returns tt s' ->
    let new := new_events s s' in
    (virtual_displays s' = [] /\ driver_status s' = UNKNOWN /\
     watchdog_running s' = false /\ watchdog_thread s' = None /\
     evdi_loaded s' = false /\ evdi_lib_handle s' = 0 /\
     evdi_available s' = evdi_available s) /\
    (forall k vd, In (k, vd) (virtual_displays s) -> active vd = true ->
       forall e, In e (release_calls vd) -> In e new) /\
    (forall e, In e new -> is_release e = true ->
       exists k vd, In (k, vd) (virtual_displays s) /\ active vd = true /\
                    In e (release_calls vd)) /\
    (evdi_lib_handle s <> 0 ->
     hd_error new = Some (Dlclose (evdi_lib_handle s))) /\
    (evdi_lib_handle s = 0 -> forall l, ~ In (Dlclose l) new) /\
    (watchdog_thread s = None -> virtual_displays s = [] ->
     evdi_lib_handle s = 0 -> new = []).
Proof. exact close_facts. Qed.

(** *** Starting and stopping the watchdog *)

(** A set flag comes with a thread object: the flag is only set where the
    thread is started, and the thread is only given up where the flag is
    cleared. *)
Lemma step_flag_has_thread (a : action) (s s' : state) :
  step P a s = Some s' ->
  (watchdog_running s = true -> watchdog_thread s <> None) ->
  watchdog_running s' = true -> watchdog_thread s' <> None.
Proof.
  intros Hstep IH Hflag.
  destruct (step_shape P a s s' Hstep)
    as [(m & sX & -> & (Hr1 & Ht1 & _) & _)
       |[(-> & Hclose)|[(cb0 & -> & _ & _ & ->)|(-> & ->)]]].
  - cbn [watchdog_running watchdog_thread set_virtual_displays] in *.
    rewrite Ht1. apply IH. congruence.
  - destruct (close_spec _ _ _ Hclose) as (Hr2 & _). congruence.
  - discriminate.
  - unfold watchdog_step in *.
    destruct (watchdog_thread s) as [t|] eqn:Hthr;
      [|intros _; exact (IH Hflag eq_refl)].
    destruct (pc t).
    + destruct (watchdog_running s); discriminate.
    + destruct (negb (watchdog_running s)); discriminate.
    + destruct (watchdog_scan P (virtual_displays s) s) as [[|] s1];
        [destruct (failCb t)|]; discriminate.
    + rewrite Hthr. discriminate.
Qed.

Lemma run_flag_has_thread (schedule : list action) (s s' : state) :
  run P schedule s = Some s' ->
  (watchdog_running s = true -> watchdog_thread s <> None) ->
  watchdog_running s' = true -> watchdog_thread s' <> None.
Proof.
  revert s; induction schedule as [|a rest IH]; intros s; cbn [run].
  - intros Heq. injection Heq as <-. auto.
  - destruct (step P a s) as [s1|] eqn:Hstep; [|discriminate].
    intros Hrun Hs. apply (IH s1 Hrun).
    eapply step_flag_has_thread; eauto.
Qed.

(** X10. In every state the driver reaches from its initial state,
    [startPingThread] returns, and returns true: the assignment to the
    thread object never meets a joinable thread (which would call
    [std::terminate]).  Afterwards the flag is set and a thread object
    exists; if the flag was already set, nothing is changed. *)
Theorem start_ping_always_returns :
  forall (schedule : list action) (s : state) (cb : option nat),
    run P schedule initial_state = Some s ->
    exists s',
      startPingThread cb s = Returns true s' /\
      watchdog_running s' = true /\ watchdog_thread s' <> None /\
      (watchdog_running s = true -> s' = s) /\
      (watchdog_running s = false ->
       watchdog_thread s' = Some {| pc := LoopHead; failCb := cb |} /\
       new_events s s' = [ThreadSpawn]).
Proof.
  intros schedule s cb Hrun.
  assert (Hs : session_ok s)
    by (apply (run_preserves P _ _ _ Hrun), initial_session_ok).
  destruct Hs as (_ & _ & Hflag).
  unfold startPingThread. destruct (watchdog_running s) eqn:Hr.
  - exists s. split; [reflexivity|]. split; [exact Hr|].
    split; [|split; [reflexivity|discriminate]].
    apply (run_flag_has_thread _ _ _ Hrun); [discriminate|exact Hr].
  - cbn [watchdog_thread set_watchdog_running].
    destruct (watchdog_thread s) as [t|] eqn:Hthr.
    + assert (Hne : Some t <> None) by discriminate.
      specialize (Hflag Hne). congruence.
    + eexists. split; [reflexivity|]. split; [reflexivity|].
      split; [discriminate|]. split; [discriminate|]. intros _.
      split; [reflexivity|]. apply new_events_app. reflexivity.
Qed.


(** *** Reconfiguring, matching and looking up displays *)

Lemma change_first_hit (n : string) (w h r : Z)
    (records : StdMap.t VirtualDisplayInfo) (s : state) :
  Exists (fun e => name (snd e) = n) records ->
  exists pre k vd post,
    records = pre ++ (k, vd) :: post /\
    Forall (fun e => name (snd e) <> n) pre /\ name vd = n /\
    change_first P n w h r records s
    = (true, pre ++ (k, with_geometry w h r vd) :: post,
       set_trace
         ((if using_evdi vd && negb (handle vd =? 0)
           then [EvdiConnect (handle vd)
                   (Edid.generate_edid_for_resolution (float_casts P)
                      (u32 w) (u32 h) (u32 (Z.quot r 1000)))
                   (if (1920 <? w) || (1080 <? h) then 256 else 128) 0;
                 EvdiDisconnect (handle vd)]
           else []) ++ trace s) s).
Proof.
  induction records as [|[k vd] rest IH]; intros Hex; [inversion Hex|].
  cbn [change_first].
  destruct (String.eqb (name vd) n) eqn:Hname.
  - apply String.eqb_eq in Hname.
    exists [], k, vd, rest. split; [reflexivity|]. split; [constructor|].
    split; [exact Hname|]. cbn [app]. unfold with_geometry.
    destruct (using_evdi vd && negb (handle vd =? 0)); cbn [app];
      [reflexivity|]. rewrite set_trace_same. reflexivity.
  - apply String.eqb_neq in Hname.
    inversion Hex as [? ? Hhd|? ? Htl]; subst; [contradiction|].
    destruct (IH Htl) as (pre & k0 & vd0 & post & -> & Hpre & Hn & Heq).
    rewrite Heq. exists ((k, vd) :: pre), k0, vd0, post.
    split; [reflexivity|]. split; [constructor; assumption|].
    split; [exact Hn|reflexivity].
Qed.

(** X12. When some record carries the display name,
    [changeDisplaySettings] returns 0 and rewrites exactly one record: the
    first one in key order with that name.  It gets the new width, height
    and refresh rate (converted to [uint32_t]) and keeps every other field;
    all other records, the keys and the rest of the state stay as they were.
    A hardware-backed record with a handle is disconnected and then
    connected again with the descriptor for the new mode; for any other
    record no call is made. *)
Theorem change_rewrites_first_match :
  forall (n : string) (w h r : Z) (s : state),
    Exists (fun e => name (snd e) = n) (virtual_displays s) ->
    exists pre k vd post,
      virtual_displays s = pre ++ (k, vd) :: post /\
      Forall (fun e => name (snd e) <> n) pre /\ name vd = n /\
      changeDisplaySettings P n w h r s
      = (0, set_virtual_displays (pre ++ (k, with_geometry w h r vd) :: post)
              (set_trace
                 ((if using_evdi vd && negb (handle vd =? 0)
                   then [EvdiConnect (handle vd)
                           (Edid.generate_edid_for_resolution (float_casts P)
                              (u32 w) (u32 h) (u32 (Z.quot r 1000)))
                           (if (1920 <? w) || (1080 <? h) then 256 else 128) 0;
                         EvdiDisconnect (handle vd)]
                   else []) ++ trace s) s)).
Proof.
  intros n w h r s Hex.
  destruct (change_first_hit n w h r (virtual_displays s) s Hex)
    as (pre & k & vd & post & Hsplit & Hpre & Hn & Heq).
  exists pre, k, vd, post. split; [exact Hsplit|]. split; [exact Hpre|].
  split; [exact Hn|]. unfold changeDisplaySettings. rewrite Heq. reflexivity.
Qed.

Lemma prefix_refl (x : string) : String.prefix x x = true.
Proof.
  induction x as [|a x IH]; [reflexivity|]. simpl.
  destruct (ascii_dec a a); [exact IH|congruence].
Qed.

Lemma contains_refl (x : string) : contains x x = true.
Proof.
  unfold contains. destruct x as [|a x]; [reflexivity|].
  cbn [String.index]. rewrite prefix_refl. reflexivity.
Qed.

Lemma contains_virtual (x : string) :
  contains "VIRTUAL-" ("VIRTUAL-" ++ x)%string = true.
Proof.
  unfold contains. cbn [String.append String.index].
  rewrite (proj2 (String.prefix_correct _ _)); [reflexivity|].
  destruct x; reflexivity.
Qed.

Lemma contains_empty (x : string) : contains "" x = true.
Proof. destruct x; reflexivity. Qed.

(** X13. [matchDisplay] returns the names of the active records whose name
    contains the pattern, and nothing else.  So a display that
    [createVirtualDisplay] has just created is listed for every pattern its
    name contains, in particular for its own name, for the tag "VIRTUAL-"
    and for the empty pattern. *)
Theorem match_lists_created :
  (forall (p n : string) (s : state),
      In n (fst (matchDisplay p s)) <->
      exists e, In e (virtual_displays s) /\ name (snd e) = n /\
                active (snd e) = true /\ contains p n = true) /\
  (forall (uid cname : string) (w h f : Z) (guid : uuid_util.uuid_t) (s : state),
      driver_status s = OK ->
      let r := createVirtualDisplay P uid cname w h f guid s in
      (forall p, contains p (fst r) = true ->
                 In (fst r) (fst (matchDisplay p (snd r)))) /\
      In (fst r) (fst (matchDisplay (fst r) (snd r))) /\
      In (fst r) (fst (matchDisplay "VIRTUAL-" (snd r))) /\
      In (fst r) (fst (matchDisplay "" (snd r)))).
Proof.
  assert (Hgen : forall (p n : string) (s : state),
      In n (fst (matchDisplay p s)) <->
      exists e, In e (virtual_displays s) /\ name (snd e) = n /\
                active (snd e) = true /\ contains p n = true).
  { intros p n s. unfold matchDisplay. cbn [fst].
    rewrite in_map_iff. split.
    - intros (e & Hn & Hin). apply filter_In in Hin. destruct Hin as [Hin Hf].
      apply andb_true_iff in Hf. destruct Hf as [Ha Hc].
      exists e. subst n. auto.
    - intros (e & Hin & Hn & Ha & Hc). exists e. split; [exact Hn|].
      apply filter_In. split; [exact Hin|]. subst n. rewrite Ha, Hc. reflexivity. }
  split; [exact Hgen|].
  intros uid cname w h f guid s Hok r. subst r.
  destruct (create_spec P uid cname w h f guid s Hok)
    as (vd & new & Heq & (Hn & _ & _ & _ & _ & Ha) & _).
  rewrite Heq. cbn [fst snd].
  assert (Hin : forall p, contains p (generate_display_name guid) = true ->
      In (generate_display_name guid)
         (fst (matchDisplay p
            (set_virtual_displays
               (StdMap.assign (uuid_util.string guid) vd (virtual_displays s))
               (set_trace (new ++ trace s) s))))).
  { intros p Hc. apply Hgen. exists (uuid_util.string guid, vd).
    cbn [virtual_displays set_virtual_displays snd].
    split; [|auto].
    clear. induction (virtual_displays s) as [|[k' v'] rest IH]; simpl.
    - left; reflexivity.
    - destruct (String.compare (uuid_util.string guid) k');
        [left; reflexivity|left; reflexivity|right; exact IH]. }
  split; [exact Hin|].
  split; [apply Hin, contains_refl|].
  split; [apply Hin, contains_virtual|apply Hin, contains_empty].
Qed.

(** X14. With the record invariant, [getEvdiCardIndex] returns -1 or a
    non-negative index, and a non-negative one exactly when some record
    with that name is hardware-backed; [isEvdiDisplay] answers true exactly
    when hardware mode is on and [getEvdiCardIndex] is not negative. *)
Theorem card_index_consistent :
  forall (n : string) (s : state),
    registry_ok (virtual_displays s) ->
    let i := fst (getEvdiCardIndex n s) in
    (i = -1 \/ 0 <= i) /\
    (0 <= i <->
     Exists (fun e => name (snd e) = n /\ using_evdi (snd e) = true)
       (virtual_displays s)) /\
    (fst (isEvdiDisplay n s) = true <-> evdi_available s = true /\ 0 <= i).
Proof.
  intros n s Hreg i. subst i.
  assert (Hfind :
    (exists e, List.find (fun e => String.eqb (name (snd e)) n && using_evdi (snd e))
                 (virtual_displays s) = Some e /\
               0 <= device_index (snd e) /\
               Exists (fun e => name (snd e) = n /\ using_evdi (snd e) = true)
                 (virtual_displays s) /\
               existsb (fun e => String.eqb (name (snd e)) n && using_evdi (snd e))
                 (virtual_displays s) = true) \/
    (List.find (fun e => String.eqb (name (snd e)) n && using_evdi (snd e))
       (virtual_displays s) = None /\
     ~ Exists (fun e => name (snd e) = n /\ using_evdi (snd e) = true)
         (virtual_displays s) /\
     existsb (fun e => String.eqb (name (snd e)) n && using_evdi (snd e))
       (virtual_displays s) = false)).
  { induction Hreg as [|e rest He Hrest IH]; cbn [List.find existsb].
    - right. split; [reflexivity|]. split; [intros H; inversion H|reflexivity].
    - destruct (String.eqb (name (snd e)) n && using_evdi (snd e)) eqn:Hm.
      + left. exists e. apply andb_true_iff in Hm. destruct Hm as [Hn Hu].
        apply String.eqb_eq in Hn.
        split; [reflexivity|]. split; [apply He; exact Hu|].
        split; [left; auto|reflexivity].
      + assert (Hnot : ~ (name (snd e) = n /\ using_evdi (snd e) = true)).
        { intros [Hn Hu]. apply String.eqb_eq in Hn. rewrite Hn, Hu in Hm.
          discriminate. }
        destruct IH as [(e' & Hf & Hge & Hex & Hb)|(Hf & Hex & Hb)].
        * left. exists e'. split; [exact Hf|]. split; [exact Hge|].
          split; [right; exact Hex|exact Hb].
        * right. split; [exact Hf|]. split; [|exact Hb].
          intros H; inversion H; subst; contradiction. }
  unfold getEvdiCardIndex, isEvdiDisplay.
  destruct Hfind as [(e & Hf & Hge & Hex & Hb)|(Hf & Hex & Hb)];
    rewrite Hf; cbn [fst].
  - split; [right; exact Hge|]. split; [split; auto|].
    destruct (evdi_available s); cbn [negb fst].
    + rewrite Hb. split; auto.
    + split; [discriminate|intros [Hd _]; discriminate].
  - split; [left; reflexivity|]. split; [split; [lia|contradiction]|].
    destruct (evdi_available s); cbn [negb fst].
    + rewrite Hb. split; [discriminate|intros [_ Hd]; lia].
    + split; [discriminate|intros [Hd _]; discriminate].
Qed.

End LifecycleFacts.

Section BindingFacts.
Variable P : Platform.

(** *** How status, hardware mode, loader and registry hang together *)

Lemma calls_within_refl (Q : event -> bool) (s s' : state) :
  trace s' = trace s -> calls_within Q s s'.
Proof. intros H. exists []. split; [exact H|reflexivity]. Qed.

Lemma calls_within_trans (Q : event -> bool) (s1 s2 s3 : state) :
  calls_within Q s1 s2 -> calls_within Q s2 s3 -> calls_within Q s1 s3.
Proof.
  intros (n1 & H1 & Q1) (n2 & H2 & Q2). exists (n2 ++ n1).
  split; [rewrite H2, H1; apply app_assoc|].
  rewrite forallb_app, Q1, Q2. reflexivity.
Qed.

Lemma calls_within_emit (Q : event -> bool) (e : event) (s s' : state) :
  Q e = true -> trace s' = e :: trace s -> calls_within Q s s'.
Proof.
  intros HQ H. exists [e]. split; [exact H|]. cbn. rewrite HQ. reflexivity.
Qed.

Lemma dlopen_first_loader_calls (names : list string) (s : state) :
  calls_within is_loader_call s (dlopen_first P names s).
Proof.
  revert s; induction names as [|n rest IH]; intros s; cbn [dlopen_first].
  - apply calls_within_refl. reflexivity.
  - destruct (dlopen P (trace s) n =? 0).
    + eapply calls_within_trans; [|apply IH].
      eapply calls_within_emit; [|reflexivity]. reflexivity.
    + eapply calls_within_emit; [|reflexivity]. reflexivity.
Qed.

Lemma load_evdi_funcs_loader_calls (names : list string) (s : state) :
  calls_within is_loader_call s (snd (load_evdi_funcs P names s)).
Proof.
  revert s; induction names as [|n rest IH]; intros s; cbn [load_evdi_funcs].
  - apply calls_within_refl. reflexivity.
  - destruct (dlsym P (trace s) (evdi_lib_handle s) ("evdi_" ++ n) =? 0);
      cbn [snd].
    + exists [Dlclose (evdi_lib_handle s);
              Dlsym (evdi_lib_handle s) ("evdi_" ++ n)
                (dlsym P (trace s) (evdi_lib_handle s) ("evdi_" ++ n))].
      split; reflexivity.
    + eapply calls_within_trans; [|apply IH].
      eapply calls_within_emit; [|reflexivity]. reflexivity.
Qed.

Lemma load_evdi_library_loader_calls (s : state) :
  calls_within is_loader_call s (snd (load_evdi_library P s)).
Proof.
  unfold load_evdi_library.
  destruct (evdi_loaded s); [apply calls_within_refl; reflexivity|].
  pose proof (dlopen_first_loader_calls lib_names s) as H1.
  destruct (evdi_lib_handle (dlopen_first P lib_names s) =? 0).
  - eapply calls_within_trans; [exact H1|].
    eapply calls_within_emit; [|reflexivity]. reflexivity.
  - pose proof (load_evdi_funcs_loader_calls evdi_funcs
                  (dlopen_first P lib_names s)) as H2.
    destruct (load_evdi_funcs P evdi_funcs (dlopen_first P lib_names s))
      as [ok s2].
    cbn [snd] in H2.
    eapply calls_within_trans; [exact H1|].
    eapply calls_within_trans; [exact H2|].
    destruct ok; cbn [snd].
    + eapply calls_within_emit; [|reflexivity]. reflexivity.
    + apply calls_within_refl. reflexivity.
Qed.

(** The module check only adds its own calls to the trace. *)
Lemma check_module_calls (s : state) :
  exists new,
    after_calls new s (snd (check_evdi_module_loaded P s)) /\
    forallb is_loader_call new = true.
Proof.
  unfold check_evdi_module_loaded.
  destruct (existsb (contains "evdi") (proc_modules P (trace s))).
  - exists [ReadProcModules]. split; reflexivity.
  - exists [ExistsSysModuleEvdi (sys_module_evdi P (trace (emit ReadProcModules s)));
            ReadProcModules].
    destruct (sys_module_evdi P (trace (emit ReadProcModules s))) as [[|]|];
      split; reflexivity.
Qed.

(** What [openVDisplayDevice] leaves behind when the driver was not ready:
    the state of the loader, with hardware mode on only if it succeeded;
    the driver state is [OK], or untouched when the module check threw. *)
Lemma open_facts (s : state) :
  driver_status s <> OK ->
  exists st avail new,
    snd (openVDisplayDevice P s)
    = set_driver_status st
        (set_evdi_available avail
           (set_trace (new ++ trace (snd (load_evdi_library P s)))
              (snd (load_evdi_library P s)))) /\
    (st = OK \/ st = driver_status s) /\
    forallb is_loader_call new = true /\
    (avail = true -> fst (load_evdi_library P s) = true).
Proof.
  intros Hne. unfold openVDisplayDevice.
  pose proof (load_evdi_library_status P s) as Hst1.
  destruct (load_evdi_library P s) as [ld s1]. cbn [fst snd] in *.
  assert (Hbody :
    exists st avail new,
      snd (if evdi_available (set_evdi_available ld s1)
           then let '(present, s0) :=
                  check_evdi_module_loaded P (set_evdi_available ld s1) in
                match present with
                | Some true => (Some (driver_status (set_driver_status OK s0)),
                                set_driver_status OK s0)
                | Some false =>
                    (Some (driver_status
                             (set_driver_status OK (set_evdi_available false s0))),
                     set_driver_status OK (set_evdi_available false s0))
                | None => (None, s0)
                end
           else (Some (driver_status
                         (set_driver_status OK (set_evdi_available ld s1))),
                 set_driver_status OK (set_evdi_available ld s1)))
      = set_driver_status st
          (set_evdi_available avail (set_trace (new ++ trace s1) s1)) /\
      (st = OK \/ st = driver_status s) /\
      forallb is_loader_call new = true /\ (avail = true -> ld = true)).
  { destruct ld; cbn [evdi_available set_evdi_available].
    - destruct (check_module_calls (set_evdi_available true s1))
        as (new & Hcalls & Hq).
      destruct (check_evdi_module_loaded P (set_evdi_available true s1))
        as [[[|]|] s2]; cbn [snd] in Hcalls |- *; rewrite Hcalls.
      + exists OK, true, new. split; [reflexivity|].
        split; [left; reflexivity|]. split; [exact Hq|auto].
      + exists OK, false, new. split; [reflexivity|].
        split; [left; reflexivity|]. split; [exact Hq|auto].
      + exists (driver_status s), true, new.
        split; [rewrite <- Hst1; destruct s1; reflexivity|].
        split; [right; reflexivity|]. split; [exact Hq|auto].
    - exists OK, false, []. cbn [snd app].
      split; [rewrite set_trace_same; reflexivity|].
      split; [left; reflexivity|]. split; [reflexivity|discriminate]. }
  destruct (driver_status s); try contradiction; exact Hbody.
Qed.

Lemma load_fields (s : state) :
  (evdi_loaded s = true -> evdi_lib_handle s <> 0) ->
  let r := load_evdi_library P s in
  (fst r = true -> evdi_loaded (snd r) = true) /\
  (evdi_loaded (snd r) = true -> evdi_lib_handle (snd r) <> 0) /\
  virtual_displays (snd r) = virtual_displays s.
Proof.
  intros Hinv r. subst r.
  destruct (evdi_loaded s) eqn:Hl.
  - unfold load_evdi_library. rewrite Hl. cbn [fst snd]. auto.
  - pose proof (load_evdi_library_facts P s Hl) as H. cbv zeta in H.
    destruct H as (Ht & Hf & _ & _ & Hbg & _).
    split; [intros Hr; apply Ht; exact Hr|].
    split; [|apply Hbg].
    intros Hld. destruct (fst (load_evdi_library P s)) eqn:Hr.
    + apply Ht. reflexivity.
    + destruct (Hf eq_refl) as [Hno _]. congruence.
Qed.

Lemma open_binding (s : state) :
  binding_ok s -> binding_ok (snd (openVDisplayDevice P s)).
Proof.
  intros Hb.
  destruct (driver_status s) eqn:Hst;
    try (unfold openVDisplayDevice; rewrite Hst; exact Hb).
  all: assert (Hne : driver_status s <> OK) by congruence.
  all: destruct (open_facts s Hne) as (st & avail & new & -> & _ & _ & Hav).
  all: destruct Hb as (Hreg & _ & Hh & _).
  all: destruct (load_fields s Hh) as (Hld & Hh' & Hvd).
  all: unfold binding_ok;
    cbn [driver_status evdi_available evdi_loaded evdi_lib_handle
         virtual_displays set_driver_status set_evdi_available set_trace].
  all: split; [intros _; rewrite Hvd; apply Hreg; exact Hne|].
  all: split; [intros _ Ha; apply Hld, Hav, Ha|].
  all: split; [exact Hh'|].
  all: rewrite Hvd, (Hreg Hne); intros H; inversion H.
Qed.

Lemma Exists_assign {V : Type} (Q : string * V -> Prop) k v (m : StdMap.t V) :
  Exists Q (StdMap.assign k v m) -> Q (k, v) \/ Exists Q m.
Proof.
  induction m as [|[k' v'] m IH]; cbn [StdMap.assign].
  - intros H. inversion H; subst; [left; assumption|inversion H1].
  - destruct (String.compare k k').
    + intros H. inversion H; subst; [left; assumption|right; right; assumption].
    + intros H. inversion H; subst; [left; assumption|right; assumption].
    + intros H. inversion H; subst; [right; left; assumption|].
      destruct (IH H1); [left; assumption|right; right; assumption].
Qed.

Lemma Exists_erase {V : Type} (Q : string * V -> Prop) k (m : StdMap.t V) :
  Exists Q (StdMap.erase k m) -> Exists Q m.
Proof.
  induction m as [|[k' v'] m IH]; cbn [StdMap.erase]; [auto|].
  destruct (String.eqb k k'); [intros H; right; exact H|].
  intros H. inversion H; subst; [left; assumption|right; auto].
Qed.

Lemma find_In {V : Type} k (v : V) (m : StdMap.t V) :
  StdMap.find k m = Some v -> In (k, v) m.
Proof.
  induction m as [|[k' v'] m IH]; cbn [StdMap.find]; [discriminate|].
  destruct (String.eqb k k') eqn:Hk.
  - intros [= ->]. apply String.eqb_eq in Hk. subst. left; reflexivity.
  - intros H. right; auto.
Qed.

Lemma hardware_In (k : string) (vd : VirtualDisplayInfo)
    (m : StdMap.t VirtualDisplayInfo) :
  In (k, vd) m -> using_evdi vd = true ->
  Exists (fun e => using_evdi (snd e) = true) m.
Proof. intros Hin Hu. apply Exists_exists. exists (k, vd). auto. Qed.

Lemma release_calls_hardware (vd : VirtualDisplayInfo) (e : event) :
  In e (release_calls vd) -> is_evdi_call e = true -> using_evdi vd = true.
Proof.
  unfold release_calls. intros Hin He.
  destruct (using_evdi vd); [reflexivity|].
  cbn [andb app] in Hin. rewrite app_nil_r in Hin.
  destruct (0 <=? drm_fd vd); [|destruct Hin].
  destruct Hin as [<-|[]]. discriminate He.
Qed.

(** [changeDisplaySettings] keeps every record on its backend, and calls
    EVDI only for a record that is hardware-backed. *)
Lemma change_first_flags (n : string) (w h r : Z)
    (records : StdMap.t VirtualDisplayInfo) (s : state) :
  exists found records' new,
    change_first P n w h r records s
    = (found, records', set_trace (new ++ trace s) s) /\
    map (fun e => using_evdi (snd e)) records'
    = map (fun e => using_evdi (snd e)) records /\
    (forall e, In e new -> is_evdi_call e = true ->
       Exists (fun e => using_evdi (snd e) = true) records).
Proof.
  destruct (Exists_dec (fun e : string * VirtualDisplayInfo => name (snd e) = n)
              records (fun e => string_dec (name (snd e)) n)) as [Hex|Hno].
  - destruct (change_first_hit P n w h r records s Hex)
      as (pre & k & vd & post & Hrec & _ & _ & Heq).
    eexists _, _, _. split; [exact Heq|].
    split; [rewrite Hrec, !map_app; reflexivity|].
    intros e Hin He. destruct (using_evdi vd) eqn:Hu; [|destruct Hin].
    apply (hardware_In k vd); [|exact Hu].
    rewrite Hrec. apply in_or_app. right; left; reflexivity.
  - destruct (change_first_spec P n w h r records s)
      as (found & records' & new & Heq & _ & _ & _ & _ & Hmiss).
    apply Forall_Exists_neg in Hno.
    destruct (Hmiss Hno) as (_ & -> & ->).
    exists found, records, []. split; [exact Heq|].
    split; [reflexivity|intros e []].
Qed.

Lemma Exists_flags (m m' : StdMap.t VirtualDisplayInfo) :
  map (fun e => using_evdi (snd e)) m' = map (fun e => using_evdi (snd e)) m ->
  Exists (fun e => using_evdi (snd e) = true) m' ->
  Exists (fun e => using_evdi (snd e) = true) m.
Proof.
  intros Hmap Hex. apply Exists_exists in Hex. destruct Hex as (e & Hin & Hu).
  assert (Hin' : In true (map (fun e => using_evdi (snd e)) m)).
  { rewrite <- Hmap, <- Hu.
    apply (in_map (fun e : string * VirtualDisplayInfo => using_evdi (snd e))).
    exact Hin. }
  apply in_map_iff in Hin'. destruct Hin' as (e' & Hu' & Hin').
  apply Exists_exists. exists e'. auto.
Qed.

(** A new registry is as good as the old one when it is empty if the old
    one was, and holds a hardware-backed record only if the old one did or
    hardware mode is on. *)
Lemma binding_ok_registry (m : StdMap.t VirtualDisplayInfo)
    (tr : list event) (s : state) :
  binding_ok s ->
  (virtual_displays s = [] -> driver_status s <> OK -> m = []) ->
  (Exists (fun e => using_evdi (snd e) = true) m ->
   Exists (fun e => using_evdi (snd e) = true) (virtual_displays s) \/
   (driver_status s = OK /\ evdi_available s = true)) ->
  binding_ok (set_virtual_displays m (set_trace tr s)).
Proof.
  intros (Hreg & Hav & Hh & Hhw) Hnil Hex. unfold binding_ok.
  cbn [driver_status evdi_available evdi_loaded evdi_lib_handle
       virtual_displays set_virtual_displays set_trace].
  split; [intros Hne; apply Hnil; auto|].
  split; [exact Hav|]. split; [exact Hh|].
  intros H. destruct (Hex H) as [H'|H']; auto.
Qed.

Lemma watchdog_step_frame (s : state) :
  exists thr tr,
    watchdog_step P s = set_watchdog_thread thr (set_trace tr s).
Proof.
  unfold watchdog_step.
  destruct (watchdog_thread s) as [t|] eqn:Hthr.
  - destruct (pc t).
    + destruct (watchdog_running s); eexists _, (trace s);
        rewrite set_trace_same; reflexivity.
    + destruct (negb (watchdog_running s)); eexists _, (trace s);
        rewrite set_trace_same; reflexivity.
    + destruct (watchdog_scan_spec P (virtual_displays s) s)
        as (new & Hcalls & _).
      destruct (watchdog_scan P (virtual_displays s) s) as [lost s1].
      cbn [snd] in Hcalls. rewrite Hcalls.
      destruct lost; [destruct (failCb t)|]; eexists _, _; reflexivity.
    + exists (Some t), (trace s). rewrite set_trace_same.
      destruct s; cbn in *. subst. reflexivity.
  - exists None, (trace s). rewrite set_trace_same.
    destruct s; cbn in *. subst. reflexivity.
Qed.

Lemma step_binding (a : action) (s s' : state) :
  binding_ok s -> step P a s = Some s' -> binding_ok s'.
Proof.
  intros Hb Hstep.
  destruct a; cbn [step] in Hstep;
    try (injection Hstep as <-; exact Hb).
  - injection Hstep as <-. apply open_binding. exact Hb.
  - destruct (closeVDisplayDevice s) as [[] s1| |] eqn:Hclose;
      try discriminate.
    injection Hstep as <-.
    destruct (close_spec _ _ _ Hclose) as (_ & _ & Hreg & Hst & Hl & _).
    unfold binding_ok. rewrite Hreg, Hst, Hl.
    split; [reflexivity|]. split; [discriminate|]. split; [discriminate|].
    intros H; inversion H.
  - unfold startPingThread in Hstep.
    destruct (watchdog_running s); [injection Hstep as <-; exact Hb|].
    cbn [watchdog_thread set_watchdog_running] in Hstep.
    destruct (watchdog_thread s); [discriminate|].
    injection Hstep as <-. exact Hb.
  - injection Hstep as <-.
    destruct (driver_status s) eqn:Hst;
      try (unfold createVirtualDisplay; rewrite Hst; exact Hb).
    destruct (create_spec P s_client_uid s_client_name width0 height0 fps0
                guid s Hst) as (vd & new & -> & _ & _ & _ & _ & _ & Hsoft).
    cbn [snd]. apply binding_ok_registry; [exact Hb|congruence|].
    intros H. apply Exists_assign in H. destruct H as [H|H]; [|left; exact H].
    right. split; [exact Hst|]. cbn [snd] in H.
    destruct (evdi_available s); [reflexivity|].
    destruct (Hsoft eq_refl) as (_ & Hu & _). congruence.
  - injection Hstep as <-. unfold removeVirtualDisplay.
    destruct (StdMap.find (uuid_util.string guid) (virtual_displays s));
      [|exact Hb].
    rewrite release_record_calls. cbn [snd virtual_displays set_trace].
    apply binding_ok_registry; [exact Hb|intros ->; reflexivity|].
    intros H. left. eapply Exists_erase. exact H.
  - injection Hstep as <-. unfold changeDisplaySettings.
    destruct (change_first_flags deviceName width0 height0 refresh_rate
                (virtual_displays s) s)
      as (found & records' & new & -> & Hmap & _).
    cbn [snd]. apply binding_ok_registry; [exact Hb| |].
    + intros Hnil _. rewrite Hnil in Hmap. destruct records'; [reflexivity|].
      discriminate Hmap.
    + intros H. left. eapply Exists_flags; eauto.
  - injection Hstep as <-. unfold changeDisplaySettings2, changeDisplaySettings.
    destruct (change_first_flags deviceName width0 height0 refresh_rate
                (virtual_displays s) s)
      as (found & records' & new & -> & Hmap & _).
    cbn [snd]. apply binding_ok_registry; [exact Hb| |].
    + intros Hnil _. rewrite Hnil in Hmap. destruct records'; [reflexivity|].
      discriminate Hmap.
    + intros H. left. eapply Exists_flags; eauto.
  - injection Hstep as <-. unfold getPrimaryDisplay.
    destruct (drm_first_connected P (trace s)); exact Hb.
  - injection Hstep as <-. unfold isEvdiDisplay.
    destruct (negb (evdi_available s)); exact Hb.
  - injection Hstep as <-. unfold getEvdiCardIndex.
    destruct (List.find _ _); exact Hb.
  - injection Hstep as <-.
    destruct (watchdog_step_frame s) as (thr & tr & ->). exact Hb.
Qed.

Lemma run_binding (schedule : list action) (s s' : state) :
  binding_ok s -> run P schedule s = Some s' -> binding_ok s'.
Proof.
  revert s; induction schedule as [|a rest IH]; intros s Hb Hrun;
    cbn [run] in Hrun.
  - injection Hrun as <-. exact Hb.
  - destruct (step P a s) as [s1|] eqn:Hstep; [|discriminate].
    apply (IH s1); [|exact Hrun]. eapply step_binding; eauto.
Qed.

Lemma initial_binding_ok : binding_ok initial_state.
Proof.
  unfold binding_ok. cbn.
  split; [reflexivity|]. split; [discriminate|]. split; [discriminate|].
  intros H; inversion H.
Qed.


(** *** Who calls through the function table *)

Lemma open_loader_calls (s : state) :
  calls_within is_loader_call s (snd (openVDisplayDevice P s)).
Proof.
  destruct (driver_status s) eqn:Hst;
    try (unfold openVDisplayDevice; rewrite Hst;
         apply calls_within_refl; reflexivity).
  all: assert (Hne : driver_status s <> OK) by congruence.
  all: destruct (open_facts s Hne) as (st & avail & new & -> & _ & Hq & _).
  all: eapply calls_within_trans; [apply load_evdi_library_loader_calls|].
  all: exists new; split; [reflexivity|exact Hq].
Qed.

Lemma close_calls_kinds (s s' : state) :
  closeVDisplayDevice s = Returns tt s' ->
  forall e, In e (new_events s s') ->
    e = ThreadJoin \/ (exists l, e = Dlclose l) \/
    exists k vd, In (k, vd) (virtual_displays s) /\ In e (release_calls vd).
Proof.
  intros Hclose.
  assert (Hshape : exists j,
    (j = [] \/ j = [ThreadJoin]) /\
    s' = set_driver_status UNKNOWN
           (unload_evdi_library
              (set_virtual_displays StdMap.empty
                 (release_all (virtual_displays s)
                    (set_trace (j ++ trace s)
                       (set_watchdog_thread None
                          (set_watchdog_running false s))))))).
  { unfold closeVDisplayDevice in Hclose.
    cbn [watchdog_thread set_watchdog_running] in Hclose.
    destruct (watchdog_thread s) as [t|] eqn:Hthr.
    - destruct (pc t); try discriminate; injection Hclose as <-;
        exists [ThreadJoin]; (split; [right; reflexivity|reflexivity]).
    - injection Hclose as <-. exists [].
      split; [left; reflexivity|].
      cbn [app]. destruct s; cbn in *. subst. reflexivity. }
  destruct Hshape as (j & Hj & ->).
  set (sj := set_trace (j ++ trace s)
               (set_watchdog_thread None (set_watchdog_running false s))).
  destruct (release_all_calls (virtual_displays s) sj)
    as (rel & Hrel & _ & _ & Honly).
  rewrite Hrel. unfold unload_evdi_library.
  cbn [evdi_lib_handle set_virtual_displays set_trace sj set_watchdog_thread
       set_watchdog_running trace].
  assert (Hcases : forall e, In e (rel ++ j) ->
    e = ThreadJoin \/ (exists l, e = Dlclose l) \/
    exists k vd, In (k, vd) (virtual_displays s) /\ In e (release_calls vd)).
  { intros e He. apply in_app_or in He. destruct He as [He|He].
    - destruct (Honly e He) as (k & vd & Hin & _ & Hr).
      right; right. exists k, vd. auto.
    - destruct Hj as [->| ->]; [destruct He|].
      destruct He as [<-|[]]. left; reflexivity. }
  destruct (evdi_lib_handle s =? 0).
  - rewrite (new_events_app (rel ++ j))
      by (cbn; rewrite <- app_assoc; reflexivity).
    exact Hcases.
  - rewrite (new_events_app (Dlclose (evdi_lib_handle s) :: rel ++ j))
      by (cbn; rewrite <- app_assoc; reflexivity).
    intros e [<-|He]; [right; left; eexists; reflexivity|auto].
Qed.

Lemma binding_hardware (s : state) :
  binding_ok s ->
  Exists (fun e => using_evdi (snd e) = true) (virtual_displays s) ->
  driver_status s = OK /\ evdi_available s = true /\
  evdi_loaded s = true /\ evdi_lib_handle s <> 0.
Proof.
  intros (_ & Hav & Hh & Hhw) Hex. destruct (Hhw Hex) as [Hst Ha].
  split; [exact Hst|]. split; [exact Ha|]. split; auto.
Qed.

Lemma loader_call_not_evdi (l : list event) (e : event) :
  forallb is_loader_call l = true -> In e l -> is_evdi_call e = true -> False.
Proof.
  intros Hq Hin He. rewrite forallb_forall in Hq. specialize (Hq e Hin).
  destruct e; discriminate.
Qed.

Lemma step_evdi_calls (a : action) (s s' : state) :
  binding_ok s -> step P a s = Some s' ->
  forall e, In e (new_events s s') -> is_evdi_call e = true ->
    driver_status s = OK /\ evdi_available s = true /\
    evdi_loaded s = true /\ evdi_lib_handle s <> 0.
Proof.
  intros Hb Hstep e Hin He.
  destruct a; cbn [step] in Hstep;
    try (injection Hstep as <-; cbn [snd] in Hin;
         rewrite new_events_same in Hin; destruct Hin).
  - injection Hstep as <-.
    destruct (open_loader_calls s) as (new & Htr & Hq).
    rewrite (new_events_app new) in Hin by exact Htr.
    destruct (loader_call_not_evdi new e Hq Hin He).
  - destruct (closeVDisplayDevice s) as [[] s1| |] eqn:Hclose;
      try discriminate.
    injection Hstep as <-.
    destruct (close_calls_kinds s s1 Hclose e Hin)
      as [->|[(l & ->)|(k & vd & Hreg & Hrel)]]; try discriminate He.
    apply binding_hardware; [exact Hb|].
    apply (hardware_In k vd); [exact Hreg|].
    eapply release_calls_hardware; eauto.
  - unfold startPingThread in Hstep.
    destruct (watchdog_running s);
      [injection Hstep as <-; rewrite new_events_same in Hin; destruct Hin|].
    cbn [watchdog_thread set_watchdog_running] in Hstep.
    destruct (watchdog_thread s); [discriminate|].
    injection Hstep as <-.
    rewrite (new_events_app [ThreadSpawn]) in Hin by reflexivity.
    destruct Hin as [<-|[]]. discriminate He.
  - injection Hstep as <-.
    destruct (driver_status s) eqn:Hst;
      try (unfold createVirtualDisplay in Hin; rewrite Hst in Hin;
           cbn [snd] in Hin; rewrite new_events_same in Hin; destruct Hin).
    destruct (create_spec P s_client_uid s_client_name width0 height0 fps0
                guid s Hst) as (vd & new & Heq & _ & _ & _ & _ & _ & Hsoft).
    rewrite Heq in Hin. cbn [snd] in Hin.
    rewrite (new_events_app new) in Hin by reflexivity.
    destruct Hb as (_ & Hav & Hh & _).
    destruct (evdi_available s) eqn:Ha.
    + split; [reflexivity|]. split; [reflexivity|]. split; auto.
    + destruct (Hsoft eq_refl) as (-> & _). destruct Hin.
  - injection Hstep as <-. unfold removeVirtualDisplay in Hin.
    destruct (StdMap.find (uuid_util.string guid) (virtual_displays s))
      as [vd|] eqn:Hfind;
      [|cbn [snd] in Hin; rewrite new_events_same in Hin; destruct Hin].
    rewrite release_record_calls in Hin. cbn [snd] in Hin.
    rewrite (new_events_app (release_calls vd)) in Hin by reflexivity.
    apply binding_hardware; [exact Hb|].
    apply (hardware_In (uuid_util.string guid) vd);
      [apply find_In; exact Hfind|].
    eapply release_calls_hardware; eauto.
  - injection Hstep as <-. unfold changeDisplaySettings in Hin.
    destruct (change_first_flags deviceName width0 height0 refresh_rate
                (virtual_displays s) s)
      as (found & records' & new & Heq & _ & Hcalls).
    rewrite Heq in Hin. cbn [snd] in Hin.
    rewrite (new_events_app new) in Hin by reflexivity.
    apply binding_hardware; [exact Hb|]. eapply Hcalls; eauto.
  - injection Hstep as <-.
    unfold changeDisplaySettings2, changeDisplaySettings in Hin.
    destruct (change_first_flags deviceName width0 height0 refresh_rate
                (virtual_displays s) s)
      as (found & records' & new & Heq & _ & Hcalls).
    rewrite Heq in Hin. cbn [snd] in Hin.
    rewrite (new_events_app new) in Hin by reflexivity.
    apply binding_hardware; [exact Hb|]. eapply Hcalls; eauto.
  - injection Hstep as <-.
    rewrite (new_events_app [DrmFirstConnected (drm_first_connected P (trace s))])
      in Hin
      by (unfold getPrimaryDisplay;
          destruct (drm_first_connected P (trace s)); reflexivity).
    destruct Hin as [<-|[]]. discriminate He.
  - injection Hstep as <-. unfold isEvdiDisplay in Hin.
    destruct (negb (evdi_available s)); cbn [snd] in Hin;
      rewrite new_events_same in Hin; destruct Hin.
  - injection Hstep as <-. unfold getEvdiCardIndex in Hin.
    destruct (List.find _ _); cbn [snd] in Hin;
      rewrite new_events_same in Hin; destruct Hin.
  - injection Hstep as <-.
    destruct (watchdog_thread s) as [t|] eqn:Hthr.
    + destruct (watchdog_step_cases P s t Hthr)
        as [(_ & Htr & _)|(_ & new & Hq & Hrec & Hcase)].
      * rewrite (new_events_app []) in Hin by exact Htr. destruct Hin.
      * assert (Hnew : In e new).
        { destruct Hcase as [[_ Heq]|Heq]; rewrite Heq in Hin.
          - rewrite (new_events_app new) in Hin by reflexivity. exact Hin.
          - destruct (failCb t) as [cb|].
            + rewrite (new_events_app (FailCb cb :: new)) in Hin
                by reflexivity.
              destruct Hin as [<-|Hin]; [discriminate He|exact Hin].
            + rewrite (new_events_app new) in Hin by reflexivity.
              exact Hin. }
        rewrite forallb_forall in Hq. specialize (Hq e Hnew).
        destruct e; try discriminate Hq.
        destruct (Hrec _ _ Hnew) as (r & Hr & _ & _ & _ & Hu).
        apply binding_hardware; [exact Hb|].
        apply Exists_exists. exists r. auto.
    + unfold watchdog_step in Hin. rewrite Hthr in Hin.
      rewrite new_events_same in Hin. destruct Hin.
Qed.

(** X15. In every state the driver reaches from its initial state:
    records exist only while the driver is ready; hardware mode is on only
    with the function table loaded; a loaded table has a library handle
    that is not null; and a hardware-backed record exists only while the
    driver is ready in hardware mode. *)
Theorem reachable_states_are_bound :
  forall (schedule : list action) (s : state),
    run P schedule initial_state = Some s ->
    (virtual_displays s <> [] -> driver_status s = OK) /\
    (driver_status s = OK -> evdi_available s = true ->
     evdi_loaded s = true) /\
    (evdi_loaded s = true -> evdi_lib_handle s <> 0) /\
    (forall k vd, In (k, vd) (virtual_displays s) -> using_evdi vd = true ->
       driver_status s = OK /\ evdi_available s = true /\
       evdi_loaded s = true /\ evdi_lib_handle s <> 0).
Proof.
  intros schedule s Hrun.
  pose proof (run_binding schedule _ _ initial_binding_ok Hrun) as Hb.
  pose proof Hb as (Hreg & Hav & Hh & _).
  split.
  { intros Hne. destruct (driver_status s) eqn:Hst; try reflexivity;
      contradiction Hne; apply Hreg; discriminate. }
  split; [exact Hav|]. split; [exact Hh|].
  intros k vd Hin Hu. apply binding_hardware; [exact Hb|].
  apply (hardware_In k vd); assumption.
Qed.

(** X16. From a reachable state, a call through the EVDI function table
    (device check, add, open, close, connect, disconnect, liveness query)
    is made only when the table is loaded from a library whose handle is
    not null and the driver is ready in hardware mode; this holds for
    every public function and for the watchdog.  [openVDisplayDevice]
    itself only calls the dynamic loader, the module check and the version
    query. *)
Theorem evdi_calls_need_library :
  forall (schedule : list action) (s : state),
    run P schedule initial_state = Some s ->
    (forall (a : action) (s' : state) (e : event),
       step P a s = Some s' ->
       In e (new_events s s') -> is_evdi_call e = true ->
       driver_status s = OK /\ evdi_available s = true /\
       evdi_loaded s = true /\ evdi_lib_handle s <> 0) /\
    forallb is_loader_call (new_events s (snd (openVDisplayDevice P s))) = true.
Proof.
  intros schedule s Hrun.
  pose proof (run_binding schedule _ _ initial_binding_ok Hrun) as Hb.
  split.
  - intros a s' e Hstep Hin He. eapply step_evdi_calls; eauto.
  - destruct (open_loader_calls s) as (new & Htr & Hq).
    rewrite (new_events_app new) by exact Htr. exact Hq.
Qed.

(** X17. In every state the driver reaches, the two queries agree:
    [isEvdiDisplay] answers true exactly when [getEvdiCardIndex] returns an
    index that is not negative.  The test of [evdi_available] in
    [isEvdiDisplay] never changes the answer, since hardware-backed
    records only exist in hardware mode. *)
Theorem evdi_queries_agree :
  forall (schedule : list action) (s : state) (n : string),
    run P schedule initial_state = Some s ->
    (fst (isEvdiDisplay n s) = true <-> 0 <= fst (getEvdiCardIndex n s)) /\
    fst (isEvdiDisplay n s)
    = existsb (fun e => String.eqb (name (snd e)) n && using_evdi (snd e))
        (virtual_displays s).
Proof.
  intros schedule s n Hrun.
  pose proof (run_binding schedule _ _ initial_binding_ok Hrun)
    as (_ & _ & _ & Hhw).
  pose proof (proj1 (run_preserves P schedule _ _ Hrun) (Forall_nil _))
    as Hreg.
  assert (Hguard : fst (isEvdiDisplay n s)
    = existsb (fun e => String.eqb (name (snd e)) n && using_evdi (snd e))
        (virtual_displays s)).
  { unfold isEvdiDisplay. destruct (evdi_available s) eqn:Ha; [reflexivity|].
    cbn [negb fst].
    destruct (existsb _ (virtual_displays s)) eqn:Hex; [|reflexivity].
    apply existsb_exists in Hex. destruct Hex as (r & Hin & Hm).
    apply andb_true_iff in Hm. destruct Hm as [_ Hu].
    destruct Hhw as [_ Hav]; [|congruence].
    apply Exists_exists. exists r. auto. }
  split; [|exact Hguard].
  rewrite Hguard. unfold getEvdiCardIndex. clear Hguard Hhw Hrun.
  revert Hreg. generalize (virtual_displays s). intros m Hreg.
  induction Hreg as [|r rest Hr Hrest IH]; cbn [existsb List.find].
  - cbn. split; [discriminate|lia].
  - destruct (String.eqb (name (snd r)) n && using_evdi (snd r)) eqn:Hm.
    + cbn [orb fst]. apply andb_true_iff in Hm. destruct Hm as [_ Hu].
      destruct Hr as [Hhard _]. destruct (Hhard Hu) as [_ Hge].
      split; auto.
    + cbn [orb]. exact IH.
Qed.

(** *** Opening the driver *)

(** X18. [openVDisplayDevice] on a ready driver returns [OK] at once,
    with the state unchanged and no call made.  Otherwise it is left by an
    exception in exactly one case: the library was loaded and the module
    check threw (the module is not listed in /proc/modules and
    [fs::exists] fails); then the driver state is as it was and hardware
    mode is still on.  In every other case it returns [OK], the driver
    state is [OK], hardware mode is on exactly when the library loaded and
    the module was found, and a second call returns [OK] with nothing
    changed.  In particular it returns [OK] in passthrough mode when no
    library name can be opened and when neither /proc/modules nor sysfs
    shows the module, and it always returns [OK] when [fs::exists] does
    not throw. *)
Theorem open_ready_unless_probe_throws :
  forall (s : state),
    let r := openVDisplayDevice P s in
    let loaded := fst (load_evdi_library P s) in
    let present :=
      fst (check_evdi_module_loaded P (snd (load_evdi_library P s))) in
    (driver_status s = OK ->
     r = (Some OK, s) /\ new_events s (snd r) = []) /\
    (driver_status s <> OK ->
     (fst r = None <-> loaded = true /\ present = None) /\
     (fst r = None ->
      driver_status (snd r) = driver_status s /\
      evdi_available (snd r) = true) /\
     (fst r <> None ->
      fst r = Some OK /\ driver_status (snd r) = OK /\
      evdi_available (snd r)
      = loaded && match present with Some true => true | _ => false end /\
      openVDisplayDevice P (snd r) = (Some OK, snd r))) /\
    (driver_status s <> OK -> evdi_loaded s = false ->
     (forall tr n, dlopen P tr n = 0) ->
     fst r = Some OK /\ driver_status (snd r) = OK /\
     evdi_available (snd r) = false) /\
    (driver_status s <> OK ->
     (forall tr, existsb (contains "evdi") (proc_modules P tr) = false) ->
     (forall tr, sys_module_evdi P tr = Some false) ->
     fst r = Some OK /\ driver_status (snd r) = OK /\
     evdi_available (snd r) = false) /\
    (driver_status s <> OK ->
     (forall tr, sys_module_evdi P tr <> None) ->
     fst r = Some OK /\ driver_status (snd r) = OK).
Proof.
  intros s r loaded present.
  assert (Hcases : driver_status s <> OK ->
    (loaded = true /\ present = None /\
     fst r = None /\ driver_status (snd r) = driver_status s /\
     evdi_available (snd r) = true) \/
    ((loaded = false \/ present <> None) /\
     fst r = Some OK /\ driver_status (snd r) = OK /\
     evdi_available (snd r)
     = loaded && match present with Some true => true | _ => false end))
    by (intros Hne; exact (open_cases P s Hne)).
  split.
  { intros Hst. subst r. unfold openVDisplayDevice. rewrite Hst. cbn [snd].
    split; [reflexivity|apply new_events_same]. }
  split.
  { intros Hne.
    destruct (Hcases Hne)
      as [(Hl & Hp & Hr & Hs & Ha)|(Hor & Hr & Hs & Ha)].
    - split; [split; auto|]. split; [auto|].
      intros Hn. contradiction.
    - split.
      { split; [intros Hn; congruence|].
        intros [Hl Hp]. destruct Hor as [Hor|Hor]; congruence. }
      split; [intros Hn; congruence|].
      intros _. split; [exact Hr|]. split; [exact Hs|]. split; [exact Ha|].
      unfold openVDisplayDevice at 1. rewrite Hs. reflexivity. }
  split.
  { intros Hne Hnot Hfail.
    assert (Hl : loaded = false)
      by (apply load_fails_without_library; assumption).
    destruct (Hcases Hne)
      as [(Hl' & _)|(_ & Hr & Hs & Ha)]; [congruence|].
    split; [exact Hr|]. split; [exact Hs|]. rewrite Ha, Hl. reflexivity. }
  split.
  { intros Hne Hproc Hsys.
    assert (Hp : present = Some false)
      by (apply module_check_fails; assumption).
    destruct (Hcases Hne)
      as [(_ & Hp' & _)|(_ & Hr & Hs & Ha)]; [congruence|].
    split; [exact Hr|]. split; [exact Hs|]. rewrite Ha, Hp.
    apply andb_false_r. }
  intros Hne Hsys.
  assert (Hp : present <> None) by (apply module_check_answers; exact Hsys).
  destruct (Hcases Hne) as [(_ & Hp' & _)|(_ & Hr & Hs & _)];
    [contradiction|].
  split; assumption.
Qed.

End BindingFacts.

(** ** The further properties at concrete inputs *)

Lemma checksum_any_block_witness :
  let edid := [1; 2; 3; 4; 5; 6; 7; 8] in
  ((1 <= 4)%nat /\ (2 + 4 <= List.length edid)%nat) /\
  Edid.sum_bytes (firstn 4 (skipn 2 (Edid.calculate_edid_checksum 2 4 edid)))
    mod 256 = 0.
Proof.
  intros edid.
  assert (H1 : (1 <= 4)%nat) by lia.
  assert (H2 : (2 + 4 <= List.length edid)%nat) by (vm_compute; lia).
  split; [exact (conj H1 H2)|].
  exact (proj1 (proj2 (proj2 (checksum_any_block 2 4 edid H1 H2)))).
Defined.

Lemma remove_erases_and_releases_witness :
  let s := state_after host_with_evdi
             [CallOpen; CallCreate "c1" "Test" 2560 1440 60000 sample_guid] in
  let vd := {| name := "VIRTUAL-3f2a9c1e";
               guid_str := uuid_util.string sample_guid;
               width := 2560; height := 1440; fps := 60000;
               device_index := 1; handle := 7001; drm_fd := 5;
               active := true; using_evdi := true |} in
  (StdMap.ascending (virtual_displays s) = true /\
   StdMap.find (uuid_util.string sample_guid) (virtual_displays s) = Some vd) /\
  new_events s (snd (removeVirtualDisplay sample_guid s))
  = [SysClose 5; EvdiClose 7001; EvdiDisconnect 7001].
Proof.
  intros s vd.
  assert (H1 : StdMap.ascending (virtual_displays s) = true)
    by (vm_compute; reflexivity).
  assert (H2 : StdMap.find (uuid_util.string sample_guid) (virtual_displays s)
               = Some vd) by (vm_compute; reflexivity).
  split; [exact (conj H1 H2)|].
  exact (proj2 (proj2 (proj2
    (proj2 (proj2 (remove_erases_and_releases sample_guid s H1)) vd H2)))).
Defined.

Lemma slot_search_bounded_witness :
  let r := find_available_evdi_device host_without_evdi initial_state in
  fst r = -1 /\
  List.length (filter is_check (new_events initial_state (snd r))) = 16%nat.
Proof.
  intros r.
  assert (H1 : fst r = -1) by (vm_compute; reflexivity).
  split; [exact H1|].
  exact (proj1 (proj1 (proj2 (proj2 (proj2 (proj2 (proj2
    (slot_search_bounded host_without_evdi initial_state)))))) H1)).
Defined.

Lemma create_hardware_or_fallback_witness :
  let s := state_after host_with_evdi [CallOpen] in
  let r := createVirtualDisplay host_with_evdi "c1" "Test" 2560 1440 60000
             sample_guid s in
  driver_status s = OK /\
  exists vd,
    StdMap.find (uuid_util.string sample_guid) (virtual_displays (snd r))
    = Some vd /\
    (using_evdi vd = false -> connects (new_events s (snd r)) = []).
Proof.
  intros s r.
  assert (H1 : driver_status s = OK) by (vm_compute; reflexivity).
  split; [exact H1|].
  destruct (create_hardware_or_fallback host_with_evdi "c1" "Test" 2560 1440
              60000 sample_guid s H1) as (vd & Hfind & _ & _ & Hsoft).
  exists vd. split; [exact Hfind|].
  intros Hu. exact (proj1 (proj2 (proj2 (proj2 (Hsoft Hu))))).
Defined.

Lemma create_then_remove_restores_witness :
  let s := state_after host_without_evdi [CallOpen] in
  let s1 := snd (createVirtualDisplay host_without_evdi "c1" "Test" 1920 1080
                   60000 sample_guid s) in
  (driver_status s = OK /\
   StdMap.find (uuid_util.string sample_guid) (virtual_displays s) = None) /\
  virtual_displays (snd (removeVirtualDisplay sample_guid s1))
  = virtual_displays s.
Proof.
  intros s s1.
  assert (H1 : driver_status s = OK) by (vm_compute; reflexivity).
  assert (H2 : StdMap.find (uuid_util.string sample_guid) (virtual_displays s)
               = None) by (vm_compute; reflexivity).
  split; [exact (conj H1 H2)|].
  exact (proj2 (proj2
    (create_then_remove_restores host_without_evdi "c1" "Test" 1920 1080 60000
       sample_guid s H1 H2))).
Defined.

Lemma loader_all_or_nothing_witness :
  let r := load_evdi_library host_with_evdi initial_state in
  (evdi_loaded initial_state = false /\ fst r = true) /\
  evdi_loaded (snd r) = true /\ evdi_lib_handle (snd r) <> 0.
Proof.
  intros r.
  assert (H1 : evdi_loaded initial_state = false) by (vm_compute; reflexivity).
  assert (H2 : fst r = true) by (vm_compute; reflexivity).
  split; [exact (conj H1 H2)|].
  pose proof (proj1 (loader_all_or_nothing host_with_evdi initial_state H1) H2)
    as H.
  exact (conj (proj1 H) (proj1 (proj2 H))).
Defined.

Lemma close_releases_everything_witness :
  let s := state_after host_with_evdi
             [CallOpen; CallCreate "c1" "Test" 2560 1440 60000 sample_guid] in
  let s' := state_after host_with_evdi
              [CallOpen; CallCreate "c1" "Test" 2560 1440 60000 sample_guid;
               CallClose] in
  closeVDisplayDevice s = Returns tt s' /\
  virtual_displays s' = [] /\
  hd_error (new_events s s') = Some (Dlclose 4096).
Proof.
  intros s s'.
  assert (H1 : closeVDisplayDevice s = Returns tt s')
    by (vm_compute; reflexivity).
  assert (H2 : evdi_lib_handle s <> 0) by (vm_compute; discriminate).
  assert (H3 : Some (Dlclose (evdi_lib_handle s)) = Some (Dlclose 4096))
    by (vm_compute; reflexivity).
  pose proof (close_releases_everything s s' H1) as H.
  split; [exact H1|].
  split; [exact (proj1 (proj1 H))|].
  exact (eq_trans (proj1 (proj2 (proj2 (proj2 H))) H2) H3).
Defined.

Lemma start_ping_always_returns_witness :
  let s := state_after host_with_evdi session_schedule in
  run host_with_evdi session_schedule initial_state = Some s /\
  exists s', startPingThread None s = Returns true s' /\
             watchdog_running s' = true.
Proof.
  intros s.
  assert (H1 : run host_with_evdi session_schedule initial_state = Some s)
    by (vm_compute; reflexivity).
  split; [exact H1|].
  destruct (start_ping_always_returns host_with_evdi session_schedule s None H1)
    as (s' & Hret & Hflag & _).
  exists s'. exact (conj Hret Hflag).
Defined.


Lemma change_rewrites_first_match_witness :
  let s := state_after host_with_evdi
             [CallOpen; CallCreate "c1" "Test" 2560 1440 60000 sample_guid] in
  Exists (fun e => name (snd e) = "VIRTUAL-3f2a9c1e") (virtual_displays s) /\
  exists pre k vd post,
    virtual_displays s = pre ++ (k, vd) :: post /\
    name vd = "VIRTUAL-3f2a9c1e" /\
    virtual_displays
      (snd (changeDisplaySettings host_with_evdi "VIRTUAL-3f2a9c1e"
              1920 1080 60000 s))
    = pre ++ (k, with_geometry 1920 1080 60000 vd) :: post.
Proof.
  intros s.
  assert (H1 : Exists (fun e => name (snd e) = "VIRTUAL-3f2a9c1e")
                 (virtual_displays s)).
  { vm_compute. apply Exists_cons_hd. reflexivity. }
  split; [exact H1|].
  destruct (change_rewrites_first_match host_with_evdi "VIRTUAL-3f2a9c1e"
              1920 1080 60000 s H1) as (pre & k & vd & post & Hreg & _ & Hn & Heq).
  exists pre, k, vd, post. split; [exact Hreg|]. split; [exact Hn|].
  exact (f_equal (fun r => virtual_displays (snd r)) Heq).
Defined.

Lemma match_lists_created_witness :
  let s := state_after host_without_evdi [CallOpen] in
  let r := createVirtualDisplay host_without_evdi "c1" "Test" 1920 1080 60000
             sample_guid s in
  driver_status s = OK /\
  In (fst r) (fst (matchDisplay "VIRTUAL-" (snd r))).
Proof.
  intros s r.
  assert (H1 : driver_status s = OK) by (vm_compute; reflexivity).
  split; [exact H1|].
  exact (proj1 (proj2 (proj2
    (proj2 (match_lists_created host_without_evdi) "c1" "Test" 1920 1080 60000
       sample_guid s H1)))).
Defined.

Lemma card_index_consistent_witness :
  let s := state_after host_with_evdi
             [CallOpen; CallCreate "c1" "Test" 2560 1440 60000 sample_guid] in
  let i := fst (getEvdiCardIndex "VIRTUAL-3f2a9c1e" s) in
  registry_ok (virtual_displays s) /\ (i = -1 \/ 0 <= i).
Proof.
  intros s i.
  assert (H0 : run host_with_evdi
                 [CallOpen; CallCreate "c1" "Test" 2560 1440 60000 sample_guid]
                 initial_state = Some s) by (vm_compute; reflexivity).
  assert (H1 : registry_ok (virtual_displays s)).
  { exact (proj1 (run_preserves host_with_evdi _ _ _ H0) (Forall_nil _)). }
  split; [exact H1|].
  exact (proj1 (card_index_consistent "VIRTUAL-3f2a9c1e" s H1)).
Defined.

Lemma reachable_states_are_bound_witness :
  let s := state_after host_with_evdi session_schedule in
  (run host_with_evdi session_schedule initial_state = Some s /\
   evdi_loaded s = true) /\
  evdi_lib_handle s <> 0.
Proof.
  intros s.
  assert (H1 : run host_with_evdi session_schedule initial_state = Some s)
    by (vm_compute; reflexivity).
  assert (H2 : evdi_loaded s = true) by (vm_compute; reflexivity).
  split; [exact (conj H1 H2)|].
  exact (proj1 (proj2 (proj2
    (reachable_states_are_bound host_with_evdi session_schedule s H1))) H2).
Defined.

Lemma evdi_calls_need_library_witness :
  let s := state_after host_with_evdi [CallOpen] in
  let a := CallCreate "c1" "Test" 2560 1440 60000 sample_guid in
  let s' := state_after host_with_evdi [CallOpen; a] in
  (run host_with_evdi [CallOpen] initial_state = Some s /\
   step host_with_evdi a s = Some s' /\
   In (EvdiOpen 1 7001) (new_events s s') /\
   is_evdi_call (EvdiOpen 1 7001) = true) /\
  evdi_loaded s = true /\ evdi_lib_handle s <> 0.
Proof.
  intros s a s'.
  assert (H1 : run host_with_evdi [CallOpen] initial_state = Some s)
    by (vm_compute; reflexivity).
  assert (H2 : step host_with_evdi a s = Some s') by (vm_compute; reflexivity).
  assert (H3 : In (EvdiOpen 1 7001) (new_events s s'))
    by (vm_compute; right; right; left; reflexivity).
  assert (H4 : is_evdi_call (EvdiOpen 1 7001) = true) by reflexivity.
  split; [exact (conj H1 (conj H2 (conj H3 H4)))|].
  exact (proj2 (proj2
    (proj1 (evdi_calls_need_library host_with_evdi [CallOpen] s H1)
       a s' (EvdiOpen 1 7001) H2 H3 H4))).
Defined.

Lemma evdi_queries_agree_witness :
  let s := state_after host_with_evdi session_schedule in
  run host_with_evdi session_schedule initial_state = Some s /\
  (fst (isEvdiDisplay "VIRTUAL-3f2a9c1e" s) = true <->
   0 <= fst (getEvdiCardIndex "VIRTUAL-3f2a9c1e" s)).
Proof.
  intros s.
  assert (H1 : run host_with_evdi session_schedule initial_state = Some s)
    by (vm_compute; reflexivity).
  split; [exact H1|].
  exact (proj1 (evdi_queries_agree host_with_evdi session_schedule s
                  "VIRTUAL-3f2a9c1e" H1)).
Defined.

Lemma open_ready_unless_probe_throws_witness :
  let r := openVDisplayDevice host_without_evdi initial_state in
  (driver_status initial_state <> OK /\
   evdi_loaded initial_state = false /\
   (forall tr n, dlopen host_without_evdi tr n = 0%Z)) /\
  fst r = Some OK /\ driver_status (snd r) = OK /\
  evdi_available (snd r) = false.
Proof.
  intros r.
  assert (H1 : driver_status initial_state <> OK) by discriminate.
  assert (H2 : evdi_loaded initial_state = false) by reflexivity.
  assert (H3 : forall tr n, dlopen host_without_evdi tr n = 0%Z)
    by (intros; reflexivity).
  split; [exact (conj H1 (conj H2 H3))|].
  exact (proj1 (proj2 (proj2
    (open_ready_unless_probe_throws host_without_evdi initial_state)))
    H1 H2 H3).
Defined.
